(** * ai-hint-bot: the hint daemon (src/daemon.py), embedded and verified

    The daemon listens for controller hotkeys, asks an AI service for a hint
    about a screenshot, and shows the rendered hint on a console that has no
    window manager.  This development embeds the coordination core of
    [daemon.py]:

    - [RateLimiter]    : the day-scoped usage counter        (class RateLimiter)
    - [HotkeyListener] : pressed keys and combo matching     (class HotkeyListener)
    - [Rgb565]         : the 16-bpp pixel encoder            (HintViewer._convert_to_rgb565)
    - [Text]           : the operations of [str] that are the same on bytes
    - [PyStr]          : the operations of [str] that look at characters
    - [Py]             : a small monad for Python method bodies: a frame of
                         local variables, the events added to the world,
                         early [return] and exceptions
    - [HintViewer]     : the display techniques              (class HintViewer)
    - [Config]         : the configuration values read       (class Config)
    - [AIClient]       : the call to the hint source         (class AIClient)
    - [HintSystem]     : the request / view workflow         (class HintSystem)
    - [Scenario]       : concrete consoles, hint sources and states

    Part I holds the definitions, Part II the theorems.

    Everything outside the process (programs run with [subprocess], sysfs,
    the framebuffer, the controller, the clock, the disk, the network) answers
    through a [World] record whose fields are functions of the events so far,
    so that a theorem stated for every [World] covers every behaviour of the
    surroundings, failures included.  Logging calls ([log], [log_debug],
    [log_event]) write to a file inside a handler that swallows every error of
    its own and take no part in control flow; they are left out.  Python's
    unbounded [int] is [Z]; a [str] is the [string] of its UTF-8 bytes;
    sleeps are in milliseconds. *)

From Stdlib Require Import ZArith List String Ascii Bool Lia DecimalString.
From stdpp Require Import base option list gmap sets strings.
Import ListNotations.

Local Open Scope string_scope.
Local Open Scope list_scope.
Local Open Scope Z_scope.

(* ===================================================================== *)
(** * Part I: definitions                                                 *)
(* ===================================================================== *)

(** ** RateLimiter: daily usage counter *)

Module RateLimiter.

(** One element of ["history"]: [{"date": ..., "count": ...}]. *)
Record history_entry := HistoryEntry {
  entry_date : string;
  entry_count : Z
}.

(** The dict [usage_data] as [json.load] yields it.  The code reads every key
    with [.get], so each key may be missing. *)
Record usage_dict := UsageDict {
  date : option string;
  count : option Z;
  history : option (list history_entry)
}.

(** The object: [daily_limit], the in-memory [usage_data], and the JSON
    document held by [usage_counter.json] on disk.  [None]: there is no file,
    or the file holds no JSON document (it is empty or cut short) and
    [json.load] raises; [_load] starts from the empty counter in both cases,
    and [_save] overwrites both alike. *)
Record state := State {
  daily_limit : Z;
  usage_data : usage_dict;
  usage_file : option usage_dict
}.

(** [{"date": "", "count": 0, "history": []}], what [_load] returns when
    there is no readable file. *)
Definition empty_usage : usage_dict :=
  UsageDict (Some "") (Some 0) (Some []).

Definition _load (file : option usage_dict) : usage_dict :=
  default empty_usage file.

(** [__init__(hints_dir, daily_limit)]. *)
Definition init (limit : Z) (file : option usage_dict) : state :=
  State limit (_load file) file.

(** [usage_data.get("count", 0)] *)
Definition get_count (d : usage_dict) : Z := default 0 (count d).

(** [usage_data.get("history", [])] *)
Definition get_history (d : usage_dict) : list history_entry :=
  default [] (history d).

(** Truth value of [usage_data.get("date")]: a present, non-empty string. *)
Definition date_truthy (d : usage_dict) : bool :=
  match date d with
  | Some s => negb (String.eqb s "")
  | None => false
  end.

(** [usage_data.get("date") != today] *)
Definition date_differs (d : usage_dict) (today : string) : bool :=
  match date d with
  | Some s => negb (String.eqb s today)
  | None => true
  end.

(** [history[-30:]] *)
Definition last30 {A : Type} (l : list A) : list A :=
  skipn (length l - 30)%nat l.

(** How a call of [_save] ends.  [Written]: the file holds [usage_data].
    [NotOpened]: [mkdir] or [open] raised, and the file is as it was.
    [Truncated]: [open(..., 'w')] has emptied the file and the write raised
    before the document was complete, so that the file is left without a
    JSON document.  The handler logs the error and the caller goes on in
    every case. *)
Inductive write := Written | NotOpened | Truncated.

(** [_save]: [json.dump] of [usage_data] into the file opened with ['w']. *)
Definition _save (disk_ok : write) (st : state) : state :=
  match disk_ok with
  | Written => State (daily_limit st) (usage_data st) (Some (usage_data st))
  | NotOpened => st
  | Truncated => State (daily_limit st) (usage_data st) None
  end.

(** The guard of the history append:
    [usage_data.get("date") and usage_data.get("count", 0) > 0]. *)
Definition has_prior_usage (d : usage_dict) : bool :=
  date_truthy d && (0 <? get_count d).

(** The entry appended to the history: [{"date": d["date"], "count": d["count"]}]. *)
Definition prior_entry (d : usage_dict) : history_entry :=
  HistoryEntry (default "" (date d)) (get_count d).

(** [_reset_if_new_day], with [today] the value of [_get_today()]. *)
Definition _reset_if_new_day (today : string) (disk_ok : write) (st : state) : state :=
  let d := usage_data st in
  if date_differs d today then
    let d1 :=
      if has_prior_usage d
      then UsageDict (date d) (count d)
             (Some (last30 (get_history d ++ [prior_entry d])))
      else d in
    let d2 := UsageDict (Some today) (Some 0) (history d1) in
    _save disk_ok (State (daily_limit st) d2 (usage_file st))
  else st.

(** [can_make_request]: the tuple [(allowed, used, limit)] and the object
    after the call. *)
Definition can_make_request (today : string) (disk_ok : write) (st : state)
  : (bool * Z * Z) * state :=
  if daily_limit st <=? 0 then ((true, 0, 0), st)
  else
    let st' := _reset_if_new_day today disk_ok st in
    let used := get_count (usage_data st') in
    ((used <? daily_limit st', used, daily_limit st'), st').

(** [record_request]: the two [disk_ok] outcomes are those of the two calls
    of [_save] (one inside the rollover, one after the increment). *)
Definition record_request (today : string) (disk_ok_reset disk_ok : write)
    (st : state) : state :=
  let st1 := _reset_if_new_day today disk_ok_reset st in
  let d := usage_data st1 in
  let d' := UsageDict (date d) (Some (get_count d + 1)) (history d) in
  _save disk_ok (State (daily_limit st1) d' (usage_file st1)).

(** The dict [get_usage_stats] returns. *)
Record usage_stats := UsageStats {
  stats_date : string;
  stats_used : Z;
  stats_limit : Z;
  stats_remaining : Z;
  stats_history : list history_entry
}.

(** [max(0, daily_limit - used) if daily_limit > 0 else -1] *)
Definition remaining (limit used : Z) : Z :=
  if 0 <? limit then Z.max 0 (limit - used) else -1.

(** [get_usage_stats]: [_get_today()] is read twice, once by the rollover
    ([today]) and once for the ["date"] field ([today_again]). *)
Definition get_usage_stats (today today_again : string) (disk_ok : write)
    (st : state) : usage_stats * state :=
  let st' := _reset_if_new_day today disk_ok st in
  let used := get_count (usage_data st') in
  (UsageStats today_again used (daily_limit st')
     (remaining (daily_limit st') used) (get_history (usage_data st')),
   st').

(** [n] calls of [record_request] on the day [today]; [disks] gives the
    outcome of the two writes of each call, and its length is the number of
    calls. *)
Definition record_requests (today : string) (disks : list (write * write))
    (st : state) : state :=
  fold_left (fun s ok => record_request today (fst ok) (snd ok) s) disks st.

(** Sample counters, used to run the operations on concrete data. *)

(** Stored on 2024-05-01, nothing recorded that day, limit 10. *)
Definition idle_day : state :=
  State 10 (UsageDict (Some "2024-05-01") (Some 0) (Some [])) None.

(** Stored on 2024-05-31 with 4 requests and a full history of 30 days. *)
Definition full_month : state :=
  State 10
    (UsageDict (Some "2024-05-31") (Some 4)
       (Some (HistoryEntry "2024-05-01" 7
              :: repeat (HistoryEntry "2024-05-15" 2) 29)))
    None.

(** Stored today (2024-06-01) with the limit of 3 already reached. *)
Definition at_limit : state :=
  State 3 (UsageDict (Some "2024-06-01") (Some 3) (Some [])) None.

(** The unlimited configuration ([daily_limit = 0]). *)
Definition unlimited : state :=
  State 0 (UsageDict (Some "2024-06-01") (Some 12) (Some [])) None.

End RateLimiter.

(** ** HotkeyListener: pressed keys and combo matching *)

Module HotkeyListener.

(** The two callbacks handed to the listener. *)
Inductive action := OnRequest | OnView.

(** What [_check_combos] does besides reading, in program order:
    [pressed_keys.clear()] and [threading.Thread(target=cb, daemon=True).start()].
    The callback runs on the new thread; the listener does not wait for it. *)
Inductive effect :=
| ClearPressed
| StartThread (cb : action).

(** The listener: the two configured combos ([set(config["hotkey_request"])],
    [set(config["hotkey_view"])]), the set of held buttons, and the effects
    performed so far. *)
Record state := State {
  running : bool;
  request_combo : gset string;
  view_combo : gset string;
  pressed_keys : gset string;
  effects : list effect
}.

(** [_check_combos] *)
Definition _check_combos (st : state) : state :=
  if bool_decide (request_combo st ⊆ pressed_keys st) then
    State (running st) (request_combo st) (view_combo st) ∅
      (effects st ++ [ClearPressed; StartThread OnRequest])
  else if bool_decide (view_combo st ⊆ pressed_keys st) then
    State (running st) (request_combo st) (view_combo st) ∅
      (effects st ++ [ClearPressed; StartThread OnView])
  else st.

(** An evdev input event. *)
Record input_event := InputEvent {
  ev_type : Z;
  ev_code : Z;
  ev_value : Z
}.

(** [evdev.ecodes.EV_KEY] *)
Definition EV_KEY : Z := 1.

(** [btn_codes]: the configured button names that [evdev.ecodes] knows, with
    their codes.  [ecodes] is the table of the evdev library
    ([hasattr] / [getattr]). *)
Definition btn_codes (ecodes : string -> option Z) (st : state)
  : list (string * Z) :=
  omap (fun name => option_map (fun c => (name, c)) (ecodes name))
       (elements (request_combo st) ++ elements (view_combo st)).

(** The loop that finds [btn_name] from [event.code]. *)
Definition find_button (codes : list (string * Z)) (code : Z) : option string :=
  option_map fst (find (fun nc => snd nc =? code) codes).

Definition set_pressed (st : state) (keys : gset string) : state :=
  State (running st) (request_combo st) (view_combo st) keys (effects st).

(** The body of the [read_loop] of [_listen_evdev] for one event; once
    [running] is cleared the loop is left and the event is not looked at. *)
Definition on_event (ecodes : string -> option Z) (st : state)
    (ev : input_event) : state :=
  if negb (running st) then st
  else if ev_type ev =? EV_KEY then
    match find_button (btn_codes ecodes st) (ev_code ev) with
    | Some btn_name =>
        let st1 :=
          if ev_value ev =? 1 then set_pressed st (pressed_keys st ∪ {[btn_name]})
          else if ev_value ev =? 0 then set_pressed st (pressed_keys st ∖ {[btn_name]})
          else st in
        _check_combos st1
    | None => st
    end
  else st.

(** The default combos of [DEFAULT_CONFIG]. *)
Definition default_request : gset string := {["BTN_SELECT"; "BTN_TL"]}.
Definition default_view : gset string := {["BTN_SELECT"; "BTN_TR"]}.

End HotkeyListener.

(** ** The 16-bpp pixel encoder *)

Module Rgb565.

(** A pixel of an RGB image as [img.getdata()] yields it. *)
Definition pixel : Type := Z * Z * Z.

(** [((r >> 3) << 11) | ((g >> 2) << 5) | (b >> 3)] *)
Definition rgb565 (p : pixel) : Z :=
  let '(r, g, b) := p in
  Z.lor (Z.lor (Z.shiftl (Z.shiftr r 3) 11) (Z.shiftl (Z.shiftr g 2) 5))
        (Z.shiftr b 3).

(** [struct.pack('<H', v)]: two bytes, low byte first; [struct.error]
    ([None]) unless [0 <= v <= 65535]. *)
Definition pack_H (v : Z) : option (list Z) :=
  if (0 <=? v) && (v <=? 65535) then Some [v mod 256; v / 256] else None.

(** [_convert_to_rgb565]: the loop packs each pixel in image order and the
    chunks are joined; [None] is an exception out of the loop. *)
Definition _convert_to_rgb565 (pixels : list pixel) : option (list Z) :=
  option_map (@concat Z) (mapM (fun p => pack_H (rgb565 p)) pixels).

(** A channel of an 8-bit image. *)
Definition channel (c : Z) : Prop := 0 <= c <= 255.

Definition rgb8 (p : pixel) : Prop :=
  channel (fst (fst p)) /\ channel (snd (fst p)) /\ channel (snd p).

End Rgb565.

(** ** Text helpers of Python's [str] *)

Module Text.

(** Truth value of a string. *)
Definition nonempty (s : string) : bool :=
  match s with EmptyString => false | _ => true end.

(** [str(n)] for an [int]. *)
Definition str_int (n : Z) : string := NilZero.string_of_int (Z.to_int n).

(** [s.startswith(p)] *)
Definition startswith (s p : string) : bool := String.prefix p s.

End Text.

(** ** Python's [str] methods that look at characters

    A [str] is held as the bytes of its UTF-8 encoding: the form in which
    it is read from a file or a datagram, and in which a string literal of
    this file is stored.  Comparison, concatenation, [startswith] and [in]
    are the same on the bytes as on the characters.  Counting characters and
    telling whitespace from other characters is not, and is written out
    here. *)

Module PyStr.

(** A byte that continues a character ([10xxxxxx]); every other byte starts
    one. *)
Definition continuation (a : ascii) : bool :=
  let n := nat_of_ascii a in (128 <=? n)%nat && (n <? 192)%nat.

(** [len(s)]: the number of characters. *)
Fixpoint len (s : string) : nat :=
  match s with
  | EmptyString => 0%nat
  | String a s' => if continuation a then len s' else S (len s')
  end.

(** [s[:n]]: the first [n] characters. *)
Fixpoint take (n : nat) (s : string) : string :=
  match s with
  | EmptyString => EmptyString
  | String a s' =>
      if continuation a then String a (take n s')
      else match n with
           | O => EmptyString
           | S k => String a (take k s')
           end
  end.

(** The code points [c] for which [chr(c).isspace()] holds: tab to carriage
    return, the separators U+001C to U+001F, the space, U+0085, U+00A0,
    U+1680, U+2000 to U+200A, U+2028, U+2029, U+202F, U+205F and U+3000. *)
Definition whitespace : list N :=
  [ 9; 10; 11; 12; 13; 28; 29; 30; 31; 32; 133; 160; 5760;
    8192; 8193; 8194; 8195; 8196; 8197; 8198; 8199; 8200; 8201; 8202;
    8232; 8233; 8239; 8287; 12288 ]%N.

(** The UTF-8 encoding of a code point. *)
Definition utf8 (c : N) : string :=
  let byte (n : N) := ascii_of_N n in
  let cont (n : N) := byte (128 + n mod 64)%N in
  if (c <? 128)%N then String (byte c) ""
  else if (c <? 2048)%N then String (byte (192 + c / 64)%N) (String (cont c) "")
  else if (c <? 65536)%N then
    String (byte (224 + c / 4096)%N)
      (String (cont (c / 64)%N) (String (cont c) ""))
  else
    String (byte (240 + c / 262144)%N)
      (String (cont (c / 4096)%N)
         (String (cont (c / 64)%N) (String (cont c) ""))).

(** The whitespace characters as they occur in a [str]. *)
Definition spaces : list string := Eval vm_compute in map utf8 whitespace.

(** Whether [s] starts with a whitespace character: the number of bytes of
    that character, 0 when there is none. *)
Definition space_width (s : string) : nat :=
  match find (fun space => String.prefix space s) spaces with
  | Some space => String.length space
  | None => 0%nat
  end.

(** [s.split()]: the maximal runs of characters that are not whitespace.
    [cur] is the run being read, last byte first; [skip] counts the bytes
    still to pass over of the whitespace character being read. *)
Fixpoint split_go (skip : nat) (cur : string) (s : string) : list string :=
  match s with
  | EmptyString => if Text.nonempty cur then [String.rev cur] else []
  | String a s' =>
      match skip with
      | S k => split_go k cur s'
      | O =>
          match space_width s with
          | O => split_go 0 (String a cur) s'
          | S k =>
              (if Text.nonempty cur then [String.rev cur] else [])
              ++ split_go k EmptyString s'
          end
      end
  end.

Definition split (s : string) : list string := split_go 0 EmptyString s.

(** [s.lstrip()] *)
Fixpoint lstrip_go (skip : nat) (s : string) : string :=
  match s with
  | EmptyString => EmptyString
  | String a s' =>
      match skip with
      | S k => lstrip_go k s'
      | O =>
          match space_width s with
          | O => s
          | S k => lstrip_go k s'
          end
      end
  end.

Definition lstrip (s : string) : string := lstrip_go 0 s.

(** [s.isspace()] for a [str] that is not empty, and true for the empty
    one. *)
Definition blank (s : string) : bool := negb (Text.nonempty (lstrip s)).

(** [s.rstrip()]: [s] up to the point from which only whitespace follows. *)
Fixpoint rstrip (s : string) : string :=
  match s with
  | EmptyString => EmptyString
  | String a s' => if blank s then EmptyString else String a (rstrip s')
  end.

(** [s.strip()] *)
Definition strip (s : string) : string := rstrip (lstrip s).

(** [s.split(sep, 1)] for a one-character [sep] that occurs in [s]: the text
    before the first [sep] and the text after it; [None] when [sep] does not
    occur (and [split] would return [[s]]). *)
Fixpoint cut (sep : ascii) (s : string) : option (string * string) :=
  match s with
  | EmptyString => None
  | String a s' =>
      if Ascii.eqb a sep then Some (EmptyString, s')
      else match cut sep s' with
           | Some (before, after) => Some (String a before, after)
           | None => None
           end
  end.

(** A [str] without whitespace characters. *)
Fixpoint spaceless (s : string) : bool :=
  match s with
  | EmptyString => true
  | String _ s' => Nat.eqb (space_width s) 0 && spaceless s'
  end.


(** [t] is empty or starts with the first byte of a character. *)
Definition starts_character (t : string) : bool :=
  match t with
  | EmptyString => true
  | String b _ => negb (continuation b)
  end.

End PyStr.

(** ** Py: method bodies with effects, early return and exceptions *)

Module Py.

(** The exception classes the handlers of [daemon.py] tell apart; every one
    of them is an [Exception]. *)
Inductive exn :=
| FileNotFoundError
| PermissionError
| TimeoutExpired
| HTTPError (code : Z) (body_readable : bool)
    (* urllib.error.HTTPError; [body_readable] is whether
       [e.read().decode("utf-8")] succeeds *)
| OtherError (msg : string).

(** [str(e)] *)
Definition str_exn (e : exn) : string :=
  match e with
  | FileNotFoundError => "FileNotFoundError"
  | PermissionError => "PermissionError"
  | TimeoutExpired => "TimeoutExpired"
  | HTTPError code _ => "HTTP Error " +:+ Text.str_int code
  | OtherError msg => msg
  end.

(** The target of a [threading.Thread(...).start()]. *)
Inductive thread_target :=
| ProcessHintRequest (screenshot system game : string).

(** What the daemon does to the world outside, one event per attempt. *)
Inductive event :=
| Subprocess (argv : list string)   (* subprocess.run(argv) / subprocess.Popen(argv) *)
| Terminate (prog : string)         (* process.terminate() *)
| ProcessWait (prog : string)       (* process.wait(timeout=300) *)
| Sleep (ms : Z)                    (* time.sleep, in milliseconds *)
| Udp (datagram : string)           (* RetroArchCommander.send *)
| FbWrite (data : list Z)           (* write and flush on /dev/fb0 *)
| ButtonWait (timeout : Z)          (* _wait_for_button_press, in seconds *)
| HttpPost (url : string)           (* urllib.request.urlopen *)
| UsageLog (event_type : string) (success : bool)   (* log_usage *)
| Render (hint_text : string)       (* HintRenderer.render *)
| Archive (hint_path : string)      (* ArchiveManager.save *)
| StartThread (target : thread_target).

(** How a block of statements ends. *)
Inductive outcome (R A : Type) :=
| Normal (a : A)       (* ran to its end, with value [a] *)
| Returned (r : R)     (* executed [return r] *)
| Raised (e : exn).    (* an exception is propagating *)

Arguments Normal {R A} a.
Arguments Returned {R A} r.
Arguments Raised {R A} e.

(** A block of a method: it sees the events so far ([past]) and the frame
    [L] (local variables, or the fields of [self]); it yields an outcome, the
    new frame and the events it added. *)
Definition M (L R A : Type) : Type :=
  list event -> L -> outcome R A * L * list event.

Section Combinators.
Context {L R : Type}.

Definition ret {A} (a : A) : M L R A :=
  fun _ l => (Normal a, l, []).

Definition bind {A B} (m : M L R A) (k : A -> M L R B) : M L R B :=
  fun past l =>
    match m past l with
    | (Normal a, l1, ev1) =>
        let '(o, l2, ev2) := k a (past ++ ev1) l1 in (o, l2, ev1 ++ ev2)
    | (Returned r, l1, ev1) => (Returned r, l1, ev1)
    | (Raised e, l1, ev1) => (Raised e, l1, ev1)
    end.

(** [return r] *)
Definition return_ {A} (r : R) : M L R A :=
  fun _ l => (Returned r, l, []).

(** [raise e] *)
Definition raise {A} (e : exn) : M L R A :=
  fun _ l => (Raised e, l, []).

Definition emit (ev : event) : M L R unit :=
  fun _ l => (Normal tt, l, [ev]).

(** Reading the world: the answer may depend on everything done so far. *)
Definition ask {X} (f : list event -> X) : M L R X :=
  fun past l => (Normal (f past), l, []).

Definition get : M L R L :=
  fun _ l => (Normal l, l, []).

Definition put (l' : L) : M L R unit :=
  fun _ _ => (Normal tt, l', []).

(** [try: body  except Exception as e: handler e].  A handler for a single
    class re-raises the others. *)
Definition try_except {A} (body : M L R A) (handler : exn -> M L R A)
  : M L R A :=
  fun past l =>
    match body past l with
    | (Raised e, l1, ev1) =>
        let '(o, l2, ev2) := handler e (past ++ ev1) l1 in (o, l2, ev1 ++ ev2)
    | r => r
    end.

(** [if c: body] *)
Definition when (c : bool) (body : M L R unit) : M L R unit :=
  if c then body else ret tt.

(** [for x in xs: body x] *)
Fixpoint foreach {X} (xs : list X) (body : X -> M L R unit) : M L R unit :=
  match xs with
  | [] => ret tt
  | x :: xs' => bind (body x) (fun _ => foreach xs' body)
  end.

End Combinators.

(** A method call: the callee runs in a frame of its own; its [return]
    value, or the value its body ends with, is the value of the call. *)
Definition call {L R L' R'} (body : M L' R' R') (frame : L') : M L R R' :=
  fun past l =>
    match body past frame with
    | (Normal r, _, ev) => (Normal r, l, ev)
    | (Returned r, _, ev) => (Normal r, l, ev)
    | (Raised e, _, ev) => (Raised e, l, ev)
    end.

(** Running a method from outside. *)
Definition result {L R A} (x : outcome R A * L * list event) : outcome R A :=
  fst (fst x).
Definition frame {L R A} (x : outcome R A * L * list event) : L :=
  snd (fst x).
Definition events {L R A} (x : outcome R A * L * list event) : list event :=
  snd x.

(** The value a method call yields: what it returned, or the value its
    body ended with; nothing when it raised. *)
Definition value_of {R} (o : outcome R R) : option R :=
  match o with
  | Normal r => Some r
  | Returned r => Some r
  | Raised _ => None
  end.

(** [sat m N Rt X Ev]: from every past and frame, every event [m] adds
    satisfies [Ev], and [m] ends normally with a value in [N], returns a value
    in [Rt], or raises an exception in [X]. *)
Definition sat {L R A} (m : M L R A)
    (N : A -> Prop) (Rt : R -> Prop) (X : exn -> Prop) (Ev : event -> Prop)
  : Prop :=
  forall past l,
    Forall Ev (events (m past l))
    /\ match result (m past l) with
       | Normal a => N a
       | Returned r => Rt r
       | Raised e => X e
       end.

End Py.

Declare Scope py_scope.
Delimit Scope py_scope with py.
Notation "x <- m ;; k" := (Py.bind m (fun x => k))
  (at level 100, m at next level, right associativity) : py_scope.
Notation "m ;; k" := (Py.bind m (fun _ => k))
  (at level 100, right associativity) : py_scope.

(** ** HintViewer: the display techniques *)

Module HintViewer.
Import Py.
Local Open Scope py_scope.

(** [self.display_method], one of the six strings [_detect_display_method]
    assigns. *)
Inductive display_method :=
| direct_fb | mpv | fbv | fbi | feh | retroarch_pause.

(** [subprocess.run(argv, capture_output=True)]: a [CompletedProcess], or an
    exception ([FileNotFoundError] when the program is missing,
    [TimeoutExpired] when a [timeout] was given). *)
Inductive proc_result :=
| Completed (returncode : Z) (stdout : string)
| ProcRaises (e : exn).

(** One turn of the [select] loop of [_wait_for_button_press]. *)
Record poll := Poll {
  elapsed_ms : Z;       (* time.time() - start_time at the top of the turn *)
  readable : bool;      (* device.fd in r *)
  read_events : option (list HotkeyListener.input_event)
                        (* device.read(); None: it raises *)
}.

(** The console around the viewer: what each external call answers, given
    the events so far. *)
Record World := {
  EVDEV_AVAILABLE : bool;
  subprocess_result : list event -> list string -> proc_result;
  process_wait_result : list event -> string -> option exn;
      (* process.wait(timeout=300): None when the viewer exited *)
  fb_properties : list event -> option (Z * Z * Z);
      (* width, height, bits_per_pixel from sysfs; None: the read raises *)
  prepare_canvas : list event -> string -> Z -> Z -> option (list Rgb565.pixel);
      (* PIL: open, convert('RGB'), resize, paste on a black canvas of the
         framebuffer size; the pixels of the canvas, or None when it raises *)
  fb_write_result : list event -> option exn;
      (* open('/dev/fb0', 'r+b'), write, flush: None when it succeeds *)
  open_device : list event -> option (list poll);
      (* evdev.InputDevice(path) and the turns of its select loop until the
         clock passes the timeout; None: opening or select raises *)
  hint_text_file : list event -> string -> string
      (* the companion .txt of the hint; "" when missing or unreadable *)
}.

(** The local variables of [_show_direct_fb] and [_show_fbv]. *)
Record vt_locals := VtLocals {
  current_vt : option string;
  display_vt : option string;
  retroarch_suspended : bool
}.

Definition vt_init : vt_locals := VtLocals None None false.

(** Truth value of [current_vt]. *)
Definition vt_truthy (vt : option string) : bool :=
  match vt with Some s => Text.nonempty s | None => false end.

(** [canvas.convert('RGBA')], channels swapped to (b, g, r, a), [tobytes()]. *)
Definition bgra_bytes (canvas : list Rgb565.pixel) : list Z :=
  flat_map (fun '(r, g, b) => [b; g; r; 255]) canvas.

(** Channels swapped to (b, g, r), [tobytes()]. *)
Definition bgr_bytes (canvas : list Rgb565.pixel) : list Z :=
  flat_map (fun '(r, g, b) => [b; g; r]) canvas.

(** The select loop of [_wait_for_button_press]: [False] once the clock has
    passed the timeout or a read raises, [True] at the first key press
    ([EV_KEY] with value 1). *)
Definition is_press (ev : HotkeyListener.input_event) : bool :=
  (HotkeyListener.ev_type ev =? HotkeyListener.EV_KEY)
  && (HotkeyListener.ev_value ev =? 1).

Fixpoint wait_loop (timeout : Z) (polls : list poll) : bool :=
  match polls with
  | [] => false
  | p :: rest =>
      if timeout * 1000 <=? elapsed_ms p then false
      else if readable p then
        match read_events p with
        | None => false
        | Some evs => if existsb is_press evs then true
                      else wait_loop timeout rest
        end
      else wait_loop timeout rest
  end.

(** The chunking loop of [_show_retroarch_pause]: words are packed into
    chunks of at most 120 characters. *)
Definition chunk_step (acc : list string * string) (word : string)
  : list string * string :=
  let '(chunks, current_chunk) := acc in
  if (PyStr.len current_chunk + PyStr.len word + 1 <=? 120)%nat
  then (chunks,
        if Text.nonempty current_chunk
        then current_chunk +:+ " " +:+ word else word)
  else (if Text.nonempty current_chunk
        then chunks ++ [current_chunk] else chunks,
        word).

Definition chunk_words (words : list string) : list string :=
  let '(chunks, current_chunk) := fold_left chunk_step words ([], "") in
  if Text.nonempty current_chunk then chunks ++ [current_chunk] else chunks.

(** The events a display technique may add: processes, sleeps, the
    framebuffer write, the button wait, and towards RetroArch only the pause
    toggle and on-screen messages. *)
Definition viewer_event (e : event) : Prop :=
  match e with
  | Subprocess _ | Terminate _ | ProcessWait _ | Sleep _
  | FbWrite _ | ButtonWait _ => True
  | Udp d => d = "PAUSE_TOGGLE" \/ exists text, d = "SHOW_MSG " +:+ text
  | _ => False
  end.

(** The events of the paused-overlay fallback: datagrams to RetroArch and
    sleeps. *)
Definition overlay_event (e : event) : Prop :=
  match e with
  | Sleep _ => True
  | Udp d => d = "PAUSE_TOGGLE" \/ exists text, d = "SHOW_MSG " +:+ text
  | _ => False
  end.

(** The depths [_show_direct_fb] can encode. *)
Definition supported_depth (bpp : Z) : bool :=
  (bpp =? 32) || (bpp =? 24) || (bpp =? 16).

(** The resume signal. *)
Definition pkill_cont : event := Subprocess ["pkill"; "-CONT"; "retroarch"].


Section Methods.
Variable w : World.

(** [subprocess.run(argv, ...)] and [subprocess.Popen(argv, ...)]. *)
Definition subprocess_run {L R} (argv : list string) : M L R (Z * string) :=
  r <- ask (fun past => subprocess_result w past argv);;
  emit (Subprocess argv);;
  match r with
  | Completed rc out => ret (rc, out)
  | ProcRaises e => raise e
  end.

(** [process.wait(timeout=300)] *)
Definition process_wait {L R} (prog : string) : M L R unit :=
  r <- ask (fun past => process_wait_result w past prog);;
  emit (ProcessWait prog);;
  match r with
  | None => ret tt
  | Some e => raise e
  end.

(** [_wait_for_button_press(timeout)]: every exception is caught inside and
    turned into [False]. *)
Definition _wait_for_button_press {L R} (timeout : Z) : M L R bool :=
  dev <- ask (open_device w);;
  emit (ButtonWait timeout);;
  ret (match dev with
       | None => false
       | Some polls => wait_loop timeout polls
       end).

(** [_show_retroarch_pause] *)
Definition _show_retroarch_pause (hint_path : string) : M unit bool bool :=
  hint_text <- ask (fun past => hint_text_file w past hint_path);;
  emit (Udp "PAUSE_TOGGLE");;
  (if Text.nonempty hint_text then
     let clean_text := String.concat " " (PyStr.split hint_text) in
     let chunks := chunk_words (PyStr.split clean_text) in
     foreach chunks (fun chunk =>
       emit (Udp ("SHOW_MSG " +:+ chunk));;
       emit (Sleep 4000));;
     emit (Udp "SHOW_MSG Press Start to unpause and continue")
   else
     emit (Udp "SHOW_MSG Hint ready - check ai-hints/current-hint.png"));;
  emit (Sleep 2000);;
  return_ true.

(** [return self._show_retroarch_pause(hint_path)] *)
Definition fallback {L A} (hint_path : string) : M L bool A :=
  b <- call (_show_retroarch_pause hint_path) tt;;
  return_ b.

Definition set_current_vt (vt : option string) : M vt_locals bool unit :=
  l <- get;; put (VtLocals vt (display_vt l) (retroarch_suspended l)).

Definition set_display_vt (vt : option string) : M vt_locals bool unit :=
  l <- get;; put (VtLocals (current_vt l) vt (retroarch_suspended l)).

Definition set_retroarch_suspended (b : bool) : M vt_locals bool unit :=
  l <- get;; put (VtLocals (current_vt l) (display_vt l) b).

(** Step "get current VT" of [_show_direct_fb] and [_show_fbv]. *)
Definition read_current_vt : M vt_locals bool unit :=
  try_except
    (r <- subprocess_run ["fgconsole"];;
     when ((fst r =? 0) && Text.nonempty (PyStr.strip (snd r)))
          (set_current_vt (Some (PyStr.strip (snd r)))))
    (fun _ => ret tt).

(** Step "stop RetroArch". *)
Definition suspend_retroarch : M vt_locals bool unit :=
  try_except
    (subprocess_run ["pkill"; "-STOP"; "retroarch"];;
     set_retroarch_suspended true;;
     emit (Sleep 300))
    (fun _ => ret tt).

(** Step "switch back to original VT": [if current_vt: try: chvt ...]. *)
Definition switch_back (settle : option Z) : M vt_locals bool unit :=
  l <- get;;
  when (vt_truthy (current_vt l))
    (try_except
       (subprocess_run ["chvt"; default "" (current_vt l)];;
        match settle with Some ms => emit (Sleep ms) | None => ret tt end)
       (fun _ => ret tt)).

(** Step "resume RetroArch": [if retroarch_suspended: pkill -CONT]. *)
Definition resume_retroarch : M vt_locals bool unit :=
  l <- get;;
  when (retroarch_suspended l)
    (subprocess_run ["pkill"; "-CONT"; "retroarch"];; ret tt).

(** [_show_direct_fb] *)
Definition _show_direct_fb (hint_path : string) : M vt_locals bool bool :=
  try_except
    ((* 1. Read framebuffer properties from sysfs *)
     props <- try_except
       (p <- ask (fb_properties w);;
        match p with
        | Some x => ret x
        | None => raise (OtherError "could not read framebuffer properties")
        end)
       (fun _ => fallback hint_path);;
     let '(fb_width, fb_height, fb_bpp) := props in
     (* 2. Get current VT *)
     read_current_vt;;
     (* 3. Stop RetroArch *)
     suspend_retroarch;;
     (* 4. Switch to a text VT to activate fbcon *)
     try_except
       (l <- get;;
        let vt := if bool_decide (current_vt l <> Some "1") then "1" else "3" in
        set_display_vt (Some vt);;
        subprocess_run ["chvt"; vt];;
        emit (Sleep 500))
       (fun _ => ret tt);;
     (* 5. Load and prepare image with PIL *)
     raw_data <- try_except
       (c <- ask (fun past => prepare_canvas w past hint_path fb_width fb_height);;
        match c with
        | None => raise (OtherError "image preparation failed")
        | Some canvas =>
            if fb_bpp =? 32 then ret (bgra_bytes canvas)
            else if fb_bpp =? 24 then ret (bgr_bytes canvas)
            else if fb_bpp =? 16 then
              match Rgb565._convert_to_rgb565 canvas with
              | Some data => ret data
              | None => raise (OtherError "struct.error")
              end
            else fallback hint_path
        end)
       (fun _ => fallback hint_path);;
     (* 6. Write to framebuffer *)
     try_except
       (r <- ask (fb_write_result w);;
        emit (FbWrite raw_data);;
        match r with
        | None => ret tt
        | Some e => raise e
        end)
       (fun e =>
          match e with
          | PermissionError => fallback hint_path
          | _ => fallback hint_path
          end);;
     (* 7. Wait for button press *)
     (if EVDEV_AVAILABLE w
      then _wait_for_button_press 300;; ret tt
      else emit (Sleep 10000));;
     (* 8. Switch back to original VT *)
     switch_back (Some 300);;
     (* 9. Resume RetroArch *)
     resume_retroarch;;
     return_ true)
    (fun _ =>
       (* Cleanup *)
       try_except
         (l <- get;;
          when (vt_truthy (current_vt l))
            (subprocess_run ["chvt"; default "" (current_vt l)];; ret tt);;
          when (retroarch_suspended l)
            (subprocess_run ["pkill"; "-CONT"; "retroarch"];; ret tt))
         (fun _ => ret tt);;
       fallback hint_path).

(** [_show_fbv] *)
Definition _show_fbv (hint_path : string) : M vt_locals bool bool :=
  try_except
    ((* 1. Get current virtual terminal *)
     read_current_vt;;
     (* 2. Suspend RetroArch *)
     suspend_retroarch;;
     (* 3. Switch to a different VT for display *)
     try_except
       (l <- get;;
        let vt := if bool_decide (current_vt l = Some "1") then "3" else "1" in
        set_display_vt (Some vt);;
        subprocess_run ["chvt"; vt];;
        emit (Sleep 300))
       (fun _ => ret tt);;
     (* 4. Display the image *)
     subprocess_run ["fbv"; "-c"; "-f"; "-i"; hint_path];;
     (* 5. Wait for any controller input to dismiss *)
     (if EVDEV_AVAILABLE w
      then _wait_for_button_press 300;; emit (Terminate "fbv")
      else try_except (process_wait "fbv")
             (fun e => match e with
                       | TimeoutExpired => emit (Terminate "fbv")
                       | _ => raise e
                       end));;
     (* 6. Switch back to original VT *)
     switch_back None;;
     (* 7. Resume RetroArch *)
     resume_retroarch;;
     return_ true)
    (fun e =>
       match e with
       | FileNotFoundError =>
           resume_retroarch;;
           fallback hint_path
       | _ =>
           try_except
             (l <- get;;
              when (vt_truthy (current_vt l))
                (subprocess_run ["chvt"; default "" (current_vt l)];; ret tt);;
              subprocess_run ["pkill"; "-CONT"; "retroarch"];; ret tt)
             (fun _ => ret tt);;
           fallback hint_path
       end).

(** [_show_mpv]; its only local variable is [retroarch_suspended]. *)
Definition _show_mpv (hint_path : string) : M bool bool bool :=
  try_except
    ((* 1. Suspend RetroArch *)
     try_except
       (subprocess_run ["pkill"; "-STOP"; "retroarch"];;
        put true;;
        emit (Sleep 300))
       (fun _ => ret tt);;
     (* 2. Run mpv with DRM output *)
     subprocess_run ["mpv"; "--vo=drm"; "--image-display-duration=inf";
                     "--really-quiet"; "--no-osc";
                     "--no-input-default-bindings"; hint_path];;
     emit (Sleep 500);;
     (* 3. Wait for any controller input to dismiss *)
     (if EVDEV_AVAILABLE w
      then _wait_for_button_press 300;; emit (Terminate "mpv")
      else try_except (process_wait "mpv")
             (fun e => match e with
                       | TimeoutExpired => emit (Terminate "mpv")
                       | _ => raise e
                       end));;
     (* 4. Give mpv time to release DRM *)
     emit (Sleep 300);;
     (* 5. Resume RetroArch *)
     suspended <- get;;
     when suspended (subprocess_run ["pkill"; "-CONT"; "retroarch"];; ret tt);;
     return_ true)
    (fun e =>
       match e with
       | FileNotFoundError =>
           suspended <- get;;
           when suspended
             (subprocess_run ["pkill"; "-CONT"; "retroarch"];; ret tt);;
           fallback hint_path
       | _ =>
           try_except
             (subprocess_run ["pkill"; "-CONT"; "retroarch"];; ret tt)
             (fun _ => ret tt);;
           fallback hint_path
       end).

(** [_show_fbi] and [_show_feh]: run the viewer with a timeout of 300 s. *)
Definition show_with_viewer (argv : list string) (prog : string)
  : M unit bool bool :=
  try_except
    (subprocess_run argv;;
     return_ true)
    (fun e =>
       match e with
       | TimeoutExpired =>
           subprocess_run ["killall"; prog];;
           return_ true
       | _ => return_ false
       end).

Definition fbi_argv (hint_path : string) : list string :=
  ["fbi"; "-T"; "1"; "-a"; "--noverbose"; hint_path].

Definition feh_argv (hint_path : string) : list string :=
  ["feh"; "-F"; "-Z"; hint_path].

Definition _show_fbi (hint_path : string) : M unit bool bool :=
  show_with_viewer (fbi_argv hint_path) "fbi".

Definition _show_feh (hint_path : string) : M unit bool bool :=
  show_with_viewer (feh_argv hint_path) "feh".

(** [show]: dispatch on [self.display_method]. *)
Definition show (dm : display_method) (hint_path : string) : M unit bool bool :=
  match dm with
  | direct_fb => b <- call (_show_direct_fb hint_path) vt_init;; return_ b
  | fbv => b <- call (_show_fbv hint_path) vt_init;; return_ b
  | mpv => b <- call (_show_mpv hint_path) false;; return_ b
  | fbi => b <- call (_show_fbi hint_path) tt;; return_ b
  | feh => b <- call (_show_feh hint_path) tt;; return_ b
  | retroarch_pause => b <- call (_show_retroarch_pause hint_path) tt;; return_ b
  end.

End Methods.

End HintViewer.

(** ** Config: the configuration values the core reads *)

Module Config.

(** The keys of [config] used below.  The two [format_*] fields are
    [str.format] applied to the configured templates.  The limit notice is
    formatted where no handler is around, so its field gives the exception
    as well that [format] raises when the configured template names a field
    other than [used] and [limit]; the prompt is formatted for a template
    with the fields [system] and [game]. *)
Record t := {
  api_key : string;
  api_provider : string;
  model : string;
  savestate_slot : option Z;
  notification_ready : string;
  notification_generating : string;
  notification_error : string;
  format_limit_reached : Z -> Z -> string + Py.exn;
      (* config["notification_limit_reached"].format(used=, limit=) *)
  format_prompt : string -> string -> string
      (* config["prompt_template"].format(system=, game=) *)
}.

End Config.

(** ** AIClient: the call to the hint source *)

Module AIClient.
Import Py.
Local Open Scope py_scope.

(** One element of ["choices"] of an OpenAI reply: the text at
    [["message"]["content"]], or the key whose lookup raises [KeyError]. *)
Inductive choice :=
| ChoiceContent (text : string)
| ChoiceMissing (key : string).

(** The decoded JSON of a successful reply.  ["content"] (Anthropic) is a
    list of blocks, each with an optional ["text"]; ["choices"] (OpenAI) a list
    of choices.  Either key may be absent. *)
Record reply := Reply {
  reply_content : option (list (option string));
  reply_choices : option (list choice)
}.

(** What [urlopen] followed by [json.loads] gives. *)
Inductive http_result :=
| HttpResponse (r : reply)
| HttpFails (e : exn).

Record World := {
  read_screenshot : list event -> string -> string + exn;
      (* open(path, "rb").read(), base64-encoded; or the exception *)
  urlopen : list event -> string -> http_result
}.

Definition anthropic_url : string := "https://api.anthropic.com/v1/messages".
Definition openai_url : string := "https://api.openai.com/v1/chat/completions".

Definition no_api_key : string :=
  "Error: No API key configured. Edit config.json to add your API key.".

Definition no_hint : string := "No hint generated.".

Section Methods.
Variable cfg : Config.t.
Variable w : World.

(** The two handlers [_call_anthropic] and [_call_openai] share:
    [except urllib.error.HTTPError] and [except Exception]. *)
Definition api_error_handler (e : exn) : M unit string string :=
  match e with
  | HTTPError code body_readable =>
      (if body_readable then ret tt
       else raise (OtherError "UnicodeDecodeError"));;
      return_ ("API Error: " +:+ Text.str_int code)
  | _ => return_ ("Error: " +:+ str_exn e)
  end.

Definition post (url : string) : M unit string reply :=
  r <- ask (fun past => urlopen w past url);;
  emit (HttpPost url);;
  match r with
  | HttpResponse rep => ret rep
  | HttpFails e => raise e
  end.

(** [_call_anthropic] *)
Definition _call_anthropic (image_b64 prompt : string) : M unit string string :=
  try_except
    (result <- post anthropic_url;;
     match reply_content result with
     | Some (block :: _) => return_ (default no_hint block)
     | _ => return_ no_hint
     end)
    api_error_handler.

(** [_call_openai] *)
Definition _call_openai (image_b64 prompt : string) : M unit string string :=
  try_except
    (result <- post openai_url;;
     match reply_choices result with
     | Some (ChoiceContent text :: _) => return_ text
     | Some (ChoiceMissing key :: _) => raise (OtherError key)
     | _ => return_ no_hint
     end)
    api_error_handler.

(** [get_hint] *)
Definition get_hint (screenshot_path system game : string)
  : M unit string string :=
  if negb (Text.nonempty (Config.api_key cfg)) then return_ no_api_key
  else
    img <- ask (fun past => read_screenshot w past screenshot_path);;
    image_data <- match img with
                  | inl data => ret data
                  | inr e => raise e
                  end;;
    let prompt := Config.format_prompt cfg system game in
    if String.eqb (Config.api_provider cfg) "anthropic" then
      r <- call (_call_anthropic image_data prompt) tt;; return_ r
    else if String.eqb (Config.api_provider cfg) "openai" then
      r <- call (_call_openai image_data prompt) tt;; return_ r
    else return_ ("Error: Unknown API provider: " +:+ Config.api_provider cfg).

End Methods.

(** The test of [_process_hint_request] on the returned text. *)
Definition is_error (hint_text : string) : bool :=
  Text.startswith hint_text "Error:" || Text.startswith hint_text "API Error:".

End AIClient.

(** ** HintSystem: the request / view workflow *)

Module HintSystem.
Import Py.
Local Open Scope py_scope.

(** The dict [RetroArchCommander.get_status] returns. *)
Record game_status := GameStatus {
  playing : bool;
  paused : bool;
  content : string;
  core : string
}.

(** The fields of [self] the workflow changes. *)
Record state := State {
  processing : bool;
  hint_ready : bool;
  current_hint_path : option string;
  rate_limiter : RateLimiter.state
}.

Record World := {
  console : HintViewer.World;
  hint_source : AIClient.World;
  today : list event -> string;
      (* datetime.now().strftime("%Y-%m-%d") *)
  disk_ok : list event -> nat -> RateLimiter.write;
      (* how the n-th write of usage_counter.json from here ends *)
  status_reply : list event -> game_status;
      (* the parsed answer to GET_STATUS *)
  find_latest : list event -> option string + exn;
      (* ScreenshotManager.capture, after the SCREENSHOT command and the
         wait: the newest screenshot, if any, or the exception that listing
         the directory or png.stat() raises *)
  thread_start : list event -> option exn;
      (* threading.Thread(...).start(): the exception it raises when no
         thread can be started *)
  parse_game_info : game_status -> string * string;
      (* GameInfoParser.parse: (system, game) *)
  render_result : list event -> string + exn;
      (* HintRenderer.render: the path of the image *)
  archive_result : list event -> option exn
      (* ArchiveManager.save *)
}.

Section Methods.
Variable cfg : Config.t.
Variable dm : HintViewer.display_method.
Variable w : World.

(** [retroarch.show_message(text)] *)
Definition show_message {L R} (text : string) : M L R unit :=
  emit (Udp ("SHOW_MSG " +:+ text)).

(** [retroarch.save_state(slot)] *)
Definition save_state {L R} (slot : option Z) : M L R unit :=
  match slot with
  | Some n => emit (Udp ("SAVE_STATE_SLOT " +:+ Text.str_int n))
  | None => ret tt
  end;;
  emit (Udp "SAVE_STATE").

(** [retroarch.load_state(slot)] *)
Definition load_state {L R} (slot : option Z) : M L R unit :=
  match slot with
  | Some n => emit (Udp ("LOAD_STATE_SLOT " +:+ Text.str_int n))
  | None => ret tt
  end;;
  emit (Udp "LOAD_STATE").

Definition set_processing (b : bool) : M state unit unit :=
  hs <- get;;
  put (State b (hint_ready hs) (current_hint_path hs) (rate_limiter hs)).

Definition set_hint_ready (b : bool) : M state unit unit :=
  hs <- get;;
  put (State (processing hs) b (current_hint_path hs) (rate_limiter hs)).

Definition set_current_hint_path (p : option string) : M state unit unit :=
  hs <- get;;
  put (State (processing hs) (hint_ready hs) p (rate_limiter hs)).

Definition set_rate_limiter (rl : RateLimiter.state) : M state unit unit :=
  hs <- get;;
  put (State (processing hs) (hint_ready hs) (current_hint_path hs) rl).

(** [self.rate_limiter.can_make_request()] *)
Definition can_make_request : M state unit (bool * Z * Z) :=
  hs <- get;;
  day <- ask (today w);;
  ok <- ask (fun past => disk_ok w past 0%nat);;
  let '(answer, rl) :=
    RateLimiter.can_make_request day ok (rate_limiter hs) in
  set_rate_limiter rl;;
  ret answer.

(** [self.rate_limiter.record_request(...)] *)
Definition record_request : M state unit unit :=
  hs <- get;;
  day <- ask (today w);;
  ok0 <- ask (fun past => disk_ok w past 0%nat);;
  ok1 <- ask (fun past => disk_ok w past 1%nat);;
  set_rate_limiter (RateLimiter.record_request day ok0 ok1 (rate_limiter hs)).

(** [self.rate_limiter.get_usage_stats()] *)
Definition get_usage_stats : M state unit RateLimiter.usage_stats :=
  hs <- get;;
  day <- ask (today w);;
  ok <- ask (fun past => disk_ok w past 0%nat);;
  let '(stats, rl) :=
    RateLimiter.get_usage_stats day day ok (rate_limiter hs) in
  set_rate_limiter rl;;
  ret stats.

(** [on_request_hint] *)
Definition on_request_hint : M state unit unit :=
  hs <- get;;
  if processing hs then
    show_message "Already generating hint...";;
    return_ tt
  else
    (* Check rate limit before doing anything else *)
    answer <- can_make_request;;
    let '(allowed, used, limit) := answer in
    if negb allowed then
      msg <- match Config.format_limit_reached cfg used limit with
             | inl msg => ret msg
             | inr e => raise e
             end;;
      show_message msg;;
      emit (UsageLog "RATE_LIMITED" false);;
      return_ tt
    else
      set_processing true;;
      set_hint_ready false;;
      (* Get game status *)
      emit (Udp "GET_STATUS");;
      status <- ask (status_reply w);;
      if negb (playing status) && negb (paused status) then
        show_message "No game running!";;
        set_processing false;;
        return_ tt
      else
        (* Notify user *)
        show_message (Config.notification_generating cfg);;
        (* Capture screenshot *)
        emit (Udp "SCREENSHOT");;
        emit (Sleep 500);;
        shot <- ask (find_latest w);;
        match shot with
        | inr e => raise e
        | inl None =>
            show_message (Config.notification_error cfg);;
            set_processing false;;
            return_ tt
        | inl (Some screenshot) =>
            let '(system, game) := parse_game_info w status in
            (* Process in background *)
            refused <- ask (thread_start w);;
            match refused with
            | Some e => raise e
            | None =>
                emit (StartThread (ProcessHintRequest screenshot system game))
            end
        end.

(** [_process_hint_request] *)
Definition _process_hint_request (screenshot system game : string)
  : M state unit unit :=
  try_except
    ((* Call AI API *)
     hint_text <- call (AIClient.get_hint cfg (hint_source w)
                          screenshot system game) tt;;
     (* Check if it was an error response *)
     if AIClient.is_error hint_text then
       show_message (Config.notification_error cfg);;
       emit (UsageLog "API_ERROR" false);;
       set_processing false;;
       return_ tt
     else
       (* Record successful API call *)
       record_request;;
       (* Render hint image *)
       r <- ask (render_result w);;
       emit (Render hint_text);;
       hint_path <- match r with
                    | inl path => ret path
                    | inr e => raise e
                    end;;
       (* Archive *)
       a <- ask (archive_result w);;
       emit (Archive hint_path);;
       match a with
       | None => ret tt
       | Some e => raise e
       end;;
       (* Mark ready *)
       set_current_hint_path (Some hint_path);;
       set_hint_ready true;;
       set_processing false;;
       emit (UsageLog "HINT_GENERATED" true);;
       (* Notify user *)
       show_message (Config.notification_ready cfg);;
       (* Log current usage stats *)
       get_usage_stats;;
       ret tt)
    (fun _ =>
       emit (UsageLog "PROCESSING_ERROR" false);;
       show_message (Config.notification_error cfg);;
       set_processing false).

(** [on_view_hint] *)
Definition on_view_hint : M state unit unit :=
  hs <- get;;
  match current_hint_path hs with
  | Some hint_path =>
      if negb (hint_ready hs) then
        show_message "No hint ready! Press Select+L1 first.";;
        return_ tt
      else
        let slot := Config.savestate_slot cfg in
        (* Save current state *)
        save_state slot;;
        emit (Sleep 2000);;
        (* Display hint *)
        call (HintViewer.show (console w) dm hint_path) tt;;
        (* Restore state *)
        emit (Sleep 200);;
        load_state slot
  | None =>
      show_message "No hint ready! Press Select+L1 first.";;
      return_ tt
  end.

End Methods.

End HintSystem.

(** ** Scenarios: concrete consoles and hint sources *)

Module Scenario.
Import Py HintViewer.

(** A press of button 304. *)
Definition press : HotkeyListener.input_event :=
  HotkeyListener.InputEvent 1 304 1.

(** The player presses a button two seconds into the wait. *)
Definition pressed_after_2s : option (list poll) :=
  Some [Poll 0 false None; Poll 1000 false None; Poll 2000 true (Some [press])].


(** A console on VT 2 where every program exists and succeeds, with a
    2 x 1 framebuffer of the given depth, the given outcome of the
    framebuffer write and the given behaviour of the controller. *)
Definition console (bpp : Z) (write : option exn) (device : option (list poll))
  : World :=
  {| EVDEV_AVAILABLE := true;
     subprocess_result := fun _ argv =>
       match argv with
       | ["fgconsole"] => Completed 0 "2
"
       | _ => Completed 0 ""
       end;
     process_wait_result := fun _ _ => None;
     fb_properties := fun _ => Some (2, 1, bpp);
     prepare_canvas := fun _ _ _ _ => Some [(255, 0, 0); (0, 255, 0)];
     fb_write_result := fun _ => write;
     open_device := fun _ => device;
     hint_text_file := fun _ _ => "Try the left door." |}.

(** The same console when the fbi viewer is killed by its timeout. *)
Definition console_fbi_timeout : World :=
  {| EVDEV_AVAILABLE := true;
     subprocess_result := fun _ argv =>
       match argv with
       | "fbi" :: _ => ProcRaises TimeoutExpired
       | _ => Completed 0 ""
       end;
     process_wait_result := fun _ _ => None;
     fb_properties := fun _ => None;
     prepare_canvas := fun _ _ _ _ => None;
     fb_write_result := fun _ => None;
     open_device := fun _ => None;
     hint_text_file := fun _ _ => "" |}.


(** The same console when fbi is still up after its timeout and there is
    no [killall] program to end it. *)
Definition console_fbi_no_killall : World :=
  {| EVDEV_AVAILABLE := true;
     subprocess_result := fun _ argv =>
       match argv with
       | "fbi" :: _ => ProcRaises TimeoutExpired
       | "killall" :: _ => ProcRaises FileNotFoundError
       | _ => Completed 0 ""
       end;
     process_wait_result := fun _ _ => None;
     fb_properties := fun _ => None;
     prepare_canvas := fun _ _ _ _ => None;
     fb_write_result := fun _ => None;
     open_device := fun _ => None;
     hint_text_file := fun _ _ => "" |}.

Definition hint_png : string := "/userdata/system/ai-hints/current-hint.png".

(** The default notifications and templates of [DEFAULT_CONFIG], with an
    API key set. *)
Definition config (provider : string) : Config.t :=
  {| Config.api_key := "sk-test";
     Config.api_provider := provider;
     Config.model := "claude-sonnet-4-20250514";
     Config.savestate_slot := Some 9;
     Config.notification_ready := "Hint Ready! Press Select+R1 to view.";
     Config.notification_generating := "Generating hint...";
     Config.notification_error := "Hint failed. Try again.";
     Config.format_limit_reached := fun used limit =>
       inl ("Daily limit reached! (" +:+ Text.str_int used +:+ "/"
            +:+ Text.str_int limit +:+ ")");
     Config.format_prompt := fun system game =>
       "System: " +:+ system +:+ " Game: " +:+ game |}.

(** A hint source: what reading the screenshot gives and what the service
    answers. *)
Definition source (shot : string + exn) (answer : AIClient.http_result)
  : AIClient.World :=
  {| AIClient.read_screenshot := fun _ _ => shot;
     AIClient.urlopen := fun _ _ => answer |}.

(** An Anthropic reply with one text block. *)
Definition text_reply (text : string) : AIClient.http_result :=
  AIClient.HttpResponse (AIClient.Reply (Some [Some text]) None).

(** The daemon's surroundings on 2024-06-01 with a game running, a
    screenshot available, and rendering and archiving working. *)
Definition world (c : HintViewer.World) (src : AIClient.World)
  : HintSystem.World :=
  {| HintSystem.console := c;
     HintSystem.hint_source := src;
     HintSystem.today := fun _ => "2024-06-01";
     HintSystem.disk_ok := fun _ _ => RateLimiter.Written;
     HintSystem.status_reply := fun _ =>
       HintSystem.GameStatus true false "Zelda" "snes9x";
     HintSystem.find_latest := fun _ =>
       inl (Some "/userdata/screenshots/shot.png");
     HintSystem.thread_start := fun _ => None;
     HintSystem.parse_game_info := fun _ => ("SNES", "Zelda");
     HintSystem.render_result := fun _ => inl hint_png;
     HintSystem.archive_result := fun _ => None |}.

(** The workflow state with a request in flight, and with a hint ready. *)
Definition busy : HintSystem.state :=
  HintSystem.State true false None RateLimiter.at_limit.

Definition idle : HintSystem.state :=
  HintSystem.State false false None RateLimiter.idle_day.

Definition ready : HintSystem.state :=
  HintSystem.State false true (Some hint_png) RateLimiter.idle_day.

End Scenario.

(** ** Invariants of the stored data *)

Module Invariant.

(** The usage counter the daemon expects to find: a count that is not
    negative and a history of at most 30 days. *)
Definition usage_ok (d : RateLimiter.usage_dict) : Prop :=
  0 <= RateLimiter.get_count d
  /\ (length (RateLimiter.get_history d) <= 30)%nat.

End Invariant.

(** ** Invariants of the hotkey listener *)

Module ListenerInvariant.
Import HotkeyListener.

(** No configured combo is currently held. *)
Definition quiescent (st : state) : Prop :=
  ¬ request_combo st ⊆ pressed_keys st /\ ¬ view_combo st ⊆ pressed_keys st.

(** Only configured buttons are recorded as held. *)
Definition tracks_configured (st : state) : Prop :=
  pressed_keys st ⊆ request_combo st ∪ view_combo st.

(** The listener as [__init__] leaves it and [start] sets it running. *)
Definition started (request view : gset string) : state :=
  State true request view ∅ [].

End ListenerInvariant.

(** ** The state of the chunking loop *)

Module Chunks.

(** The chunks with the pending one flushed. *)
Definition flushed (acc : list string * string) : list string :=
  if Text.nonempty (snd acc) then fst acc ++ [snd acc] else fst acc.

(** A chunk is well formed for the words [all]: it is not empty, and it
    has at most 120 characters unless it is a single word of [all]. *)
Definition chunk_ok (all : list string) (chunk : string) : Prop :=
  chunk <> "" /\ ((PyStr.len chunk <= 120)%nat \/ chunk ∈ all).

End Chunks.

(** ** Further scenarios *)

Module Failing.
Import Py.


(** The same when RetroArch answers that no content is loaded. *)
Definition no_game (w : HintSystem.World) : HintSystem.World :=
  {| HintSystem.console := HintSystem.console w;
     HintSystem.hint_source := HintSystem.hint_source w;
     HintSystem.today := HintSystem.today w;
     HintSystem.disk_ok := HintSystem.disk_ok w;
     HintSystem.status_reply := fun _ => HintSystem.GameStatus false false "" "";
     HintSystem.find_latest := HintSystem.find_latest w;
     HintSystem.thread_start := HintSystem.thread_start w;
     HintSystem.parse_game_info := HintSystem.parse_game_info w;
     HintSystem.render_result := HintSystem.render_result w;
     HintSystem.archive_result := HintSystem.archive_result w |}.


(** A source answering with a hint, on a working console. *)
Definition answering : HintSystem.World :=
  Scenario.world (Scenario.console 16 None Scenario.pressed_after_2s)
    (Scenario.source (inl "aW1hZ2U=") (Scenario.text_reply "Try the left door.")).

End Failing.

(** ** ArchiveManager: file-system-safe names *)

Module ArchiveManager.

(** The characters of [unsafe], in the order the loop visits them: less
    than, greater than, colon, double quote (code 34), slash, backslash, bar,
    question mark, star. *)
Definition unsafe : list ascii :=
  ["<"; ">"; ":"; "034"; "/"; "\"; "|"; "?"; "*"]%char.

(** [s.replace(char, "_")] for a one-character [char]. *)
Fixpoint replace_char (char : ascii) (s : string) : string :=
  match s with
  | EmptyString => EmptyString
  | String a s' =>
      String (if Ascii.eqb a char then "_"%char else a) (replace_char char s')
  end.

(** [_safe_name]: the loop over [unsafe], then [result[:50]]. *)
Definition _safe_name (name : string) : string :=
  PyStr.take 50
    (fold_left (fun result char => replace_char char result) unsafe name).

(** The characters of a string. *)
Definition chars (s : string) : list ascii := list_ascii_of_string s.

(** What the nine replacements do to one character. *)
Definition sanitize (a : ascii) : ascii :=
  if existsb (Ascii.eqb a) unsafe then "_"%char else a.

Fixpoint map_chars (f : ascii -> ascii) (s : string) : string :=
  match s with
  | EmptyString => EmptyString
  | String a s' => String (f a) (map_chars f s')
  end.

End ArchiveManager.

(** ** ScreenshotManager: the newest screenshot *)

Module ScreenshotManager.

(** One turn of the loop of [find_latest] over [glob("*.png")]: a file is a
    path with its [st_mtime]. *)
Definition scan (acc : option string * Z) (png : string * Z)
  : option string * Z :=
  let '(newest, newest_time) := acc in
  let '(path, mtime) := png in
  if newest_time <? mtime then (Some path, mtime) else (newest, newest_time).

(** [find_latest(after_time)]; [dir] is the listing of the screenshot
    directory in glob order, [None] when the directory does not exist. *)
Definition find_latest (dir : option (list (string * Z))) (after_time : Z)
  : option string :=
  match dir with
  | None => None
  | Some pngs => fst (fold_left scan pngs (None, after_time))
  end.

(** What the scan has found: nothing newer than [after_time], or the first
    of the newest files. *)
Definition scanned (pngs : list (string * Z)) (after_time : Z)
    (acc : option string * Z) : Prop :=
  match fst acc with
  | None => snd acc = after_time /\ Forall (fun png => snd png <= after_time) pngs
  | Some path =>
      after_time < snd acc
      /\ exists i, pngs !! i = Some (path, snd acc)
           /\ forall j png, pngs !! j = Some png ->
                snd png <= snd acc /\ ((j < i)%nat -> snd png < snd acc)
  end.

End ScreenshotManager.

(** ** GameInfoParser: system and game from the status *)

Module GameInfoParser.

(** [CORE_TO_SYSTEM], in the order of the dict literal (the order in which
    [items()] yields it). *)
Definition CORE_TO_SYSTEM : list (string * string) :=
  [ ("snes9x", "SNES"); ("bsnes", "SNES"); ("mesen-s", "SNES");
    ("genesis_plus_gx", "Genesis"); ("picodrive", "Genesis");
    ("blastem", "Genesis");
    ("mgba", "GBA"); ("vba_next", "GBA");
    ("gambatte", "Game Boy"); ("sameboy", "Game Boy");
    ("nestopia", "NES"); ("mesen", "NES"); ("fceumm", "NES");
    ("mupen64plus_next", "N64"); ("parallel_n64", "N64");
    ("pcsx_rearmed", "PlayStation"); ("duckstation", "PlayStation");
    ("swanstation", "PlayStation"); ("beetle_psx", "PlayStation");
    ("flycast", "Dreamcast");
    ("mednafen_saturn", "Saturn"); ("yabause", "Saturn");
    ("stella", "Atari 2600"); ("prosystem", "Atari 7800");
    ("mame", "Arcade"); ("fbneo", "Arcade");
    ("dosbox_pure", "DOS"); ("scummvm", "ScummVM");
    ("puae", "Amiga"); ("commodore_amiga", "Amiga"); ("fsuae", "Amiga");
    ("vice", "C64"); ("vice_x64", "C64");
    ("hatari", "Atari ST"); ("px68k", "X68000"); ("quasi88", "PC-88");
    ("np2kai", "PC-98") ].

(** [needle in haystack] for strings. *)
Fixpoint contains (needle haystack : string) : bool :=
  String.prefix needle haystack
  || match haystack with
     | EmptyString => false
     | String _ rest => contains needle rest
     end.

(** [str.lower()] on ASCII text: the letters A-Z are mapped to a-z. *)
Definition lower_char (a : ascii) : ascii :=
  let n := nat_of_ascii a in
  if (65 <=? n)%nat && (n <=? 90)%nat then ascii_of_nat (n + 32) else a.

Fixpoint lower (s : string) : string :=
  match s with
  | EmptyString => EmptyString
  | String a s' => String (lower_char a) (lower s')
  end.

(** The loop over [CORE_TO_SYSTEM.items()]: the system of the first core
    name that occurs in [core], else the initial ["Unknown System"]. *)
Definition system_of (core : string) : string :=
  match find (fun entry => contains (fst entry) core) CORE_TO_SYSTEM with
  | Some entry => snd entry
  | None => "Unknown System"
  end.

(** [parse(status)]; [stem] is [Path(content).stem]. *)
Definition parse (stem : string -> string) (status : HintSystem.game_status)
  : string * string :=
  let content := HintSystem.content status in
  let core := lower (HintSystem.core status) in
  let game := if Text.nonempty content then stem content else "Unknown Game" in
  (system_of core, game).

End GameInfoParser.

(** ** HintRenderer: wrapping the hint text *)

Module HintRenderer.

Section Wrap.
(** [width line] is the width PIL measures for [line] in the font used
    ([textbbox], or [textsize] on older versions). *)
Variable width : string -> Z.
Variable max_width : Z.

(** One turn of the loop of [_wrap_text]: [lines] and [current_line]. *)
Definition wrap_step (acc : list string * list string) (word : string)
  : list string * list string :=
  let '(lines, current_line) := acc in
  let test_line := String.concat " " (current_line ++ [word]) in
  if width test_line <=? max_width then (lines, current_line ++ [word])
  else (match current_line with
        | [] => lines
        | _ => lines ++ [String.concat " " current_line]
        end,
        [word]).

(** The lines once the pending one is appended. *)
Definition wrapped (acc : list string * list string) : list string :=
  match snd acc with
  | [] => fst acc
  | current_line => fst acc ++ [String.concat " " current_line]
  end.

(** A line is well formed for the words [all]: it fits, or it is a single
    word of [all]. *)
Definition line_ok (all : list string) (line : string) : Prop :=
  width line <= max_width \/ line ∈ all.

(** [_wrap_text(text, font, max_width, draw)] *)
Definition _wrap_text (text : string) : list string :=
  wrapped (fold_left wrap_step (PyStr.split text) ([], [])).

End Wrap.

End HintRenderer.

(** ** Config: where the API key comes from *)

Module ConfigKey.

(** ["ANTHROPIC_API_KEY" if provider == "anthropic" else "OPENAI_API_KEY"] *)
Definition env_var (provider : string) : string :=
  if String.eqb provider "anthropic" then "ANTHROPIC_API_KEY"
  else "OPENAI_API_KEY".

(** The body of the loop over the lines of the secrets file: the value a
    line gives to [API_KEY], if it does. *)
Definition api_key_of_line (line : string) : option string :=
  let line := PyStr.strip line in
  if Text.nonempty line && negb (Text.startswith line "#") then
    match PyStr.cut "=" line with
    | Some (key, value) =>
        if String.eqb (PyStr.strip key) "API_KEY"
        then Some (PyStr.strip value) else None
    | None => None
    end
  else None.

(** The loop returns at the first line that sets the key. *)
Fixpoint read_secrets (lines : list string) : option string :=
  match lines with
  | [] => None
  | line :: rest =>
      match api_key_of_line line with
      | Some value => Some value
      | None => read_secrets rest
      end
  end.

(** [self.data["api_key"] = key] *)
Definition set_api_key (key : string) (cfg : Config.t) : Config.t :=
  {| Config.api_key := key;
     Config.api_provider := Config.api_provider cfg;
     Config.model := Config.model cfg;
     Config.savestate_slot := Config.savestate_slot cfg;
     Config.notification_ready := Config.notification_ready cfg;
     Config.notification_generating := Config.notification_generating cfg;
     Config.notification_error := Config.notification_error cfg;
     Config.format_limit_reached := Config.format_limit_reached cfg;
     Config.format_prompt := Config.format_prompt cfg |}.

(** [_load_api_key].  [environ] is [os.environ.get]; [secrets] holds the
    lines of the secrets file that could be read ([None]: there is no such
    file; a read error ends the lines early, and the handler goes on to the
    third step). *)
Definition _load_api_key (environ : string -> option string)
    (secrets : option (list string)) (cfg : Config.t) : Config.t :=
  let provider := Config.api_provider cfg in
  match environ (env_var provider) with
  | Some (String a env_key) => set_api_key (String a env_key) cfg
  | _ =>
      match secrets with
      | Some lines =>
          match read_secrets lines with
          | Some value => set_api_key value cfg
          | None => cfg
          end
      | None => cfg
      end
  end.

(** A line the loop passes over: blank, a comment, or without an equals
    sign. *)
Definition skipped (line : string) : Prop :=
  PyStr.strip line = ""
  \/ Text.startswith (PyStr.strip line) "#" = true
  \/ PyStr.cut "=" (PyStr.strip line) = None.

End ConfigKey.

(** ** Scenarios for the API key *)

Module KeyScenario.

(** No environment variable is set. *)
Definition no_environ : string -> option string := fun _ => None.


(** The configuration of [Scenario.config] with a key in config.json. *)
Definition configured : Config.t := Scenario.config "anthropic".

End KeyScenario.

(** ** HintViewer: choosing the display technique *)

Module Detect.
Import HintViewer.

(** What [_detect_display_method] probes: the PIL import, the two sysfs
    files ([None]: [exists()] raises), and [which <program>]. *)
Record Probe := {
  PIL_AVAILABLE : bool;
  fb_size_exists : option bool;
  fb_bpp_exists : option bool;
  which : string -> proc_result
}.

(** [fb_size.exists() and fb_bpp.exists()] inside [try ... except: pass]. *)
Definition fb_found (p : Probe) : bool :=
  match fb_size_exists p with
  | Some true => default false (fb_bpp_exists p)
  | _ => false
  end.

(** [subprocess.run(["which", prog]).returncode == 0] inside
    [try ... except: pass]. *)
Definition which_found (p : Probe) (prog : string) : bool :=
  match which p prog with
  | Completed rc _ => rc =? 0
  | ProcRaises _ => false
  end.

(** [_detect_display_method] *)
Definition _detect_display_method (p : Probe) : display_method :=
  if PIL_AVAILABLE p && fb_found p then direct_fb
  else if which_found p "mpv" then mpv
  else if which_found p "fbv" then fbv
  else if which_found p "fbi" then fbi
  else if which_found p "feh" then feh
  else retroarch_pause.

(** The techniques in the order they are tried, and what makes each one
    usable. *)
Definition preference : list display_method :=
  [direct_fb; mpv; fbv; fbi; feh; retroarch_pause].

Definition usable (p : Probe) (m : display_method) : bool :=
  match m with
  | direct_fb => PIL_AVAILABLE p && fb_found p
  | mpv => which_found p "mpv"
  | fbv => which_found p "fbv"
  | fbi => which_found p "fbi"
  | feh => which_found p "feh"
  | retroarch_pause => true
  end.

End Detect.

(** ** RetroArchCommander: the status reply *)

Module RetroArchCommander.

(** The dict [get_status] returns. *)
Record status := Status {
  playing : bool;
  paused : bool;
  content : string;
  core : string;
  raw : string
}.

(** [s.split(",", 2)] *)
Definition split_comma_2 (s : string) : list string :=
  match PyStr.cut "," s with
  | None => [s]
  | Some (first, rest) =>
      match PyStr.cut "," rest with
      | None => [first; rest]
      | Some (second, third) => [first; second; third]
      end
  end.

(** [get_status], from the response [send("GET_STATUS")] returned. *)
Definition get_status (response : string) : status :=
  let result := Status false false "" "" response in
  if negb (Text.nonempty response) then result
  else
    let parts := PyStr.split response in
    if (2 <=? length parts)%nat then
      let state := nth 1 parts "" in
      let playing := String.eqb state "PLAYING" in
      let paused := String.eqb state "PAUSED" in
      if (3 <=? length parts)%nat then
        let content_info := String.concat " " (drop 2 parts) in
        if GameInfoParser.contains "," content_info then
          let content_parts := split_comma_2 content_info in
          Status playing paused
            (if (1 <? length content_parts)%nat
             then nth 1 content_parts "" else "")
            (nth 0 content_parts "") response
        else Status playing paused content_info "" response
      else Status playing paused "" "" response
    else result.

(** The part of the dict the workflow reads. *)
Definition game_status (s : status) : HintSystem.game_status :=
  HintSystem.GameStatus (playing s) (paused s) (content s) (core s).

(** A token: not empty and free of whitespace characters. *)
Definition token (word : string) : Prop :=
  word <> "" /\ PyStr.spaceless word = true.

(** A field: free of commas. *)
Definition field (s : string) : Prop :=
  Forall (fun a => a <> ","%char) (list_ascii_of_string s).

End RetroArchCommander.

(** ** The frame written to the framebuffer *)

Module Frame.
Import Py HintViewer.

(** PIL gives [_show_direct_fb] a canvas of the size it asked for, with
    8-bit channels. *)
Definition canvas_ok (w : World) : Prop :=
  forall past path width height canvas,
    prepare_canvas w past path width height = Some canvas ->
    Forall Rgb565.rgb8 canvas /\ Z.of_nat (length canvas) = width * height.

(** A frame of the right size: as many bytes as a framebuffer of the
    reported geometry holds. *)
Definition frame_fits (w : World) (e : event) : Prop :=
  match e with
  | FbWrite data =>
      exists past width height bpp,
        fb_properties w past = Some (width, height, bpp)
        /\ supported_depth bpp = true
        /\ Z.of_nat (length data) = width * height * (bpp / 8)
        /\ Forall (fun byte => 0 <= byte <= 255) data
  | _ => True
  end.

(** A console like [Scenario.console] on which PIL builds a black canvas of
    whatever size is asked for (and raises on a negative size). *)
Definition black_console (bpp : Z) : World :=
  {| EVDEV_AVAILABLE := true;
     subprocess_result := fun _ _ => Completed 0 "";
     process_wait_result := fun _ _ => None;
     fb_properties := fun _ => Some (2, 1, bpp);
     prepare_canvas := fun _ _ width height =>
       if 0 <=? width * height
       then Some (repeat (0, 0, 0) (Z.to_nat (width * height)))
       else None;
     fb_write_result := fun _ => None;
     open_device := fun _ => Scenario.pressed_after_2s;
     hint_text_file := fun _ _ => "Try the left door." |}.

End Frame.

(** ** Pressing a combo *)

Module Presses.
Import HotkeyListener.

(** The press event of a configured button. *)
Definition press_of (ecodes : string -> option Z) (name : string) : input_event :=
  InputEvent EV_KEY (default 0 (ecodes name)) 1.

(** The listener after a sequence of events. *)
Definition listen (ecodes : string -> option Z) (st : state)
    (evs : list input_event) : state :=
  fold_left (on_event ecodes) evs st.

(** Distinct configured buttons have distinct codes. *)
Definition distinct_codes (ecodes : string -> option Z) (st : state) : Prop :=
  forall n m c,
    n ∈ request_combo st ∪ view_combo st ->
    m ∈ request_combo st ∪ view_combo st ->
    ecodes n = Some c -> ecodes m = Some c -> n = m.

End Presses.

(** ** A reply without text *)

Module EmptyReply.

(** The service answers, with no content block at all. *)
Definition silent : HintSystem.World :=
  Scenario.world (Scenario.console 16 None Scenario.pressed_after_2s)
    (Scenario.source (inl "aW1hZ2U=")
       (AIClient.HttpResponse (AIClient.Reply (Some []) None))).

End EmptyReply.

(** ** HotkeyListener: the file-based fallback *)

Module ListenFallback.
Import HotkeyListener.






End ListenFallback.

(** ** The button detection script *)

Module DetectButtons.
Import HotkeyListener.

(** [code_name.startswith(("BTN_", "KEY_"))] *)
Definition button_name (code_name : string) : bool :=
  Text.startswith code_name "BTN_" || Text.startswith code_name "KEY_".

(** The loop over [evdev.ecodes.ecodes.items()]: the first name of the
    code that is a button or key name. *)
Definition name_of (ecodes : list (string * Z)) (code : Z) : option string :=
  option_map fst
    (find (fun entry => (snd entry =? code) && button_name (fst entry)) ecodes).

(** What the script prints for one event: a line for a key press, nothing
    otherwise. *)
Definition printed (ecodes : list (string * Z)) (ev : input_event)
  : option string :=
  if (ev_type ev =? EV_KEY) && (ev_value ev =? 1) then
    Some (match name_of ecodes (ev_code ev) with
          | Some name => "  " +:+ name
          | None => "  Unknown (code " +:+ Text.str_int (ev_code ev) +:+ ")"
          end)
  else None.

(** The lines printed for the events read. *)
Definition output (ecodes : list (string * Z)) (evs : list input_event)
  : list string :=
  omap (printed ecodes) evs.

End DetectButtons.

(* ===================================================================== *)
(** * Part II: theorems                                                   *)
(* ===================================================================== *)

Section RateLimiterFacts.
Import RateLimiter.

Implicit Types (st : state) (d : usage_dict) (today : string).

Lemma last30_length {A : Type} (l : list A) :
  (length (last30 l) <= 30)%nat.
Proof.
  unfold last30. rewrite length_skipn. lia.
Qed.

Lemma last30_short {A : Type} (l : list A) :
  (length l <= 30)%nat -> last30 l = l.
Proof.
  intros Hl. unfold last30.
  replace (length l - 30)%nat with 0%nat by lia. reflexivity.
Qed.

(** Appending to a full history of 30 entries drops the first one. *)
Lemma last30_full_snoc {A : Type} (l : list A) (x : A) :
  length l = 30%nat -> last30 (l ++ [x]) = tail l ++ [x].
Proof.
  intros Hl. unfold last30. rewrite length_app, Hl. simpl.
  destruct l as [|y l]; [discriminate|]. reflexivity.
Qed.

Lemma date_differs_true d today :
  date_differs d today = true <-> date d <> Some today.
Proof.
  unfold date_differs. destruct (date d) as [s|]; [|split; congruence].
  destruct (String.eqb_spec s today) as [->|Hne]; simpl; split; congruence.
Qed.

Lemma date_differs_false d today :
  date_differs d today = false <-> date d = Some today.
Proof.
  unfold date_differs. destruct (date d) as [s|]; [|split; congruence].
  destruct (String.eqb_spec s today) as [->|Hne]; simpl; split; congruence.
Qed.

Lemma save_usage_data ok st : usage_data (_save ok st) = usage_data st.
Proof. destruct ok; reflexivity. Qed.

Lemma save_daily_limit ok st : daily_limit (_save ok st) = daily_limit st.
Proof. destruct ok; reflexivity. Qed.

Lemma save_persists st : usage_file (_save Written st) = Some (usage_data st).
Proof. reflexivity. Qed.

Lemma reset_daily_limit today ok st :
  daily_limit (_reset_if_new_day today ok st) = daily_limit st.
Proof.
  unfold _reset_if_new_day. destruct (date_differs _ _); [|reflexivity].
  rewrite save_daily_limit. reflexivity.
Qed.

(** After the rollover check the stored date is today. *)
Lemma reset_date today ok st :
  date (usage_data (_reset_if_new_day today ok st)) = Some today.
Proof.
  unfold _reset_if_new_day.
  destruct (date_differs _ _) eqn:Hd.
  - rewrite save_usage_data. reflexivity.
  - apply date_differs_false, Hd.
Qed.

(** On the stored day the rollover check changes nothing. *)
Lemma reset_same_day today ok st :
  date (usage_data st) = Some today -> _reset_if_new_day today ok st = st.
Proof.
  intros H. unfold _reset_if_new_day.
  apply date_differs_false in H. rewrite H. reflexivity.
Qed.

Lemma reset_idempotent today ok ok' st :
  _reset_if_new_day today ok' (_reset_if_new_day today ok st)
  = _reset_if_new_day today ok st.
Proof. apply reset_same_day, reset_date. Qed.

(** The count the rollover check leaves: 0 on a new day, the stored one
    otherwise. *)
Lemma reset_count today ok st :
  get_count (usage_data (_reset_if_new_day today ok st))
  = if date_differs (usage_data st) today then 0 else get_count (usage_data st).
Proof.
  unfold _reset_if_new_day. destruct (date_differs _ _); [|reflexivity].
  rewrite save_usage_data. reflexivity.
Qed.

Lemma record_request_daily_limit today ok1 ok2 st :
  daily_limit (record_request today ok1 ok2 st) = daily_limit st.
Proof.
  unfold record_request. rewrite save_daily_limit. simpl. apply reset_daily_limit.
Qed.

Lemma record_request_date today ok1 ok2 st :
  date (usage_data (record_request today ok1 ok2 st)) = Some today.
Proof.
  unfold record_request. rewrite save_usage_data. simpl. apply reset_date.
Qed.

Lemma record_request_count today ok1 ok2 st :
  get_count (usage_data (record_request today ok1 ok2 st))
  = get_count (usage_data (_reset_if_new_day today ok1 st)) + 1.
Proof.
  unfold record_request. rewrite save_usage_data. reflexivity.
Qed.

Lemma record_requests_daily_limit today disks st :
  daily_limit (record_requests today disks st) = daily_limit st.
Proof.
  unfold record_requests. revert st.
  induction disks as [|[ok1 ok2] disks IH]; intros st; simpl; [reflexivity|].
  rewrite IH. apply record_request_daily_limit.
Qed.

(** [n] recorded requests add [n] to the count the rollover check leaves. *)
Lemma record_requests_count today disks st :
  get_count (usage_data
    (_reset_if_new_day today Written (record_requests today disks st)))
  = get_count (usage_data (_reset_if_new_day today Written st))
    + Z.of_nat (length disks).
Proof.
  unfold record_requests. revert st.
  induction disks as [|[ok1 ok2] disks IH]; intros st.
  - simpl. lia.
  - cbn [fold_left length fst snd]. rewrite IH.
    rewrite (reset_same_day today Written (record_request _ _ _ _))
      by apply record_request_date.
    rewrite record_request_count.
    rewrite !reset_count. destruct (date_differs _ _); lia.
Qed.

(** What [can_make_request] answers under a positive limit. *)
Lemma can_make_request_positive today ok st :
  0 < daily_limit st ->
  can_make_request today ok st =
    let st' := _reset_if_new_day today ok st in
    ((get_count (usage_data st') <? daily_limit st,
      get_count (usage_data st'), daily_limit st), st').
Proof.
  intros Hl. unfold can_make_request.
  destruct (Z.leb_spec (daily_limit st) 0); [lia|].
  cbv zeta. rewrite reset_daily_limit. reflexivity.
Qed.

(** The answer of [can_make_request] does not depend on whether the rollover
    could be written to disk. *)
Lemma can_make_request_answer_disk today ok ok' st :
  fst (can_make_request today ok st) = fst (can_make_request today ok' st).
Proof.
  unfold can_make_request. destruct (daily_limit st <=? 0); [reflexivity|].
  cbv zeta. cbn [fst]. rewrite !reset_daily_limit, !reset_count. reflexivity.
Qed.

Lemma has_prior_usage_true d :
  has_prior_usage d = true <->
  exists s, date d = Some s /\ s <> "" /\ 0 < get_count d.
Proof.
  unfold has_prior_usage, date_truthy. rewrite andb_true_iff, Z.ltb_lt.
  destruct (date d) as [s|].
  - destruct (String.eqb_spec s "") as [->|Hne]; simpl; split.
    + intros [? _]; discriminate.
    + intros (s' & Hs & Hne & _). congruence.
    + intros [_ Hc]. exists s. auto.
    + intros (_ & _ & _ & Hc). auto.
  - split; [intros [? _]; discriminate | intros (s & ? & _); discriminate].
Qed.

(** C3 (amended).  When the stored date differs from today, the rollover
    sets the count to 0 and the date to today.  The prior day's
    [{date, count}] entry is appended to the history only when the stored date
    is non-empty and the stored count is positive; the history is then cut to
    its 30 most recent entries, so that a full history loses its oldest entry.
    Otherwise the history is left as it was.  [record_request],
    [get_usage_stats] and, under a positive limit, [can_make_request] all
    perform this rollover. *)
Theorem reset_if_new_day_rollover st today ok :
  date (usage_data st) <> Some today ->
  let d := usage_data st in
  let st' := _reset_if_new_day today ok st in
  count (usage_data st') = Some 0
  /\ date (usage_data st') = Some today
  /\ history (usage_data st') =
       (if has_prior_usage d
        then Some (last30 (get_history d ++ [prior_entry d]))
        else history d)
  /\ (has_prior_usage d = true ->
        (length (get_history (usage_data st')) <= 30)%nat)
  /\ (has_prior_usage d = true -> length (get_history d) = 30%nat ->
        get_history (usage_data st') = tail (get_history d) ++ [prior_entry d])
  /\ (ok = Written -> usage_file st' = Some (usage_data st'))
  /\ (forall ok2,
        usage_data (record_request today ok ok2 st)
        = UsageDict (Some today) (Some 1) (history (usage_data st')))
  /\ (forall today_again, snd (get_usage_stats today today_again ok st) = st')
  /\ (0 < daily_limit st -> snd (can_make_request today ok st) = st').
Proof.
  intros Hdate d st'. apply date_differs_true in Hdate.
  assert (Hst' : st' =
            _save ok (State (daily_limit st)
              (UsageDict (Some today) (Some 0)
                 (if has_prior_usage d
                  then Some (last30 (get_history d ++ [prior_entry d]))
                  else history d))
              (usage_file st))).
  { subst st'. unfold _reset_if_new_day. rewrite Hdate. fold d.
    destruct (has_prior_usage d); reflexivity. }
  assert (Hrec : forall ok2,
            usage_data (record_request today ok ok2 st)
            = UsageDict (Some today) (Some 1) (history (usage_data st'))).
  { intros ok2. unfold record_request. fold st'.
    rewrite save_usage_data, Hst', save_usage_data. reflexivity. }
  assert (Hcan : 0 < daily_limit st -> snd (can_make_request today ok st) = st').
  { intros Hl. rewrite can_make_request_positive by exact Hl. reflexivity. }
  assert (Hstats : forall today_again,
            snd (get_usage_stats today today_again ok st) = st')
    by reflexivity.
  clearbody st'. subst st'. rewrite save_usage_data. cbn [usage_data count date history].
  repeat split; try assumption.
  - intros Hp. rewrite Hp. cbn. apply last30_length.
  - intros Hp Hlen. rewrite Hp. cbn. apply last30_full_snoc, Hlen.
  - intros ->. reflexivity.
  - intros ok2. rewrite Hrec, save_usage_data. reflexivity.
Qed.

(** The rollover of C3 on a full history: 2024-05-31 with 4 requests moves
    into the history and the oldest entry, 2024-05-01, leaves it. *)
Lemma reset_if_new_day_rollover_witness :
  date (usage_data full_month) <> Some "2024-06-01"
  /\ count (usage_data (_reset_if_new_day "2024-06-01" Written full_month)) = Some 0
  /\ get_history (usage_data (_reset_if_new_day "2024-06-01" Written full_month))
     = repeat (HistoryEntry "2024-05-15" 2) 29 ++ [HistoryEntry "2024-05-31" 4].
Proof.
  assert (Hd : date (usage_data full_month) <> Some "2024-06-01")
    by discriminate.
  split; [exact Hd|].
  destruct (reset_if_new_day_rollover full_month "2024-06-01" Written Hd)
    as (Hc & _ & _ & _ & Hfull & _).
  split; [exact Hc|].
  apply Hfull; reflexivity.
Defined.

(** C3 as stated fails: a prior day on which nothing was recorded
    (count 0) leaves no entry in the history, although the stored date
    differs from today. *)
Lemma rollover_skips_empty_day :
  date (usage_data idle_day) <> Some "2024-05-02"
  /\ history (usage_data (_reset_if_new_day "2024-05-02" Written idle_day)) = Some []
  /\ history (usage_data (_reset_if_new_day "2024-05-02" Written idle_day))
     <> Some (last30 (get_history (usage_data idle_day)
                      ++ [HistoryEntry "2024-05-01" 0])).
Proof.
  split; [discriminate|]. split; [reflexivity|]. discriminate.
Qed.

(** C4.  With a limit of 0 or less, [can_make_request] answers
    [(True, 0, 0)] and touches nothing.  With a positive limit it answers
    [allowed] exactly when the current-day count is below the limit; after
    [daily_limit] recorded requests on one day it answers [allowed = False],
    and on a fresh day it answers [True] as long as fewer were recorded. *)
Theorem can_make_request_enforces_limit st today :
  (daily_limit st <= 0 ->
     forall ok, can_make_request today ok st = ((true, 0, 0), st))
  /\ (0 < daily_limit st ->
        (forall ok,
           let used := get_count (usage_data (_reset_if_new_day today ok st)) in
           fst (can_make_request today ok st)
           = (used <? daily_limit st, used, daily_limit st)
           /\ (fst (fst (fst (can_make_request today ok st))) = true
               <-> used < daily_limit st))
        /\ (forall disks ok,
              date (usage_data st) <> Some today \/ 0 <= get_count (usage_data st) ->
              Z.of_nat (length disks) = daily_limit st ->
              fst (fst (fst (can_make_request today ok
                               (record_requests today disks st)))) = false)
        /\ (forall disks ok,
              date (usage_data st) <> Some today \/ get_count (usage_data st) = 0 ->
              Z.of_nat (length disks) < daily_limit st ->
              fst (fst (fst (can_make_request today ok
                               (record_requests today disks st)))) = true)).
Proof.
  split.
  - intros Hl ok. unfold can_make_request.
    destruct (Z.leb_spec (daily_limit st) 0); [reflexivity|lia].
  - intros Hl. split; [|split].
    + intros ok used. rewrite can_make_request_positive by exact Hl.
      cbn [fst]. split; [reflexivity|]. apply Z.ltb_lt.
    + intros disks ok Hstart Hn.
      rewrite (can_make_request_answer_disk today ok Written).
      rewrite can_make_request_positive
        by (rewrite record_requests_daily_limit; exact Hl).
      cbn [fst]. rewrite record_requests_count, record_requests_daily_limit.
      apply Z.ltb_ge. rewrite reset_count.
      destruct (date_differs (usage_data st) today) eqn:Hd; [lia|].
      apply date_differs_false in Hd. destruct Hstart; [contradiction|lia].
    + intros disks ok Hstart Hn.
      rewrite (can_make_request_answer_disk today ok Written).
      rewrite can_make_request_positive
        by (rewrite record_requests_daily_limit; exact Hl).
      cbn [fst]. rewrite record_requests_count, record_requests_daily_limit.
      apply Z.ltb_lt. rewrite reset_count.
      destruct (date_differs (usage_data st) today) eqn:Hd; [lia|].
      apply date_differs_false in Hd. destruct Hstart; [contradiction|lia].
Qed.

(** C4 on data: the unlimited counter answers [(True, 0, 0)]; a counter of
    limit 10 refuses after ten recorded requests on 2024-05-02 and still
    allows after nine. *)
Lemma can_make_request_enforces_limit_witness :
  can_make_request "2024-06-01" Written unlimited = ((true, 0, 0), unlimited)
  /\ fst (fst (fst (can_make_request "2024-05-02" Written
        (record_requests "2024-05-02" (repeat (Written, Written) 10) idle_day)))) = false
  /\ fst (fst (fst (can_make_request "2024-05-02" Written
        (record_requests "2024-05-02" (repeat (Written, Written) 9) idle_day)))) = true.
Proof.
  split; [|split].
  - apply (can_make_request_enforces_limit unlimited "2024-06-01").
    vm_compute; discriminate.
  - apply (can_make_request_enforces_limit idle_day "2024-05-02").
    + reflexivity.
    + left; discriminate.
    + reflexivity.
  - apply (can_make_request_enforces_limit idle_day "2024-05-02").
    + reflexivity.
    + left; discriminate.
    + reflexivity.
Defined.

(** C9.  [record_request] never looks at the limit: whatever the state, it
    adds one to the count the rollover check leaves and writes the result to
    disk, also when that count has already reached a positive limit.  The
    stored count therefore grows past the limit (by one per call), while
    [can_make_request] answers [allowed = False] for every count at or above
    the limit. *)
Theorem record_request_ignores_limit st today ok1 ok2 :
  let st1 := _reset_if_new_day today ok1 st in
  let st2 := record_request today ok1 ok2 st in
  usage_data st2
  = UsageDict (date (usage_data st1))
      (Some (get_count (usage_data st1) + 1)) (history (usage_data st1))
  /\ daily_limit st2 = daily_limit st
  /\ (ok2 = Written -> usage_file st2 = Some (usage_data st2))
  /\ (forall disks,
        get_count (usage_data
          (_reset_if_new_day today Written (record_requests today disks st)))
        = get_count (usage_data (_reset_if_new_day today Written st))
          + Z.of_nat (length disks))
  /\ (0 < daily_limit st -> daily_limit st <= get_count (usage_data st1) ->
        daily_limit st < get_count (usage_data st2)
        /\ forall ok, fst (can_make_request today ok st2)
                      = (false, get_count (usage_data st1) + 1, daily_limit st))
  /\ (0 < daily_limit st -> forall ok,
        daily_limit st <= get_count (usage_data (_reset_if_new_day today ok st)) ->
        fst (fst (fst (can_make_request today ok st))) = false).
Proof.
  intros st1 st2.
  assert (H2 : usage_data st2 =
            UsageDict (date (usage_data st1))
              (Some (get_count (usage_data st1) + 1)) (history (usage_data st1))).
  { subst st2. unfold record_request. rewrite save_usage_data. reflexivity. }
  split; [exact H2|]. split; [apply record_request_daily_limit|].
  split.
  { intros ->. subst st2. unfold record_request. reflexivity. }
  split; [intros disks; apply record_requests_count|].
  split.
  - intros Hl Hc. rewrite H2. cbn [get_count count default]. split; [cbn; lia|].
    intros ok. rewrite can_make_request_positive
      by (subst st2; rewrite record_request_daily_limit; exact Hl).
    cbn [fst]. subst st2.
    rewrite reset_same_day by apply record_request_date.
    rewrite record_request_daily_limit, record_request_count. fold st1.
    f_equal. f_equal. apply Z.ltb_ge. lia.
  - intros Hl ok Hc. rewrite can_make_request_positive by exact Hl.
    cbn [fst]. apply Z.ltb_ge. exact Hc.
Qed.

(** C9 on data: with the limit of 3 already reached, one more
    [record_request] stores a count of 4 and [can_make_request] keeps
    refusing. *)
Lemma record_request_ignores_limit_witness :
  0 < daily_limit at_limit
  /\ daily_limit at_limit
     <= get_count (usage_data (_reset_if_new_day "2024-06-01" Written at_limit))
  /\ usage_file (record_request "2024-06-01" Written Written at_limit)
     = Some (UsageDict (Some "2024-06-01") (Some 4) (Some []))
  /\ fst (can_make_request "2024-06-01" Written
            (record_request "2024-06-01" Written Written at_limit))
     = (false, 4, 3).
Proof.
  assert (Hl : 0 < daily_limit at_limit) by reflexivity.
  assert (Hc : daily_limit at_limit
     <= get_count (usage_data (_reset_if_new_day "2024-06-01" Written at_limit)))
    by (vm_compute; discriminate).
  split; [exact Hl|]. split; [exact Hc|].
  destruct (record_request_ignores_limit at_limit "2024-06-01" Written Written)
    as (_ & _ & Hfile & _ & Hover & _).
  split.
  - rewrite Hfile by reflexivity. reflexivity.
  - destruct (Hover Hl Hc) as [_ Hans]. exact (Hans Written).
Defined.

End RateLimiterFacts.

(** ** HotkeyListener *)

Section HotkeyListenerFacts.
Import HotkeyListener.

Implicit Types (st : state).

(** With no combo held, [_check_combos] does nothing. *)
Lemma check_combos_idle st :
  ¬ request_combo st ⊆ pressed_keys st ->
  ¬ view_combo st ⊆ pressed_keys st ->
  _check_combos st = st.
Proof.
  intros Hr Hv. unfold _check_combos.
  rewrite !bool_decide_eq_false_2 by assumption. reflexivity.
Qed.

(** Every change of the pressed set made by the event loop is followed by
    [_check_combos] on the changed set. *)
Lemma on_event_checks_after_mutation ecodes st ev :
  on_event ecodes st ev = st
  \/ exists keys, on_event ecodes st ev = _check_combos (set_pressed st keys).
Proof.
  unfold on_event. destruct (negb (running st)); [left; reflexivity|].
  destruct (ev_type ev =? EV_KEY); [|left; reflexivity].
  destruct (find_button _ _) as [btn|]; [|left; reflexivity].
  right. destruct (ev_value ev =? 1); [eexists; reflexivity|].
  destruct (ev_value ev =? 0); [eexists; reflexivity|].
  exists (pressed_keys st). destruct st; reflexivity.
Qed.

(** Once a combo has fired, the pressed set is empty: checking again fires
    nothing, as long as the combos themselves are not empty. *)
Lemma check_combos_no_refire st :
  request_combo st ≠ ∅ -> view_combo st ≠ ∅ ->
  _check_combos (_check_combos st) = _check_combos st.
Proof.
  intros Hr Hv.
  destruct (decide (request_combo st ⊆ pressed_keys st)) as [Hreq|Hreq];
    [|destruct (decide (view_combo st ⊆ pressed_keys st)) as [Hview|Hview]].
  - replace (_check_combos st)
      with (State (running st) (request_combo st) (view_combo st) ∅
              (effects st ++ [ClearPressed; StartThread OnRequest]))
      by (unfold _check_combos; rewrite bool_decide_eq_true_2 by exact Hreq;
          reflexivity).
    apply check_combos_idle; cbn; set_solver.
  - replace (_check_combos st)
      with (State (running st) (request_combo st) (view_combo st) ∅
              (effects st ++ [ClearPressed; StartThread OnView]))
      by (unfold _check_combos; rewrite bool_decide_eq_false_2 by exact Hreq;
          rewrite bool_decide_eq_true_2 by exact Hview; reflexivity).
    apply check_combos_idle; cbn; set_solver.
  - rewrite !(check_combos_idle st) by assumption. reflexivity.
Qed.

(** C5.  Whenever a configured combo is contained in the pressed set,
    [_check_combos] empties the pressed set and then starts exactly one
    thread, as its last two effects in that order; the thread runs the request
    callback whenever the request combo is held (also when the view combo is
    held too) and the view callback otherwise.  Every change of the pressed
    set by the event loop goes through this check. *)
Theorem check_combos_clears_then_dispatches_once st :
  request_combo st ⊆ pressed_keys st \/ view_combo st ⊆ pressed_keys st ->
  (exists cb,
     _check_combos st
     = State (running st) (request_combo st) (view_combo st) ∅
         (effects st ++ [ClearPressed; StartThread cb])
     /\ (request_combo st ⊆ pressed_keys st -> cb = OnRequest)
     /\ (¬ request_combo st ⊆ pressed_keys st -> cb = OnView))
  /\ (forall ecodes ev,
        on_event ecodes st ev = st
        \/ exists keys,
             on_event ecodes st ev = _check_combos (set_pressed st keys)).
Proof.
  intros Hheld. split; [|intros; apply on_event_checks_after_mutation].
  unfold _check_combos.
  destruct (decide (request_combo st ⊆ pressed_keys st)) as [Hr|Hr].
  - exists OnRequest. rewrite bool_decide_eq_true_2 by exact Hr.
    split; [reflexivity|]. split; [reflexivity|]. intros Hn; contradiction.
  - destruct Hheld as [Hr'|Hv]; [contradiction|].
    exists OnView. rewrite bool_decide_eq_false_2 by exact Hr.
    rewrite bool_decide_eq_true_2 by exact Hv.
    split; [reflexivity|]. split; [intros Hr'; contradiction|reflexivity].
Qed.

(** C5 on data: with Select, L1 and R1 all held, both default combos are
    satisfied; the request callback is the one started, after the clear. *)
Lemma check_combos_clears_then_dispatches_once_witness :
  _check_combos
    (State true default_request default_view
       {["BTN_SELECT"; "BTN_TL"; "BTN_TR"]} [])
  = State true default_request default_view ∅
      [ClearPressed; StartThread OnRequest].
Proof.
  set (st := State true default_request default_view
               {["BTN_SELECT"; "BTN_TL"; "BTN_TR"]} []).
  assert (Hr : request_combo st ⊆ pressed_keys st)
    by (apply (bool_decide_eq_true_1 (request_combo st ⊆ pressed_keys st));
        vm_compute; reflexivity).
  destruct (check_combos_clears_then_dispatches_once st (or_introl Hr))
    as [(cb & Heq & Hcb & _) _].
  rewrite Heq, (Hcb Hr). reflexivity.
Defined.

End HotkeyListenerFacts.

(** ** The 16-bpp encoder *)

Section Rgb565Facts.
Import Rgb565.

(** Or-ing a value below [2^n] into a word shifted left by [n] adds it. *)
Lemma lor_shiftl_low (hi lo n : Z) :
  0 <= n -> 0 <= lo < 2 ^ n ->
  Z.lor (Z.shiftl hi n) lo = hi * 2 ^ n + lo.
Proof.
  intros Hn Hlo.
  assert (Hdisj : Z.land (Z.shiftl hi n) lo = 0).
  { apply Z.bits_inj'. intros m Hm. rewrite Z.land_spec, Z.bits_0.
    destruct (Z.lt_ge_cases m n) as [Hlt|Hge].
    - rewrite Z.shiftl_spec_low by exact Hlt. reflexivity.
    - rewrite <- (Z.mod_small lo (2 ^ n)) by exact Hlo.
      rewrite Z.mod_pow2_bits_high by lia. apply andb_false_r. }
  rewrite <- Z.lxor_lor, <- Z.add_nocarry_lxor by exact Hdisj.
  rewrite Z.shiftl_mul_pow2 by exact Hn. reflexivity.
Qed.

(** The word of a pixel with 8-bit channels as a sum of its three fields. *)
Lemma rgb565_fields (r g b : Z) :
  channel r -> channel g -> channel b ->
  rgb565 (r, g, b) = (r / 8) * 2048 + (g / 4) * 32 + b / 8.
Proof.
  unfold channel, rgb565. intros Hr Hg Hb.
  rewrite !Z.shiftr_div_pow2 by lia.
  change (2 ^ 3) with 8. change (2 ^ 2) with 4.
  assert (0 <= r / 8 < 32) by (split; [apply Z.div_pos|apply Z.div_lt_upper_bound]; lia).
  assert (0 <= g / 4 < 64) by (split; [apply Z.div_pos|apply Z.div_lt_upper_bound]; lia).
  assert (0 <= b / 8 < 32) by (split; [apply Z.div_pos|apply Z.div_lt_upper_bound]; lia).
  rewrite (Z.shiftl_mul_pow2 (g / 4) 5) by lia.
  rewrite lor_shiftl_low by (change (2 ^ 11) with 2048; change (2 ^ 5) with 32; lia).
  change (2 ^ 11) with 2048. change (2 ^ 5) with 32.
  replace (r / 8 * 2048 + g / 4 * 32) with (Z.shiftl (r / 8 * 64 + g / 4) 5)
    by (rewrite Z.shiftl_mul_pow2 by lia; change (2 ^ 5) with 32; lia).
  rewrite lor_shiftl_low by (change (2 ^ 5) with 32; lia).
  rewrite Z.shiftl_mul_pow2 by lia. reflexivity.
Qed.

Lemma rgb565_range (p : pixel) :
  rgb8 p -> 0 <= rgb565 p <= 65535.
Proof.
  destruct p as [[r g] b]. unfold rgb8. cbn [fst snd]. intros (Hr & Hg & Hb).
  rewrite rgb565_fields by assumption. unfold channel in *.
  assert (0 <= r / 8 < 32) by (split; [apply Z.div_pos|apply Z.div_lt_upper_bound]; lia).
  assert (0 <= g / 4 < 64) by (split; [apply Z.div_pos|apply Z.div_lt_upper_bound]; lia).
  assert (0 <= b / 8 < 32) by (split; [apply Z.div_pos|apply Z.div_lt_upper_bound]; lia).
  lia.
Qed.

(** [struct.pack('<H', v)] on a 16-bit value: low byte, then high byte. *)
Lemma pack_H_word (v : Z) :
  0 <= v <= 65535 -> pack_H v = Some [Z.land v 255; Z.shiftr v 8].
Proof.
  intros Hv. unfold pack_H.
  destruct (Z.leb_spec 0 v); [|lia]. destruct (Z.leb_spec v 65535); [|lia].
  cbn [andb]. change 255 with (Z.ones 8).
  rewrite Z.land_ones, Z.shiftr_div_pow2 by lia. reflexivity.
Qed.

(** The three fields can be read back from the word: red in bits 11-15,
    green in bits 5-10, blue in bits 0-4. *)
Lemma rgb565_decode (r g b : Z) :
  channel r -> channel g -> channel b ->
  let w := rgb565 (r, g, b) in
  Z.shiftr w 11 = Z.shiftr r 3
  /\ Z.land (Z.shiftr w 5) 63 = Z.shiftr g 2
  /\ Z.land w 31 = Z.shiftr b 3.
Proof.
  intros Hr Hg Hb w. subst w. rewrite rgb565_fields by assumption.
  unfold channel in *.
  rewrite !Z.shiftr_div_pow2 by lia.
  change (2 ^ 11) with 2048. change (2 ^ 5) with 32.
  change (2 ^ 3) with 8. change (2 ^ 2) with 4.
  change 63 with (Z.ones 6). change 31 with (Z.ones 5).
  rewrite !Z.land_ones by lia. change (2 ^ 6) with 64. change (2 ^ 5) with 32.
  assert (0 <= r / 8 < 32) by (split; [apply Z.div_pos|apply Z.div_lt_upper_bound]; lia).
  assert (0 <= g / 4 < 64) by (split; [apply Z.div_pos|apply Z.div_lt_upper_bound]; lia).
  assert (0 <= b / 8 < 32) by (split; [apply Z.div_pos|apply Z.div_lt_upper_bound]; lia).
  set (r5 := r / 8) in *. set (g6 := g / 4) in *. set (b5 := b / 8) in *.
  assert (Hhi : (r5 * 2048 + g6 * 32 + b5) / 2048 = r5)
    by (symmetry; apply (Z.div_unique _ _ _ (g6 * 32 + b5)); lia).
  assert (Hmid : (r5 * 2048 + g6 * 32 + b5) / 32 = r5 * 64 + g6)
    by (symmetry; apply (Z.div_unique _ _ _ b5); lia).
  split; [exact Hhi|]. split.
  - rewrite Hmid. symmetry. apply (Z.mod_unique _ _ r5); lia.
  - symmetry. apply (Z.mod_unique _ _ (r5 * 64 + g6)); lia.
Qed.

(** C8.  On an image whose channels are 8-bit, [_convert_to_rgb565] never
    raises and returns, pixel after pixel in image order, the two bytes of the
    word [((r >> 3) << 11) | ((g >> 2) << 5) | (b >> 3)], low byte first.  The
    word fits 16 bits and holds the top 5 bits of red, the top 6 of green and
    the top 5 of blue in its three fields. *)
Theorem convert_to_rgb565_encodes (pixels : list pixel) :
  Forall rgb8 pixels ->
  _convert_to_rgb565 pixels
  = Some (flat_map
      (fun '(r, g, b) =>
         let w := Z.lor (Z.lor (Z.shiftl (Z.shiftr r 3) 11)
                               (Z.shiftl (Z.shiftr g 2) 5))
                        (Z.shiftr b 3) in
         [Z.land w 255; Z.shiftr w 8])
      pixels)
  /\ Forall
       (fun '(r, g, b) =>
          let w := rgb565 (r, g, b) in
          0 <= w <= 65535
          /\ Z.shiftr w 11 = Z.shiftr r 3
          /\ Z.land (Z.shiftr w 5) 63 = Z.shiftr g 2
          /\ Z.land w 31 = Z.shiftr b 3)
       pixels.
Proof.
  intros Hpx. split.
  - unfold _convert_to_rgb565.
    induction Hpx as [|[[r g] b] ps Hp Hps IH]; [reflexivity|].
    cbn [mapM flat_map]. rewrite (pack_H_word _ (rgb565_range _ Hp)).
    cbn [mbind option_bind].
    destruct (mapM _ ps) as [chunks|]; [|discriminate].
    cbn in IH |- *. injection IH as IH. rewrite IH. reflexivity.
  - induction Hpx as [|[[r g] b] ps Hp Hps IH]; constructor; [|exact IH].
    split; [apply rgb565_range, Hp|].
    destruct Hp as (Hr & Hg & Hb). apply rgb565_decode; assumption.
Qed.

(** C8 on the image of the spec: a red and a green pixel, 2 x 1, give
    [F800] and [07E0], each low byte first. *)
Lemma convert_to_rgb565_encodes_witness :
  Forall rgb8 [(255, 0, 0); (0, 255, 0)]
  /\ _convert_to_rgb565 [(255, 0, 0); (0, 255, 0)] = Some [0; 248; 224; 7].
Proof.
  assert (Hpx : Forall rgb8 [(255, 0, 0); (0, 255, 0)])
    by (repeat constructor; cbn; lia).
  split; [exact Hpx|].
  destruct (convert_to_rgb565_encodes _ Hpx) as [Henc _].
  rewrite Henc. reflexivity.
Defined.

(** A channel outside 8 bits can overflow the 16-bit word: [struct.pack]
    then raises. *)
Lemma convert_to_rgb565_overflow :
  _convert_to_rgb565 [(256, 0, 0)] = None.
Proof. reflexivity. Qed.

End Rgb565Facts.

(** ** The monad of method bodies: rules for [sat] *)

Section PyRules.
Import Py.
Context {L R : Type}.
Implicit Types (Rt : R -> Prop) (X : exn -> Prop) (Ev : event -> Prop).

Lemma sat_ret {A} (a : A) (N : A -> Prop) Rt X Ev :
  N a -> sat (L:=L) (ret a) N Rt X Ev.
Proof. intros Ha past l. split; [constructor|exact Ha]. Qed.

Lemma sat_return {A} (r : R) (N : A -> Prop) Rt X Ev :
  Rt r -> sat (L:=L) (return_ r) N Rt X Ev.
Proof. intros Hr past l. split; [constructor|exact Hr]. Qed.

Lemma sat_raise {A} (e : exn) (N : A -> Prop) Rt X Ev :
  X e -> sat (L:=L) (raise e) N Rt X Ev.
Proof. intros He past l. split; [constructor|exact He]. Qed.

Lemma sat_emit (ev : event) (N : unit -> Prop) Rt X Ev :
  Ev ev -> N tt -> sat (L:=L) (emit ev) N Rt X Ev.
Proof.
  intros Hev Hn past l. split; [|exact Hn].
  constructor; [exact Hev|constructor].
Qed.

Lemma sat_ask {Y} (f : list event -> Y) (N : Y -> Prop) Rt X Ev :
  (forall y, N y) -> sat (L:=L) (ask f) N Rt X Ev.
Proof. intros Hn past l. split; [constructor|apply Hn]. Qed.

Lemma sat_get (N : L -> Prop) Rt X Ev :
  (forall l, N l) -> sat get N Rt X Ev.
Proof. intros Hn past l. split; [constructor|apply Hn]. Qed.

Lemma sat_put (l' : L) (N : unit -> Prop) Rt X Ev :
  N tt -> sat (put l') N Rt X Ev.
Proof. intros Hn past l. split; [constructor|exact Hn]. Qed.

Lemma sat_bind {A B} (m : M L R A) (k : A -> M L R B)
    (N1 : A -> Prop) (N : B -> Prop) Rt X Ev :
  sat m N1 Rt X Ev ->
  (forall a, N1 a -> sat (k a) N Rt X Ev) ->
  sat (bind m k) N Rt X Ev.
Proof.
  intros Hm Hk past l. specialize (Hm past l).
  unfold bind, events, result in *.
  destruct (m past l) as [[[a|r|e] l1] ev1]; cbn in *;
    destruct Hm as [Hev Hres]; try (split; assumption).
  specialize (Hk a Hres (past ++ ev1) l1). unfold events, result in Hk.
  destruct (k a (past ++ ev1) l1) as [[o l2] ev2]; cbn in *.
  destruct Hk as [Hev2 Hres2].
  split; [apply Forall_app; split; assumption|exact Hres2].
Qed.

Lemma sat_try_except {A} (body : M L R A) (handler : exn -> M L R A)
    (N : A -> Prop) Rt (X1 : exn -> Prop) X Ev :
  sat body N Rt X1 Ev ->
  (forall e, X1 e -> sat (handler e) N Rt X Ev) ->
  sat (try_except body handler) N Rt X Ev.
Proof.
  intros Hb Hh past l. specialize (Hb past l).
  unfold try_except, events, result in *.
  destruct (body past l) as [[[a|r|e] l1] ev1]; cbn in *;
    destruct Hb as [Hev Hres]; try (split; assumption).
  specialize (Hh e Hres (past ++ ev1) l1). unfold events, result in Hh.
  destruct (handler e (past ++ ev1) l1) as [[o l2] ev2]; cbn in *.
  destruct Hh as [Hev2 Hres2].
  split; [apply Forall_app; split; assumption|exact Hres2].
Qed.

Lemma sat_when (c : bool) (body : M L R unit) (N : unit -> Prop) Rt X Ev :
  N tt -> sat body N Rt X Ev -> sat (when c body) N Rt X Ev.
Proof.
  intros Hn Hb. destruct c; [exact Hb|apply sat_ret, Hn].
Qed.

Lemma sat_foreach {Y} (xs : list Y) (body : Y -> M L R unit)
    (N : unit -> Prop) Rt X Ev :
  N tt ->
  (forall x, sat (body x) N Rt X Ev) ->
  sat (foreach xs body) N Rt X Ev.
Proof.
  intros Hn Hb. induction xs as [|x xs IH]; cbn [foreach].
  - apply sat_ret, Hn.
  - eapply sat_bind; [apply Hb|]. intros _ _. exact IH.
Qed.

Lemma sat_call {L' R'} (body : M L' R' R') (fr : L')
    (P : R' -> Prop) Rt X Ev :
  sat body P P X Ev -> sat (L:=L) (R:=R) (call body fr) P Rt X Ev.
Proof.
  intros Hb past l. specialize (Hb past fr).
  unfold call, events, result in *.
  destruct (body past fr) as [[[a|r|e] l1] ev1]; cbn in *; exact Hb.
Qed.

Lemma sat_weaken {A} (m : M L R A)
    (N N' : A -> Prop) Rt Rt' X X' Ev Ev' :
  sat m N Rt X Ev ->
  (forall a, N a -> N' a) -> (forall r, Rt r -> Rt' r) ->
  (forall e, X e -> X' e) -> (forall ev, Ev ev -> Ev' ev) ->
  sat m N' Rt' X' Ev'.
Proof.
  intros Hm HN HR HX HE past l. destruct (Hm past l) as [Hev Hres].
  split; [eapply Forall_impl; eauto|].
  destruct (result (m past l)); auto.
Qed.

End PyRules.

(** Syntax-directed use of the rules: the intermediate conditions are left
    trivial, which is all the properties below need. *)
Ltac sat_leaf :=
  first [ exact I | reflexivity | assumption | discriminate
        | cbn; first [ exact I | reflexivity | discriminate
                     | left; reflexivity
                     | right; eexists; reflexivity
                     | eexists; reflexivity ] ].

Create HintDb pysat.

Ltac sat_go :=
  repeat lazymatch goal with
  | |- Py.sat (Py.bind (Py.call _ _) _) _ _ _ _ =>
      first
        [ eapply sat_bind with (N1 := eq true);
          [ apply sat_call; eapply sat_weaken;
            [ solve [eauto with pysat] | auto.. ]
          | intros ? <- ]
        | eapply sat_bind with (N1 := fun _ => True);
          [ apply sat_call | intros ? _ ] ]
  | |- Py.sat (Py.bind _ _) _ _ _ _ =>
      eapply sat_bind with (N1 := fun _ => True); [|intros ? _]
  | |- Py.sat (Py.ret _) _ _ _ _ => apply sat_ret; sat_leaf
  | |- Py.sat (Py.return_ _) _ _ _ _ => apply sat_return; sat_leaf
  | |- Py.sat (Py.raise _) _ _ _ _ => apply sat_raise; sat_leaf
  | |- Py.sat (Py.emit _) _ _ _ _ => apply sat_emit; sat_leaf
  | |- Py.sat (Py.ask _) _ _ _ _ => apply sat_ask; intros; sat_leaf
  | |- Py.sat Py.get _ _ _ _ => apply sat_get; intros; sat_leaf
  | |- Py.sat (Py.put _) _ _ _ _ => apply sat_put; sat_leaf
  | |- Py.sat (Py.try_except _ _) _ _ _ _ =>
      eapply sat_try_except with (X1 := fun _ => True); [|intros ? _]
  | |- Py.sat (Py.when _ _) _ _ _ _ => apply sat_when; [sat_leaf|]
  | |- Py.sat (Py.foreach _ _) _ _ _ _ => apply sat_foreach; [sat_leaf|intros ?]
  | |- Py.sat (Py.call _ _) _ _ _ _ => apply sat_call
  | |- Py.sat (match ?x with _ => _ end) _ _ _ _ => destruct x
  end.

(** ** HintViewer *)

Section HintViewerFacts.
Import Py HintViewer.
Local Open Scope py_scope.

Variable w : World.

(** The paused-overlay technique only talks to RetroArch and sleeps, never
    raises and returns [True]. *)
Lemma show_retroarch_pause_overlay hint_path :
  sat (_show_retroarch_pause w hint_path)
      (eq true) (eq true) (fun _ => False) overlay_event.
Proof.
  unfold _show_retroarch_pause. sat_go.
Qed.

Lemma overlay_is_viewer_event e : overlay_event e -> viewer_event e.
Proof. destruct e; cbn; auto. Qed.

Lemma overlay_is_not_resume e : overlay_event e -> e <> pkill_cont.
Proof. destruct e; cbn; intros H; try contradiction; discriminate. Qed.

Lemma show_retroarch_pause_sat hint_path :
  sat (_show_retroarch_pause w hint_path)
      (eq true) (eq true) (fun _ => False) viewer_event.
Proof.
  eapply sat_weaken; [apply show_retroarch_pause_overlay|auto..].
  apply overlay_is_viewer_event.
Qed.

Lemma show_retroarch_pause_no_resume hint_path :
  sat (_show_retroarch_pause w hint_path)
      (eq true) (eq true) (fun _ => False) (fun e => e <> pkill_cont).
Proof.
  eapply sat_weaken; [apply show_retroarch_pause_overlay|auto..].
  apply overlay_is_not_resume.
Qed.

#[local] Hint Resolve show_retroarch_pause_sat : pysat.

(** So does the direct-framebuffer technique, on every path. *)
Lemma show_direct_fb_sat hint_path :
  sat (_show_direct_fb w hint_path)
      (eq true) (eq true) (fun _ => False) viewer_event.
Proof.
  unfold _show_direct_fb, fallback, read_current_vt,
    suspend_retroarch, switch_back, resume_retroarch, subprocess_run,
    _wait_for_button_press, set_current_vt, set_display_vt,
    set_retroarch_suspended.
  sat_go.
Qed.

#[local] Hint Resolve show_direct_fb_sat : pysat.

(** The fbv and mpv techniques return [True] whenever they return; their
    handlers may let an exception out. *)
Lemma show_fbv_sat hint_path :
  sat (_show_fbv w hint_path)
      (eq true) (eq true) (fun _ => True) viewer_event.
Proof.
  unfold _show_fbv, fallback, read_current_vt, suspend_retroarch,
    switch_back, resume_retroarch, subprocess_run, process_wait,
    _wait_for_button_press, set_current_vt, set_display_vt,
    set_retroarch_suspended.
  sat_go.
Qed.

Lemma show_mpv_sat hint_path :
  sat (_show_mpv w hint_path)
      (eq true) (eq true) (fun _ => True) viewer_event.
Proof.
  unfold _show_mpv, fallback, subprocess_run, process_wait,
    _wait_for_button_press.
  sat_go.
Qed.

Lemma show_with_viewer_sat argv prog :
  sat (show_with_viewer w argv prog)
      (fun _ => True) (fun _ => True) (fun _ => True) viewer_event.
Proof.
  unfold show_with_viewer, subprocess_run. sat_go.
Qed.

(** Every event a display technique adds is a viewer event. *)
Lemma show_events dm hint_path past :
  Forall viewer_event (events (show w dm hint_path past tt)).
Proof.
  assert (H : sat (show w dm hint_path)
                (fun _ => True) (fun _ => True) (fun _ => True) viewer_event).
  { unfold show. destruct dm;
      (eapply sat_bind with (N1 := fun _ => True);
       [apply sat_call|intros ? _; apply sat_return; exact I]).
    - eapply sat_weaken; [apply show_direct_fb_sat|auto..].
    - eapply sat_weaken; [apply show_mpv_sat|auto..].
    - eapply sat_weaken; [apply show_fbv_sat|auto..].
    - apply show_with_viewer_sat.
    - apply show_with_viewer_sat.
    - eapply sat_weaken; [apply show_retroarch_pause_sat|auto..]. }
  apply H.
Qed.

(** A viewer event is never a save-state or load-state command. *)
Lemma viewer_event_no_state_command (d : string) :
  viewer_event (Udp d) ->
  Text.startswith d "SAVE_STATE" = false
  /\ Text.startswith d "LOAD_STATE" = false.
Proof.
  cbn. intros [->|[text ->]]; split; reflexivity.
Qed.

(** [show] returns what the method it dispatches to returns. *)
Lemma value_of_call_return {L' : Type} (body : M L' bool bool) (fr : L')
    (past : list event) :
  value_of (result ((b <- call body fr;; return_ b) past tt))
  = value_of (result (body past fr)).
Proof.
  unfold bind, call, return_, result.
  destruct (body past fr) as [[[a|r|e] l1] ev1]; reflexivity.
Qed.


Lemma sat_total {L' : Type} (m : M L' bool bool) Ev past l :
  sat m (eq true) (eq true) (fun _ => False) Ev ->
  value_of (result (m past l)) = Some true.
Proof.
  intros Hm. destruct (Hm past l) as [_ Hres].
  destruct (result (m past l)); cbn; [congruence|congruence|contradiction].
Qed.


(** Where the framebuffer never reports a depth of 16, 24 or 32 bits,
    [_show_direct_fb] returns through the fallback without ever sending the
    resume signal, on every path: also after it has stopped RetroArch. *)
Lemma show_direct_fb_unsupported_depth_never_resumes hint_path :
  (forall past wd ht bpp,
     fb_properties w past = Some (wd, ht, bpp) -> supported_depth bpp = false) ->
  sat (_show_direct_fb w hint_path)
      (eq true) (eq true) (fun _ => False) (fun e => e <> pkill_cont).
Proof.
  intros Hdepth.
  assert (Hfallback : forall A (N : A -> Prop) X,
            sat (L:=vt_locals) (fallback w hint_path) N (eq true) X
              (fun e => e <> pkill_cont)).
  { intros A N X. unfold fallback.
    eapply sat_bind with (N1 := eq true);
      [apply sat_call; eapply sat_weaken;
       [apply show_retroarch_pause_no_resume|auto; contradiction..]
      |intros ? <-; apply sat_return; reflexivity]. }
  unfold _show_direct_fb.
  apply sat_try_except with (X1 := fun _ => False); [|intros e []].
  (* 1. the properties that were read carry an unsupported depth *)
  eapply sat_bind with
    (N1 := fun props : Z * Z * Z => supported_depth (snd props) = false).
  { apply sat_try_except with (X1 := fun _ => True);
      [|intros; apply Hfallback].
    intros past l. unfold bind, ask, result, events. cbn.
    destruct (fb_properties w past) as [[[wd ht] bpp]|] eqn:Hp; cbn.
    - split; [constructor|]. apply (Hdepth _ _ _ _ Hp).
    - split; [constructor|exact I]. }
  intros [[fb_width fb_height] fb_bpp] Hbpp. cbn in Hbpp.
  unfold supported_depth in Hbpp.
  apply orb_false_elim in Hbpp as [Hbpp H16].
  apply orb_false_elim in Hbpp as [H32 H24].
  (* 2-4. stopping RetroArch and switching the terminal *)
  eapply sat_bind with (N1 := fun _ => True).
  { unfold read_current_vt, subprocess_run, set_current_vt. sat_go. }
  intros _ _.
  eapply sat_bind with (N1 := fun _ => True).
  { unfold suspend_retroarch, subprocess_run, set_retroarch_suspended. sat_go. }
  intros _ _.
  eapply sat_bind with (N1 := fun _ => True).
  { unfold subprocess_run, set_display_vt. sat_go. }
  intros _ _.
  (* 5. the image step never hands over pixel data *)
  eapply sat_bind with (N1 := fun _ => False); [|intros ? []].
  apply sat_try_except with (X1 := fun _ => True); [|intros; apply Hfallback].
  eapply sat_bind with (N1 := fun _ => True); [apply sat_ask; auto|].
  intros [canvas|] _; [|apply sat_raise; exact I].
  rewrite H32, H24, H16. apply Hfallback.
Qed.

(** The same leak when the framebuffer cannot be written (for instance
    [PermissionError] without root): the write step always hands over to the
    fallback, and the resume signal is never sent. *)
Lemma show_direct_fb_write_failure_never_resumes hint_path :
  (forall past, fb_write_result w past <> None) ->
  sat (_show_direct_fb w hint_path)
      (eq true) (eq true) (fun _ => False) (fun e => e <> pkill_cont).
Proof.
  intros Hwrite.
  assert (Hfallback : forall A (N : A -> Prop) X,
            sat (L:=vt_locals) (fallback w hint_path) N (eq true) X
              (fun e => e <> pkill_cont)).
  { intros A N X. unfold fallback.
    eapply sat_bind with (N1 := eq true);
      [apply sat_call; eapply sat_weaken;
       [apply show_retroarch_pause_no_resume|auto; contradiction..]
      |intros ? <-; apply sat_return; reflexivity]. }
  unfold _show_direct_fb.
  apply sat_try_except with (X1 := fun _ => False); [|intros e []].
  (* 1. framebuffer properties *)
  eapply sat_bind with (N1 := fun _ => True).
  { apply sat_try_except with (X1 := fun _ => True);
      [|intros; apply Hfallback].
    sat_go. }
  intros [[fb_width fb_height] fb_bpp] _.
  (* 2-4. stopping RetroArch and switching the terminal *)
  eapply sat_bind with (N1 := fun _ => True).
  { unfold read_current_vt, subprocess_run, set_current_vt. sat_go. }
  intros _ _.
  eapply sat_bind with (N1 := fun _ => True).
  { unfold suspend_retroarch, subprocess_run, set_retroarch_suspended. sat_go. }
  intros _ _.
  eapply sat_bind with (N1 := fun _ => True).
  { unfold subprocess_run, set_display_vt. sat_go. }
  intros _ _.
  (* 5. the image is prepared, or the fallback is taken *)
  eapply sat_bind with (N1 := fun _ => True).
  { apply sat_try_except with (X1 := fun _ => True);
      [|intros; apply Hfallback].
    eapply sat_bind with (N1 := fun _ => True); [apply sat_ask; auto|].
    intros [canvas|] _; [|apply sat_raise; exact I].
    destruct (fb_bpp =? 32); [apply sat_ret; exact I|].
    destruct (fb_bpp =? 24); [apply sat_ret; exact I|].
    destruct (fb_bpp =? 16); [|apply Hfallback].
    destruct (Rgb565._convert_to_rgb565 canvas);
      [apply sat_ret|apply sat_raise]; exact I. }
  intros raw_data _.
  (* 6. the write raises, and its handler returns through the fallback *)
  eapply sat_bind with (N1 := fun _ => False); [|intros ? []].
  apply sat_try_except with (X1 := fun _ => True).
  - eapply sat_bind with (N1 := fun r => r <> None).
    { intros past l. split; [constructor|apply Hwrite]. }
    intros r Hr.
    eapply sat_bind with (N1 := fun _ => True);
      [apply sat_emit; [discriminate|exact I]|].
    intros _ _. destruct r as [e|]; [apply sat_raise; exact I|contradiction].
  - intros e _. destruct e; apply Hfallback.
Qed.


End HintViewerFacts.

Section HintViewerScenarios.
Import Py HintViewer Scenario.



(** C1 fails on the code.  With RetroArch stopped and the terminal switched
    from VT 2 to VT 1, a framebuffer of unsupported depth (8 bpp) makes
    [_show_direct_fb] return through the fallback: no [pkill -CONT] is sent
    and the terminal is not switched back.  The same happens when the
    framebuffer write is refused.  Only the path through the button wait
    resumes RetroArch and restores VT 2. *)
Theorem show_direct_fb_fallback_leaves_suspended :
  let stop := Subprocess ["pkill"; "-STOP"; "retroarch"] in
  let cont := Subprocess ["pkill"; "-CONT"; "retroarch"] in
  let back := Subprocess ["chvt"; "2"] in
  let depth8 :=
    _show_direct_fb (console 8 None pressed_after_2s) hint_png [] vt_init in
  let denied :=
    _show_direct_fb (console 16 (Some PermissionError) pressed_after_2s)
      hint_png [] vt_init in
  let shown :=
    _show_direct_fb (console 16 None pressed_after_2s) hint_png [] vt_init in
  events depth8
  = [Subprocess ["fgconsole"]; stop; Sleep 300;
     Subprocess ["chvt"; "1"]; Sleep 500;
     Udp "PAUSE_TOGGLE"; Udp "SHOW_MSG Try the left door."; Sleep 4000;
     Udp "SHOW_MSG Press Start to unpause and continue"; Sleep 2000]
  /\ result depth8 = Returned true
  /\ frame depth8 = VtLocals (Some "2") (Some "1") true
  /\ In stop (events depth8) /\ ~ In cont (events depth8)
  /\ ~ In back (events depth8)
  /\ In stop (events denied) /\ ~ In cont (events denied)
  /\ ~ In back (events denied)
  /\ In stop (events shown) /\ In cont (events shown) /\ In back (events shown).
Proof.
  cbv zeta. vm_compute.
  repeat split; try reflexivity; intuition discriminate.
Qed.

End HintViewerScenarios.

(** ** AIClient *)

Section AIClientFacts.
Import Py AIClient.
Local Open Scope py_scope.

Variable cfg : Config.t.
Variable w : World.

(** Every string built with one of the two prefixes is an error response
    for the background task. *)
Lemma is_error_Error (msg : string) : is_error ("Error: " +:+ msg) = true.
Proof. reflexivity. Qed.

Lemma is_error_API_Error (msg : string) : is_error ("API Error: " +:+ msg) = true.
Proof. reflexivity. Qed.

Lemma is_error_no_api_key : is_error no_api_key = true.
Proof. reflexivity. Qed.

(** What the shared handler of the two provider calls does. *)
Lemma api_error_handler_result (e : exn) past :
  match e with
  | HTTPError code true =>
      result (api_error_handler e past tt)
      = Returned ("API Error: " +:+ Text.str_int code)
  | HTTPError code false =>
      result (api_error_handler e past tt)
      = Raised (OtherError "UnicodeDecodeError")
  | _ =>
      result (api_error_handler e past tt) = Returned ("Error: " +:+ str_exn e)
  end.
Proof.
  destruct e as [| | |code [|]|msg]; reflexivity.
Qed.

(** A provider call returns the text of the reply, or a prefixed error
    string; it raises only out of the HTTP-error handler. *)
Lemma call_anthropic_result image prompt past :
  let r := result (_call_anthropic w image prompt past tt) in
  match urlopen w past anthropic_url with
  | HttpResponse rep =>
      r = Returned (match reply_content rep with
                    | Some (block :: _) => default no_hint block
                    | _ => no_hint
                    end)
  | HttpFails (HTTPError code true) =>
      r = Returned ("API Error: " +:+ Text.str_int code)
  | HttpFails (HTTPError code false) =>
      r = Raised (OtherError "UnicodeDecodeError")
  | HttpFails e => r = Returned ("Error: " +:+ str_exn e)
  end.
Proof.
  unfold _call_anthropic, post, try_except, bind, ask, emit, ret, raise,
    return_, result. cbn.
  destruct (urlopen w past anthropic_url) as [rep|e]; cbn.
  - destruct (reply_content rep) as [[|block blocks]|]; reflexivity.
  - destruct e as [| | |code [|]|msg]; reflexivity.
Qed.

Lemma call_openai_result image prompt past :
  let r := result (_call_openai w image prompt past tt) in
  match urlopen w past openai_url with
  | HttpResponse rep =>
      match reply_choices rep with
      | Some (ChoiceContent text :: _) => r = Returned text
      | Some (ChoiceMissing key :: _) => r = Returned ("Error: " +:+ key)
      | _ => r = Returned no_hint
      end
  | HttpFails (HTTPError code true) =>
      r = Returned ("API Error: " +:+ Text.str_int code)
  | HttpFails (HTTPError code false) =>
      r = Raised (OtherError "UnicodeDecodeError")
  | HttpFails e => r = Returned ("Error: " +:+ str_exn e)
  end.
Proof.
  unfold _call_openai, post, try_except, bind, ask, emit, ret, raise,
    return_, result. cbn.
  destruct (urlopen w past openai_url) as [rep|e]; cbn.
  - destruct (reply_choices rep) as [[|[text|key] choices]|]; reflexivity.
  - destruct e as [| | |code [|]|msg]; reflexivity.
Qed.

(** [get_hint], path by path. *)
Lemma get_hint_result shot sys game past :
  result (get_hint cfg w shot sys game past tt)
  = if negb (Text.nonempty (Config.api_key cfg)) then Returned no_api_key
    else
      match read_screenshot w past shot with
      | inr e => Raised e
      | inl data =>
          let prompt := Config.format_prompt cfg sys game in
          if String.eqb (Config.api_provider cfg) "anthropic" then
            match result (_call_anthropic w data prompt past tt) with
            | Normal r | Returned r => Returned r
            | Raised e => Raised e
            end
          else if String.eqb (Config.api_provider cfg) "openai" then
            match result (_call_openai w data prompt past tt) with
            | Normal r | Returned r => Returned r
            | Raised e => Raised e
            end
          else Returned ("Error: Unknown API provider: " +:+ Config.api_provider cfg)
      end.
Proof.
  unfold get_hint. destruct (negb _); [reflexivity|].
  unfold bind at 1. unfold ask at 1.
  destruct (read_screenshot w past shot) as [data|e]; [|reflexivity].
  unfold bind at 1. unfold ret at 1. rewrite !app_nil_r.
  cbv zeta.
  destruct (String.eqb (Config.api_provider cfg) "anthropic").
  { unfold bind, call, return_, result.
    destruct (_call_anthropic w data _ past tt) as [[[r|r|e] l] ev]; reflexivity. }
  destruct (String.eqb (Config.api_provider cfg) "openai").
  { unfold bind, call, return_, result.
    destruct (_call_openai w data _ past tt) as [[[r|r|e] l] ev]; reflexivity. }
  reflexivity.
Qed.

(** The only events of [get_hint] are HTTP requests. *)
Lemma get_hint_events shot sys game :
  sat (get_hint cfg w shot sys game)
      (fun _ => True) (fun _ => True) (fun _ => True)
      (fun e => exists url, e = HttpPost url).
Proof.
  unfold get_hint, _call_anthropic, _call_openai, post, api_error_handler.
  destruct (negb _); [apply sat_return; exact I|].
  sat_go.
Qed.

Lemma nonempty_false (s : string) : Text.nonempty s = false <-> s = "".
Proof. destruct s; cbn; split; congruence. Qed.

End AIClientFacts.

(** ** HintSystem *)

Section HintSystemFacts.
Import Py HintSystem.
Local Open Scope py_scope.

Variable cfg : Config.t.
Variable dm : HintViewer.display_method.
Variable w : World.

(** C7.  While [processing] is set, [on_request_hint] shows the "already
    generating" notice and returns at once: that datagram is its only event
    and [self] is left as it was, so the rate limiter (date, count, history
    and the file on disk) is untouched and neither the clock nor the disk is
    consulted. *)
Theorem on_request_hint_rejects_while_processing past hs :
  processing hs = true ->
  on_request_hint cfg w past hs
  = (Returned tt, hs, [Udp "SHOW_MSG Already generating hint..."])
  /\ rate_limiter (frame (on_request_hint cfg w past hs)) = rate_limiter hs
  /\ Forall (fun e => exists text, e = Udp ("SHOW_MSG " +:+ text))
       (events (on_request_hint cfg w past hs)).
Proof.
  intros Hbusy.
  assert (Hrun : on_request_hint cfg w past hs
                 = (Returned tt, hs, [Udp "SHOW_MSG Already generating hint..."])).
  { unfold on_request_hint, bind, get. cbn. rewrite Hbusy. reflexivity. }
  rewrite Hrun. split; [reflexivity|]. split; [reflexivity|].
  repeat constructor. eexists; reflexivity.
Qed.

(** The check of [processing] matters: without the flag the same call consults the
    rate limiter, which may roll the stored day over. *)
Lemma on_request_hint_consults_limiter past hs :
  processing hs = false ->
  RateLimiter.daily_limit (rate_limiter hs) > 0 ->
  RateLimiter.usage_data (rate_limiter (frame (on_request_hint cfg w past hs)))
  = RateLimiter.usage_data
      (RateLimiter._reset_if_new_day (today w past) (disk_ok w past 0%nat)
         (rate_limiter hs)).
Proof.
  intros Hidle Hlimit.
  unfold on_request_hint, can_make_request, set_rate_limiter, set_processing,
    set_hint_ready, show_message, bind, get, put, ask, emit, ret, return_,
    raise, frame.
  cbn. rewrite Hidle, !app_nil_r. cbn.
  rewrite can_make_request_positive by lia. cbn.
  repeat (match goal with
          | |- context [if ?c then _ else _] => destruct c; cbn
          | |- context [find_latest ?a ?b] =>
              destruct (find_latest a b) as [[?|]|?]; cbn
          | |- context [parse_game_info ?a ?b] =>
              destruct (parse_game_info a b); cbn
          | |- context [thread_start ?a ?b] =>
              destruct (thread_start a b); cbn
          | |- context [Config.format_limit_reached ?a ?b ?c] =>
              destruct (Config.format_limit_reached a b c); cbn
          end); reflexivity.
Qed.

(** [save_state] and [load_state] send the slot command, when a slot is
    configured, and then the plain command. *)
Lemma save_state_run (slot : option Z) past (hs : state) :
  save_state (R:=unit) slot past hs
  = (Normal tt, hs,
     match slot with
     | Some n => [Udp ("SAVE_STATE_SLOT " +:+ Text.str_int n)]
     | None => []
     end ++ [Udp "SAVE_STATE"]).
Proof. destruct slot; reflexivity. Qed.

Lemma load_state_run (slot : option Z) past (hs : state) :
  load_state (R:=unit) slot past hs
  = (Normal tt, hs,
     match slot with
     | Some n => [Udp ("LOAD_STATE_SLOT " +:+ Text.str_int n)]
     | None => []
     end ++ [Udp "LOAD_STATE"]).
Proof. destruct slot; reflexivity. Qed.

(** [on_view_hint] with a ready artifact, whatever [show] does. *)
Lemma on_view_hint_run past hs hint_path :
  hint_ready hs = true -> current_hint_path hs = Some hint_path ->
  let slot := Config.savestate_slot cfg in
  let saved :=
    match slot with
    | Some n => [Udp ("SAVE_STATE_SLOT " +:+ Text.str_int n)]
    | None => []
    end ++ [Udp "SAVE_STATE"] in
  let loaded :=
    match slot with
    | Some n => [Udp ("LOAD_STATE_SLOT " +:+ Text.str_int n)]
    | None => []
    end ++ [Udp "LOAD_STATE"] in
  let shown := HintViewer.show (console w) dm hint_path
                 (past ++ saved ++ [Sleep 2000]) tt in
  on_view_hint cfg dm w past hs
  = match result shown with
    | Raised e => (Raised e, hs, saved ++ [Sleep 2000] ++ events shown)
    | _ => (Normal tt, hs,
            saved ++ [Sleep 2000] ++ events shown ++ [Sleep 200] ++ loaded)
    end.
Proof.
  intros Hready Hpath slot saved loaded shown.
  unfold on_view_hint. unfold bind at 1. unfold get at 1.
  rewrite Hpath, Hready. cbn [negb].
  unfold bind at 1. rewrite save_state_run.
  unfold bind at 1. unfold emit at 1.
  unfold bind at 1. unfold call at 1.
  rewrite !app_nil_r. fold slot saved.
  replace ((past ++ saved) ++ [Sleep 2000])
    with (past ++ saved ++ [Sleep 2000])
    by (rewrite !app_assoc; reflexivity).
  fold shown. unfold result, events.
  destruct shown as [[[b|b|e] []] evs]; cbn [fst snd].
  - unfold bind, emit. rewrite load_state_run. fold slot loaded.
    cbn [app]. rewrite <- ?app_assoc. reflexivity.
  - unfold bind, emit. rewrite load_state_run. fold slot loaded.
    cbn [app]. rewrite <- ?app_assoc. reflexivity.
  - cbn [app]. rewrite <- ?app_assoc. reflexivity.
Qed.

(** [on_view_hint] when the display step returns.  Without a ready artifact
    [on_view_hint] only shows the "no hint ready" notice: nothing is saved,
    displayed or loaded.  With a ready artifact, and a display technique that
    returns, its events are, in this order: save-state to the configured
    slot, the 2-second wait for the save, the events of the display technique
    (none of which is a save-state or load-state command), a short pause, and
    load-state from the same slot; [self] is unchanged.  The direct-framebuffer
    and paused-overlay techniques always return, so for them the sequence is
    always completed. *)
Lemma on_view_hint_saves_presents_loads past hs :
  let slot := Config.savestate_slot cfg in
  let saved :=
    match slot with
    | Some n => [Udp ("SAVE_STATE_SLOT " +:+ Text.str_int n)]
    | None => []
    end ++ [Udp "SAVE_STATE"] in
  let loaded :=
    match slot with
    | Some n => [Udp ("LOAD_STATE_SLOT " +:+ Text.str_int n)]
    | None => []
    end ++ [Udp "LOAD_STATE"] in
  let run := on_view_hint cfg dm w past hs in
  (hint_ready hs = false \/ current_hint_path hs = None ->
     run = (Returned tt, hs,
            [Udp "SHOW_MSG No hint ready! Press Select+L1 first."]))
  /\ (forall hint_path,
        hint_ready hs = true -> current_hint_path hs = Some hint_path ->
        let shown := HintViewer.show (console w) dm hint_path
                       (past ++ saved ++ [Sleep 2000]) tt in
        (forall dismissed,
           value_of (result shown) = Some dismissed ->
           run = (Normal tt, hs,
                  saved ++ [Sleep 2000] ++ events shown
                  ++ [Sleep 200] ++ loaded))
        /\ (forall d, In (Udp d) (events shown) ->
              Text.startswith d "SAVE_STATE" = false
              /\ Text.startswith d "LOAD_STATE" = false)
        /\ (dm = HintViewer.direct_fb \/ dm = HintViewer.retroarch_pause ->
            exists dismissed, value_of (result shown) = Some dismissed)).
Proof.
  intros slot saved loaded run. split.
  - intros Hnot. subst run. unfold on_view_hint, bind, get. cbn.
    destruct (current_hint_path hs) as [hint_path|].
    + destruct Hnot as [Hnot|Hnot]; [|discriminate]. rewrite Hnot. reflexivity.
    + reflexivity.
  - intros hint_path Hready Hpath shown. split; [|split].
    + intros dismissed Hshown. subst run.
      rewrite (on_view_hint_run past hs hint_path Hready Hpath).
      fold slot saved loaded shown.
      destruct (result shown); [reflexivity|reflexivity|discriminate].
    + intros d Hin. apply viewer_event_no_state_command.
      pose proof (show_events (console w) dm hint_path
                    (past ++ saved ++ [Sleep 2000])) as Hev.
      rewrite Forall_forall in Hev. apply Hev, list_elem_of_In, Hin.
    + intros Hdm. exists true. subst shown. unfold HintViewer.show.
      destruct Hdm as [-> | ->]; rewrite value_of_call_return.
      * apply (sat_total _ _ _ _ (show_direct_fb_sat (console w) hint_path)).
      * apply (sat_total _ _ _ _ (show_retroarch_pause_sat (console w) hint_path)).
Qed.

(** [on_view_hint] when the display step raises: there is no handler around
    [self.viewer.show], so the exception ends the method after the save and
    the wait, and no load-state command is sent. *)
Lemma on_view_hint_show_raises past hs hint_path e :
  hint_ready hs = true -> current_hint_path hs = Some hint_path ->
  let slot := Config.savestate_slot cfg in
  let saved :=
    match slot with
    | Some n => [Udp ("SAVE_STATE_SLOT " +:+ Text.str_int n)]
    | None => []
    end ++ [Udp "SAVE_STATE"] in
  let shown := HintViewer.show (console w) dm hint_path
                 (past ++ saved ++ [Sleep 2000]) tt in
  let run := on_view_hint cfg dm w past hs in
  result shown = Raised e ->
  run = (Raised e, hs, saved ++ [Sleep 2000] ++ events shown)
  /\ forall d, In (Udp d) (events run) -> Text.startswith d "LOAD_STATE" = false.
Proof.
  intros Hready Hpath slot saved shown run Hraised.
  assert (Hrun : run = (Raised e, hs, saved ++ [Sleep 2000] ++ events shown)).
  { subst run. rewrite (on_view_hint_run past hs hint_path Hready Hpath).
    fold slot saved shown. rewrite Hraised. reflexivity. }
  split; [exact Hrun|].
  intros d Hin. rewrite Hrun in Hin. unfold events in Hin at 1. cbn [snd] in Hin.
  apply in_app_or in Hin as [Hin|Hin].
  { subst saved. destruct slot; cbn in Hin;
      decompose [or] Hin; try contradiction;
      match goal with H : Udp _ = Udp d |- _ => injection H as <- end;
      reflexivity. }
  apply in_app_or in Hin as [Hin|Hin].
  { destruct Hin as [Hin|[]]; discriminate. }
  apply viewer_event_no_state_command.
  pose proof (show_events (console w) dm hint_path
                (past ++ saved ++ [Sleep 2000])) as Hev.
  rewrite Forall_forall in Hev. apply Hev, list_elem_of_In, Hin.
Qed.

(** How the background task starts: it calls the hint source. *)
Lemma process_hint_request_calls_source shot sys game past hs :
  let hint := AIClient.get_hint cfg (hint_source w) shot sys game past tt in
  call (L:=state) (R:=unit)
    (AIClient.get_hint cfg (hint_source w) shot sys game) tt past hs
  = match result hint with
    | Normal text | Returned text => (Normal text, hs, events hint)
    | Raised e => (Raised e, hs, events hint)
    end.
Proof.
  intros hint. unfold call. fold hint. unfold result, events.
  destruct hint as [[[text|text|e] []] ev]; reflexivity.
Qed.


(** Any other text is taken for a hint: it is rendered, and no error is
    logged for the hint source. *)
Lemma process_hint_request_hint shot sys game past hs text :
  let hint := AIClient.get_hint cfg (hint_source w) shot sys game past tt in
  value_of (result hint) = Some text ->
  AIClient.is_error text = false ->
  exists rest,
    events (_process_hint_request cfg w shot sys game past hs)
    = events hint ++ Render text :: rest
    /\ ~ In (UsageLog "API_ERROR" false) rest.
Proof.
  intros hint Hval Herr.
  unfold _process_hint_request, try_except. unfold bind at 1.
  rewrite process_hint_request_calls_source. fold hint.
  assert (Hcall : match result hint with
                  | Normal t | Returned t => (Normal (R:=unit) t, hs, events hint)
                  | Raised e => (Raised e, hs, events hint)
                  end = (Normal text, hs, events hint)).
  { destruct (result hint); cbn in Hval; inversion Hval; reflexivity. }
  rewrite Hcall, Herr. clear Hcall.
  unfold record_request, get_usage_stats, set_rate_limiter,
    set_current_hint_path, set_hint_ready, set_processing, show_message.
  unfold bind, ask, emit, get, put, ret, raise, events.
  cbn -[RateLimiter.record_request RateLimiter.get_usage_stats].
  destruct (render_result w _) as [path|e];
    cbn -[RateLimiter.record_request RateLimiter.get_usage_stats].
  - destruct (archive_result w _) as [e|];
      cbn -[RateLimiter.record_request RateLimiter.get_usage_stats];
      (eexists; split; [rewrite <- ?app_assoc; reflexivity|]);
      cbn; intuition discriminate.
  - eexists; split; [rewrite <- ?app_assoc; reflexivity|].
    cbn; intuition discriminate.
Qed.




End HintSystemFacts.

Section HintSystemScenarios.
Import Py HintSystem Scenario.

(** C7 on data: a request arriving while another is in flight, with the
    daily limit already reached, changes nothing and only shows the notice. *)
Lemma on_request_hint_rejects_while_processing_witness :
  processing busy = true
  /\ on_request_hint (config "anthropic")
       (world (console 16 None pressed_after_2s)
              (source (inl "iVBORw0KGgo=") (text_reply "Go left.")))
       [] busy
     = (Returned tt, busy, [Udp "SHOW_MSG Already generating hint..."]).
Proof.
  split; [reflexivity|].
  apply (on_request_hint_rejects_while_processing
           (config "anthropic")
           (world (console 16 None pressed_after_2s)
                  (source (inl "iVBORw0KGgo=") (text_reply "Go left.")))
           [] busy).
  reflexivity.
Defined.

(** A ready hint shown by the direct-framebuffer technique and dismissed by
    a button press, between save-state and load-state of slot 9. *)
Lemma on_view_hint_saves_presents_loads_witness :
  on_view_hint (config "anthropic") HintViewer.direct_fb
    (world (console 16 None pressed_after_2s)
           (source (inl "iVBORw0KGgo=") (text_reply "Go left.")))
    [] ready
  = (Normal tt, ready,
     [Udp "SAVE_STATE_SLOT 9"; Udp "SAVE_STATE"; Sleep 2000;
      Subprocess ["fgconsole"];
      Subprocess ["pkill"; "-STOP"; "retroarch"]; Sleep 300;
      Subprocess ["chvt"; "1"]; Sleep 500;
      FbWrite [0; 248; 224; 7]; ButtonWait 300;
      Subprocess ["chvt"; "2"]; Sleep 300;
      Subprocess ["pkill"; "-CONT"; "retroarch"];
      Sleep 200; Udp "LOAD_STATE_SLOT 9"; Udp "LOAD_STATE"]).
Proof.
  destruct (on_view_hint_saves_presents_loads
              (config "anthropic") HintViewer.direct_fb
              (world (console 16 None pressed_after_2s)
                     (source (inl "iVBORw0KGgo=") (text_reply "Go left.")))
              [] ready) as [_ Hready].
  destruct (Hready hint_png eq_refl eq_refl) as [Hrun _].
  rewrite (Hrun true eq_refl). reflexivity.
Defined.

(** C6 fails on the code.  The spec brackets the presentation between
    save-state and load-state so that the player's session is not lost, and
    the code sends load-state right after [self.viewer.show] - but with no
    handler around it.  Every display technique ends in [except Exception],
    and the catch-all handlers of [_show_mpv] and [_show_fbv] guard their own
    cleanup with [try ... except: pass]; the [TimeoutExpired] handlers of
    [_show_fbi] and [_show_feh] call [killall] unguarded.  On a console that
    shows hints with fbi, where nobody dismisses the hint for 300 s and
    [killall] cannot be run, the handler raises: [on_view_hint] has saved to
    slot 9 and waited, and ends there with the exception.  No load-state
    command is sent.  On the same console with a working [killall] the
    sequence is completed. *)
Theorem on_view_hint_skips_load_when_show_raises :
  let hints := source (inl "iVBORw0KGgo=") (text_reply "Go left.") in
  let stuck :=
    on_view_hint (config "anthropic") HintViewer.fbi
      (world console_fbi_no_killall hints) [] ready in
  let killed :=
    on_view_hint (config "anthropic") HintViewer.fbi
      (world console_fbi_timeout hints) [] ready in
  stuck
  = (Raised FileNotFoundError, ready,
     [Udp "SAVE_STATE_SLOT 9"; Udp "SAVE_STATE"; Sleep 2000;
      Subprocess (HintViewer.fbi_argv hint_png);
      Subprocess ["killall"; "fbi"]])
  /\ ~ In (Udp "LOAD_STATE_SLOT 9") (events stuck)
  /\ ~ In (Udp "LOAD_STATE") (events stuck)
  /\ killed
     = (Normal tt, ready,
        [Udp "SAVE_STATE_SLOT 9"; Udp "SAVE_STATE"; Sleep 2000;
         Subprocess (HintViewer.fbi_argv hint_png);
         Subprocess ["killall"; "fbi"];
         Sleep 200; Udp "LOAD_STATE_SLOT 9"; Udp "LOAD_STATE"]).
Proof.
  cbv zeta. vm_compute.
  repeat split; try reflexivity; intuition discriminate.
Qed.



End HintSystemScenarios.

(* ===================================================================== *)
(** * Part II, continued: further properties of the code                  *)
(* ===================================================================== *)

(** ** Python strings *)

Section PyStrFacts.
Import PyStr.

Lemma string_app_assoc (a b c : string) : (a +:+ b) +:+ c = a +:+ (b +:+ c).
Proof.
  induction a as [|x a IH]; [reflexivity|].
  change (String x ((a +:+ b) +:+ c) = String x (a +:+ (b +:+ c))).
  rewrite IH. reflexivity.
Qed.

Lemma string_app_nil_r (s : string) : s +:+ "" = s.
Proof.
  induction s as [|a s IH]; [reflexivity|].
  change (String a (s +:+ "") = String a s). rewrite IH. reflexivity.
Qed.


Lemma nonempty_true (s : string) : Text.nonempty s = true <-> s <> "".
Proof. destruct s; cbn; split; congruence. Qed.

(** [len] counts the characters of both parts. *)
Lemma len_app (a b : string) : len (a +:+ b) = (len a + len b)%nat.
Proof.
  induction a as [|x a IH]; [reflexivity|].
  change (String x a +:+ b) with (String x (a +:+ b)). cbn [len].
  rewrite IH. destruct (continuation x); reflexivity.
Qed.

Lemma len_take (n : nat) (s : string) : len (take n s) = Nat.min n (len s).
Proof.
  revert n. induction s as [|a s IH]; intros n; cbn [take len].
  - destruct n; reflexivity.
  - destruct (continuation a) eqn:Ha.
    + cbn [len]. rewrite Ha. apply IH.
    + destruct n as [|n]; [reflexivity|]. cbn [len]. rewrite Ha, IH. reflexivity.
Qed.

Lemma take_all (n : nat) (s : string) : (len s <= n)%nat -> take n s = s.
Proof.
  revert n. induction s as [|a s IH]; intros n; cbn [take len]; [reflexivity|].
  destruct (continuation a).
  - intros Hlen. rewrite IH by exact Hlen. reflexivity.
  - destruct n as [|n]; [lia|]. intros Hlen. rewrite IH by lia. reflexivity.
Qed.

Lemma prefix_nil (s : string) : String.prefix "" s = true.
Proof. destruct s; reflexivity. Qed.


(** Bytes that continue a character are not matched by the start of the
    next one. *)
Lemma prefix_continuation_app (p s t : string) :
  forallb continuation (list_ascii_of_string p) = true ->
  starts_character t = true ->
  String.prefix p (s +:+ t) = String.prefix p s.
Proof.
  intros Hp Ht. revert s Hp.
  induction p as [|c p IH]; intros s Hp; [rewrite !prefix_nil; reflexivity|].
  change (list_ascii_of_string (String c p)) with (c :: list_ascii_of_string p) in Hp.
  cbn [forallb] in Hp. apply andb_true_iff in Hp as [Hc Hp].
  destruct s as [|a s].
  - change ("" +:+ t) with t. destruct t as [|d t]; [reflexivity|].
    cbn [String.prefix starts_character] in *.
    destruct (ascii_dec c d) as [->|]; [|reflexivity].
    rewrite Hc in Ht. discriminate.
  - change (String a s +:+ t) with (String a (s +:+ t)). cbn [String.prefix].
    destruct (ascii_dec c a); [apply IH, Hp|reflexivity].
Qed.

(** Every whitespace character is one byte that starts a character,
    followed by bytes that continue it. *)
Lemma spaces_shape :
  Forall (fun space =>
            match space with
            | EmptyString => False
            | String _ rest =>
                forallb continuation (list_ascii_of_string rest) = true
            end) spaces.
Proof. repeat constructor. Qed.

Lemma space_prefix_app (space s t : string) :
  In space spaces -> s <> "" -> starts_character t = true ->
  String.prefix space (s +:+ t) = String.prefix space s.
Proof.
  intros Hin Hs Ht. pose proof spaces_shape as Hshape.
  rewrite Forall_forall in Hshape. apply list_elem_of_In, Hshape in Hin.
  destruct space as [|b rest]; [contradiction|].
  destruct s as [|a s]; [contradiction|].
  change (String a s +:+ t) with (String a (s +:+ t)). cbn [String.prefix].
  destruct (ascii_dec b a); [|reflexivity].
  apply prefix_continuation_app; assumption.
Qed.

Lemma find_ext_in {A} (f g : A -> bool) (l : list A) :
  (forall x, In x l -> f x = g x) -> find f l = find g l.
Proof.
  induction l as [|x l IH]; intros Hfg; [reflexivity|].
  cbn [find]. rewrite (Hfg x) by (left; reflexivity).
  destruct (g x); [reflexivity|]. apply IH. intros y Hy. apply Hfg. right. exact Hy.
Qed.

(** Whether [s] starts with whitespace does not depend on the character that
    follows [s]. *)
Lemma space_width_app (s t : string) :
  s <> "" -> starts_character t = true ->
  space_width (s +:+ t) = space_width s.
Proof.
  intros Hs Ht. unfold space_width.
  rewrite (find_ext_in (fun space => String.prefix space (s +:+ t))
             (fun space => String.prefix space s)); [reflexivity|].
  intros space Hin. apply space_prefix_app; assumption.
Qed.



(** The space character is whitespace of one byte, whatever follows. *)
Lemma space_width_space (s : string) : space_width (String " " s) = 1%nat.
Proof. destruct s; reflexivity. Qed.

Lemma space_width_newline (s : string) : space_width (String "010" s) = 1%nat.
Proof. destruct s; reflexivity. Qed.

Lemma rev_app_nonempty (s acc : string) :
  acc <> "" -> String.rev_app s acc <> "".
Proof.
  revert acc. induction s as [|a s IH]; intros acc Hacc; cbn; [exact Hacc|].
  apply IH. discriminate.
Qed.

Lemma rev_nonempty (s : string) : s <> "" -> String.rev s <> "".
Proof.
  destruct s as [|a s]; [contradiction|]. intros _.
  unfold String.rev. cbn. apply rev_app_nonempty. discriminate.
Qed.

Lemma rev_app_acc (s acc : string) :
  String.rev_app s acc = String.rev_app s "" +:+ acc.
Proof.
  revert acc. induction s as [|a s IH]; intros acc; [reflexivity|].
  cbn [String.rev_app]. rewrite (IH (String a acc)), (IH (String a "")).
  rewrite string_app_assoc. reflexivity.
Qed.

Lemma rev_rev_app (s acc acc' : string) :
  String.rev_app (String.rev_app s acc) acc' = String.rev_app acc (s +:+ acc').
Proof.
  revert acc. induction s as [|a s IH]; intros acc; [reflexivity|].
  cbn [String.rev_app]. rewrite IH. reflexivity.
Qed.

Lemma rev_involutive (s : string) : String.rev (String.rev s) = s.
Proof.
  unfold String.rev. rewrite rev_rev_app. cbn. apply string_app_nil_r.
Qed.

(** The words [split_go] hands over when a run ends. *)
Lemma flushed_nonempty (cur : string) :
  Forall (fun word => word <> "")
    (if Text.nonempty cur then [String.rev cur] else []).
Proof.
  destruct cur; cbn -[String.rev]; [constructor|].
  constructor; [apply rev_nonempty; discriminate|constructor].
Qed.

(** No word of [split] is empty. *)
Lemma split_go_nonempty (skip : nat) (cur s : string) :
  Forall (fun word => word <> "") (split_go skip cur s).
Proof.
  revert skip cur. induction s as [|a s IH]; intros skip cur; cbn [split_go].
  - apply flushed_nonempty.
  - destruct skip; [|apply IH].
    destruct (space_width _); [apply IH|].
    apply Forall_app. split; [apply flushed_nonempty|apply IH].
Qed.

Lemma split_nonempty (s : string) : Forall (fun word => word <> "") (split s).
Proof. apply split_go_nonempty. Qed.

(** Reading a word without whitespace: its bytes are pushed on the current
    run. *)
Lemma split_go_word (word cur t : string) :
  spaceless word = true -> starts_character t = true ->
  split_go 0 cur (word +:+ t) = split_go 0 (String.rev_app word cur) t.
Proof.
  intros Hword Ht. revert cur Hword.
  induction word as [|a word IH]; intros cur Hword; [reflexivity|].
  cbn [spaceless] in Hword. apply andb_true_iff in Hword as [Ha Hword].
  apply Nat.eqb_eq in Ha.
  change (String a word +:+ t) with (String a (word +:+ t)).
  cbn [split_go String.rev_app].
  change (String a (word +:+ t)) with (String a word +:+ t).
  rewrite space_width_app by (discriminate || exact Ht). rewrite Ha.
  apply IH, Hword.
Qed.

Lemma rev_app_nonempty_word (word : string) :
  word <> "" -> Text.nonempty (String.rev_app word "") = true.
Proof.
  intros Hword. apply nonempty_true.
  destruct word as [|a word]; [contradiction|]. cbn.
  apply rev_app_nonempty. discriminate.
Qed.

(** [split] undoes joining words without whitespace with single spaces. *)
Lemma split_join (words : list string) :
  Forall (fun word => word <> "" /\ spaceless word = true) words ->
  split (String.concat " " words) = words.
Proof.
  unfold split. induction 1 as [|word words [Hne Hword] Hwords IH];
    [reflexivity|].
  destruct words as [|word' words].
  - cbn [String.concat]. rewrite <- (string_app_nil_r word) at 1.
    rewrite split_go_word by (exact Hword || reflexivity). cbn [split_go].
    rewrite rev_app_nonempty_word by exact Hne.
    f_equal. apply rev_involutive.
  - change (String.concat " " (word :: word' :: words))
      with (word +:+ String " " (String.concat " " (word' :: words))).
    rewrite split_go_word by (exact Hword || reflexivity).
    cbn [split_go]. rewrite space_width_space.
    rewrite rev_app_nonempty_word by exact Hne. rewrite IH.
    cbn [app]. f_equal. apply rev_involutive.
Qed.


















(** [cut] finds the first separator. *)
Lemma cut_first (sep : ascii) (before after : string) :
  Forall (fun a => a <> sep) (list_ascii_of_string before) ->
  cut sep (before +:+ String sep after) = Some (before, after).
Proof.
  induction before as [|a before IH]; intros Hbefore.
  - change (cut sep (String sep after) = Some ("", after)). cbn.
    rewrite Ascii.eqb_refl. reflexivity.
  - change (list_ascii_of_string (String a before))
      with (a :: list_ascii_of_string before) in Hbefore.
    inversion Hbefore as [|? ? Ha Hrest]; subst.
    change (cut sep (String a (before +:+ String sep after))
            = Some (String a before, after)).
    cbn [cut]. apply Ascii.eqb_neq in Ha. rewrite Ha, (IH Hrest). reflexivity.
Qed.

End PyStrFacts.

(** ** RateLimiter: invariant and usage statistics *)

Section RateLimiterMore.
Import RateLimiter Invariant.

Implicit Types (st : state) (d : usage_dict) (today : string).

Lemma reset_keeps_usage_ok st today ok :
  usage_ok (usage_data st) ->
  usage_ok (usage_data (_reset_if_new_day today ok st)).
Proof.
  intros [Hc Hh]. unfold _reset_if_new_day.
  destruct (date_differs _ _); [|split; assumption].
  rewrite save_usage_data. cbn [usage_data]. split; [cbn; lia|].
  destruct (has_prior_usage _); cbn; [apply last30_length|exact Hh].
Qed.

Lemma save_usage_file ok st :
  usage_file (_save ok st)
  = match ok with
    | Written => Some (usage_data st)
    | NotOpened => usage_file st
    | Truncated => None
    end.
Proof. destruct ok; reflexivity. Qed.

Lemma reset_usage_file st today ok :
  usage_file (_reset_if_new_day today ok st) = usage_file st
  \/ usage_file (_reset_if_new_day today ok st)
     = Some (usage_data (_reset_if_new_day today ok st))
  \/ usage_file (_reset_if_new_day today ok st) = None.
Proof.
  unfold _reset_if_new_day. destruct (date_differs _ _); [|left; reflexivity].
  destruct ok; [right; left|left|right; right]; reflexivity.
Qed.

Lemma empty_usage_ok : usage_ok empty_usage.
Proof. split; cbn; lia. Qed.

(** X1.  A counter with a non-negative count and at most 30 days of history
    keeps both properties under every operation of the rate limiter, however
    the writes to disk end.  The file is never left with data that lacks
    them: a document found in it after [record_request] is the one it held
    before or has both properties, and a write that was cut short leaves no
    document at all.  So the counter that the next start of the daemon loads
    from the file has both properties again, provided the document the file
    held before had them. *)
Theorem rate_limiter_keeps_usage_ok st today today_again ok ok' :
  usage_ok (usage_data st) ->
  let recorded := record_request today ok ok' st in
  usage_ok (usage_data (_reset_if_new_day today ok st))
  /\ usage_ok (usage_data recorded)
  /\ usage_ok (usage_data (snd (can_make_request today ok st)))
  /\ usage_ok (usage_data (snd (get_usage_stats today today_again ok st)))
  /\ (forall d, usage_file recorded = Some d ->
        usage_file st = Some d \/ usage_ok d)
  /\ (ok' = Truncated -> usage_file recorded = None)
  /\ (ok' = Written -> usage_file recorded = Some (usage_data recorded))
  /\ ((forall d, usage_file st = Some d -> usage_ok d) ->
      forall limit, usage_ok (usage_data (init limit (usage_file recorded)))).
Proof.
  intros Hok recorded.
  pose proof (reset_keeps_usage_ok st today ok Hok) as Hreset.
  assert (Hrec : usage_ok (usage_data recorded)).
  { subst recorded. unfold record_request. rewrite save_usage_data.
    cbn [usage_data]. destruct Hreset as [Hc Hh]. split; [cbn; lia|exact Hh]. }
  assert (Hfile : forall d, usage_file recorded = Some d ->
                    usage_file st = Some d \/ usage_ok d).
  { intros d Hd. subst recorded. unfold record_request in Hd, Hrec.
    rewrite save_usage_file in Hd. rewrite save_usage_data in Hrec.
    destruct ok'.
    - injection Hd as <-. right. exact Hrec.
    - cbn [usage_file] in Hd.
      destruct (reset_usage_file st today ok) as [Hf|[Hf|Hf]]; rewrite Hf in Hd.
      + left. exact Hd.
      + injection Hd as <-. right. exact Hreset.
      + discriminate.
    - discriminate. }
  split; [exact Hreset|]. split; [exact Hrec|]. split; [|split; [|split]].
  - unfold can_make_request.
    destruct (daily_limit st <=? 0); [exact Hok|exact Hreset].
  - exact Hreset.
  - exact Hfile.
  - split; [|split].
    + intros ->. reflexivity.
    + intros ->. reflexivity.
    + intros Hbefore limit. unfold init, _load. cbn [usage_data].
      destruct (usage_file recorded) as [d|] eqn:Hd; cbn [default].
      * destruct (Hfile d eq_refl) as [Hsame|Hd']; [exact (Hbefore d Hsame)|exact Hd'].
      * apply empty_usage_ok.
Qed.

(** X1 on data: the full month rolls over into June and stays within 30
    days of history; when the second write is cut short, the file is left
    without a document and the next start begins with the empty counter. *)
Lemma rate_limiter_keeps_usage_ok_witness :
  usage_ok (usage_data full_month)
  /\ usage_ok (usage_data (record_request "2024-06-01" Written Written full_month))
  /\ usage_file (record_request "2024-06-01" Written Truncated full_month) = None
  /\ usage_data (init 10 (usage_file
                   (record_request "2024-06-01" Written Truncated full_month)))
     = empty_usage.
Proof.
  assert (H : usage_ok (usage_data full_month)) by (split; cbn; lia).
  split; [exact H|]. split.
  - destruct (rate_limiter_keeps_usage_ok full_month "2024-06-01" "2024-06-01"
                Written Written H) as (_ & Hrecorded & _).
    exact Hrecorded.
  - split; reflexivity.
Defined.

(** X2.  Under a positive limit the statistics agree with the quota check: the
    same [used] and [limit], a [remaining] that is never negative, and a
    request is allowed exactly when something remains.  With a limit of 0 or
    less the statistics still report the real count, with [remaining = -1],
    while the quota check reports [used = 0]. *)
Theorem usage_stats_agree_with_quota_check st today ok :
  let quota := fst (can_make_request today ok st) in
  let stats := fst (get_usage_stats today today ok st) in
  (0 < daily_limit st ->
     stats_used stats = snd (fst quota)
     /\ stats_limit stats = snd quota
     /\ 0 <= stats_remaining stats
     /\ (fst (fst quota) = true <-> 0 < stats_remaining stats)
     /\ (stats_used stats <= daily_limit st ->
         stats_used stats + stats_remaining stats = daily_limit st))
  /\ (daily_limit st <= 0 ->
      quota = (true, 0, 0)
      /\ stats_remaining stats = -1
      /\ stats_used stats
         = get_count (usage_data (_reset_if_new_day today ok st)))
  /\ snd (get_usage_stats today today ok st) = _reset_if_new_day today ok st.
Proof.
  intros quota stats. subst quota stats. split; [|split; [|reflexivity]].
  - intros Hl. rewrite can_make_request_positive by exact Hl.
    unfold get_usage_stats. cbn [fst snd stats_used stats_limit stats_remaining].
    rewrite reset_daily_limit. unfold remaining.
    destruct (Z.ltb_spec 0 (daily_limit st)); [|lia].
    set (used := get_count _).
    split; [reflexivity|]. split; [reflexivity|]. split; [lia|]. split; [|lia].
    rewrite Z.ltb_lt. lia.
  - intros Hl. unfold can_make_request, get_usage_stats.
    destruct (Z.leb_spec (daily_limit st) 0); [|lia].
    cbn [fst snd stats_used stats_limit stats_remaining].
    rewrite reset_daily_limit. unfold remaining.
    destruct (Z.ltb_spec 0 (daily_limit st)); [lia|].
    repeat split; reflexivity.
Qed.

End RateLimiterMore.

(** ** HotkeyListener: what the event loop maintains *)

Section HotkeyListenerMore.
Import HotkeyListener ListenerInvariant.

Implicit Types (st : state) (ev : input_event).

(** A button name found for an event code is one of the configured ones. *)
Lemma find_button_configured ecodes st code name :
  find_button (btn_codes ecodes st) code = Some name ->
  name ∈ request_combo st ∪ view_combo st.
Proof.
  unfold find_button, btn_codes. intros Hfind.
  destruct (find _ _) as [[n c]|] eqn:Hf; [|discriminate].
  cbn in Hfind. injection Hfind as ->.
  apply find_some in Hf as [Hin _].
  apply list_elem_of_In, list_elem_of_omap in Hin as (x & Hx & Hname).
  destruct (ecodes x) as [c'|]; [|discriminate]. cbn in Hname.
  injection Hname as -> ->.
  apply elem_of_app in Hx as [Hx|Hx]; apply elem_of_elements in Hx; set_solver.
Qed.

Lemma check_combos_pressed st :
  pressed_keys (_check_combos st) = pressed_keys st
  \/ pressed_keys (_check_combos st) = ∅.
Proof.
  unfold _check_combos.
  destruct (bool_decide _); [right; reflexivity|].
  destruct (bool_decide _); [right; reflexivity|left; reflexivity].
Qed.

Lemma check_combos_combos st :
  request_combo (_check_combos st) = request_combo st
  /\ view_combo (_check_combos st) = view_combo st.
Proof.
  unfold _check_combos.
  destruct (bool_decide _); [split; reflexivity|].
  destruct (bool_decide _); split; reflexivity.
Qed.

(** What one event can do: nothing, or a change of the pressed set followed
    by the check. *)
Lemma on_event_cases ecodes st ev :
  on_event ecodes st ev = st
  \/ exists name,
       name ∈ request_combo st ∪ view_combo st
       /\ ev_type ev = EV_KEY
       /\ ((ev_value ev = 1
            /\ on_event ecodes st ev
               = _check_combos (set_pressed st (pressed_keys st ∪ {[name]})))
           \/ (ev_value ev = 0
               /\ on_event ecodes st ev
                  = _check_combos (set_pressed st (pressed_keys st ∖ {[name]})))
           \/ (ev_value ev <> 1
               /\ on_event ecodes st ev = _check_combos st)).
Proof.
  unfold on_event. destruct (negb (running st)); [left; reflexivity|].
  destruct (Z.eqb_spec (ev_type ev) EV_KEY) as [Hkey|]; [|left; reflexivity].
  destruct (find_button _ _) as [name|] eqn:Hfind; [|left; reflexivity].
  right. exists name. split; [eapply find_button_configured, Hfind|].
  split; [exact Hkey|].
  destruct (Z.eqb_spec (ev_value ev) 1) as [H1|H1]; [left; auto|].
  destruct (Z.eqb_spec (ev_value ev) 0) as [H0|H0]; [right; left; auto|].
  right; right. auto.
Qed.

(** X3.  The event loop records only configured buttons as held and never
    changes the combos: whatever events arrive, the pressed set stays inside
    the union of the two combos. *)
Theorem on_event_tracks_configured_buttons ecodes st ev :
  tracks_configured st ->
  tracks_configured (on_event ecodes st ev)
  /\ request_combo (on_event ecodes st ev) = request_combo st
  /\ view_combo (on_event ecodes st ev) = view_combo st.
Proof.
  unfold tracks_configured. intros Hst.
  destruct (on_event_cases ecodes st ev) as [->|(name & Hname & _ & Hcase)];
    [auto|].
  assert (Hgen : forall keys,
            keys ⊆ request_combo st ∪ view_combo st ->
            pressed_keys (_check_combos (set_pressed st keys))
              ⊆ request_combo (_check_combos (set_pressed st keys))
                ∪ view_combo (_check_combos (set_pressed st keys))
            /\ request_combo (_check_combos (set_pressed st keys))
               = request_combo st
            /\ view_combo (_check_combos (set_pressed st keys)) = view_combo st).
  { intros keys Hkeys.
    destruct (check_combos_combos (set_pressed st keys)) as [-> ->].
    cbn [set_pressed request_combo view_combo].
    split; [|split; reflexivity].
    destruct (check_combos_pressed (set_pressed st keys)) as [-> | ->];
      cbn [set_pressed pressed_keys]; set_solver. }
  destruct Hcase as [[_ ->]|[[_ ->]|[_ ->]]].
  - apply Hgen. set_solver.
  - apply Hgen. set_solver.
  - pose proof (Hgen (pressed_keys st) Hst) as H.
    replace (set_pressed st (pressed_keys st)) with st in H
      by (destruct st; reflexivity).
    exact H.
Qed.

(** X3 on data: the listener as started holds nothing. *)
Lemma on_event_tracks_configured_buttons_witness :
  tracks_configured (started default_request default_view)
  /\ tracks_configured
       (on_event (fun _ => Some 304) (started default_request default_view)
          (InputEvent 1 304 1)).
Proof.
  assert (H : tracks_configured (started default_request default_view))
    by (unfold tracks_configured; cbn; set_solver).
  split; [exact H|].
  apply (on_event_tracks_configured_buttons (fun _ => Some 304) _
           (InputEvent 1 304 1) H).
Defined.

(** X4.  With non-empty combos and no combo held, an event starts a callback
    only if it is a press (a key event of value 1): releases and key repeats
    never dispatch.  One event starts at most one callback, and afterwards
    again no combo is held, so the property holds along any stream of
    events. *)
Theorem on_event_dispatches_only_on_press ecodes st ev :
  request_combo st ≠ ∅ -> view_combo st ≠ ∅ ->
  quiescent st ->
  quiescent (on_event ecodes st ev)
  /\ (effects (on_event ecodes st ev) = effects st
      \/ (ev_type ev = EV_KEY /\ ev_value ev = 1
          /\ pressed_keys (on_event ecodes st ev) = ∅
          /\ exists cb,
               effects (on_event ecodes st ev)
               = effects st ++ [ClearPressed; StartThread cb])).
Proof.
  intros Hreq Hview [Hqr Hqv].
  assert (Hcheck : forall keys,
            let st' := _check_combos (set_pressed st keys) in
            quiescent st'
            /\ (effects st' = effects st
                \/ (pressed_keys st' = ∅
                    /\ exists cb,
                         effects st' = effects st ++ [ClearPressed; StartThread cb]))).
  { intros keys st'. subst st'. unfold _check_combos, quiescent.
    cbn [set_pressed request_combo view_combo pressed_keys effects running].
    destruct (decide (request_combo st ⊆ keys)) as [Hr|Hr].
    { rewrite bool_decide_eq_true_2 by exact Hr. cbn.
      split; [split; set_solver|]. right. split; [reflexivity|eauto]. }
    rewrite bool_decide_eq_false_2 by exact Hr.
    destruct (decide (view_combo st ⊆ keys)) as [Hv|Hv].
    { rewrite bool_decide_eq_true_2 by exact Hv. cbn.
      split; [split; set_solver|]. right. split; [reflexivity|eauto]. }
    rewrite bool_decide_eq_false_2 by exact Hv. cbn.
    split; [split; assumption|left; reflexivity]. }
  assert (Hidle : forall keys,
            keys ⊆ pressed_keys st ->
            effects (_check_combos (set_pressed st keys)) = effects st).
  { intros keys Hsub. rewrite check_combos_idle; [reflexivity|cbn; set_solver..]. }
  destruct (on_event_cases ecodes st ev) as [->|(name & _ & Hkey & Hcase)].
  { split; [split; assumption|left; reflexivity]. }
  destruct Hcase as [[H1 ->]|[[H0 ->]|[Hn ->]]].
  - destruct (Hcheck (pressed_keys st ∪ {[name]})) as [Hq [He|[Hp He]]].
    + split; [exact Hq|left; exact He].
    + split; [exact Hq|right; auto].
  - split; [apply Hcheck|left; apply Hidle; set_solver].
  - pose proof (Hcheck (pressed_keys st)) as [Hq _].
    pose proof (Hidle (pressed_keys st) (reflexivity _)) as He.
    replace (set_pressed st (pressed_keys st)) with st in Hq, He
      by (destruct st; reflexivity).
    split; [exact Hq|left; exact He].
Qed.

(** X4 on data: with the default combos, pressing L1 while Select is held
    completes the request combo and dispatches; releasing Select afterwards
    dispatches nothing. *)
Lemma on_event_dispatches_only_on_press_witness :
  let codes := fun name : string =>
    if String.eqb name "BTN_SELECT" then Some 314
    else if String.eqb name "BTN_TL" then Some 310
    else if String.eqb name "BTN_TR" then Some 311 else None in
  let held := State true default_request default_view {["BTN_SELECT"]} [] in
  let fired := on_event codes held (InputEvent 1 310 1) in
  quiescent held
  /\ effects fired = [ClearPressed; StartThread OnRequest]
  /\ effects (on_event codes fired (InputEvent 1 314 0)) = effects fired.
Proof.
  intros codes held fired.
  assert (Hq : quiescent held).
  { split; intros Hsub.
    - assert (H : "BTN_TL" ∈ ({["BTN_SELECT"]} : gset string))
        by (apply Hsub; set_solver).
      set_solver.
    - assert (H : "BTN_TR" ∈ ({["BTN_SELECT"]} : gset string))
        by (apply Hsub; set_solver).
      set_solver. }
  assert (Hr : request_combo held ≠ ∅) by (cbn; set_solver).
  assert (Hv : view_combo held ≠ ∅) by (cbn; set_solver).
  split; [exact Hq|].
  destruct (on_event_dispatches_only_on_press codes held (InputEvent 1 310 1)
              Hr Hv Hq) as [Hq' _].
  split; [vm_compute; reflexivity|].
  assert (Hr' : request_combo fired ≠ ∅) by (vm_compute; set_solver).
  assert (Hv' : view_combo fired ≠ ∅) by (vm_compute; set_solver).
  destruct (on_event_dispatches_only_on_press codes fired (InputEvent 1 314 0)
              Hr' Hv' Hq') as [_ [He|(_ & Hval & _)]].
  - exact He.
  - discriminate Hval.
Defined.

End HotkeyListenerMore.

(** ** HintViewer: the button wait and the OSD chunks *)

Section HintViewerMore.
Import Py HintViewer Chunks.

(** X5.  The select loop of [_wait_for_button_press] answers [True] exactly
    when some turn taken before the timeout finds the device readable and
    reads a key press (an [EV_KEY] event of value 1), every earlier turn was
    also before the timeout, and no earlier read raised.  Releases, key
    repeats and events of other types never dismiss the hint. *)
Theorem wait_loop_true_iff_press_before_timeout (timeout : Z) (polls : list poll) :
  wait_loop timeout polls = true
  <-> exists i p evs,
        polls !! i = Some p
        /\ readable p = true /\ read_events p = Some evs
        /\ (exists ev, In ev evs
              /\ HotkeyListener.ev_type ev = HotkeyListener.EV_KEY
              /\ HotkeyListener.ev_value ev = 1)
        /\ forall j q, (j <= i)%nat -> polls !! j = Some q ->
             elapsed_ms q < timeout * 1000
             /\ (readable q = true -> read_events q <> None).
Proof.
  assert (Hpress : forall evs,
            existsb is_press evs = true
            <-> exists ev, In ev evs
                  /\ HotkeyListener.ev_type ev = HotkeyListener.EV_KEY
                  /\ HotkeyListener.ev_value ev = 1).
  { intros evs. rewrite existsb_exists. unfold is_press.
    split; intros (ev & Hin & H); exists ev; (split; [exact Hin|]).
    - apply andb_true_iff in H as [H1 H2]. split; lia.
    - destruct H as [-> ->]. reflexivity. }
  induction polls as [|p rest IH]; cbn [wait_loop].
  { split; [discriminate|]. intros (i & p & evs & Hi & _).
    rewrite lookup_nil in Hi. discriminate. }
  destruct (Z.leb_spec (timeout * 1000) (elapsed_ms p)) as [Hlate|Hearly].
  { split; [discriminate|]. intros (i & q & evs & _ & _ & _ & _ & Hbefore).
    destruct (Hbefore 0%nat p) as [Hlt _]; [lia|reflexivity|lia]. }
  assert (Hskip : (exists i q evs,
                     rest !! i = Some q
                     /\ readable q = true /\ read_events q = Some evs
                     /\ (exists ev, In ev evs
                           /\ HotkeyListener.ev_type ev = HotkeyListener.EV_KEY
                           /\ HotkeyListener.ev_value ev = 1)
                     /\ forall j q', (j <= i)%nat -> rest !! j = Some q' ->
                          elapsed_ms q' < timeout * 1000
                          /\ (readable q' = true -> read_events q' <> None))
                  -> (readable p = true -> read_events p <> None)
                  -> exists i q evs,
                       (p :: rest) !! i = Some q
                       /\ readable q = true /\ read_events q = Some evs
                       /\ (exists ev, In ev evs
                             /\ HotkeyListener.ev_type ev = HotkeyListener.EV_KEY
                             /\ HotkeyListener.ev_value ev = 1)
                       /\ forall j q', (j <= i)%nat -> (p :: rest) !! j = Some q' ->
                            elapsed_ms q' < timeout * 1000
                            /\ (readable q' = true -> read_events q' <> None)).
  { intros (i & q & evs & Hi & Hr & He & Hp & Hbefore) Hread.
    exists (S i), q, evs. repeat split; try assumption.
    - destruct j as [|j]; cbn in H0.
      + injection H0 as <-. exact Hearly.
      + apply (Hbefore j q'); [lia|exact H0].
    - destruct j as [|j]; cbn in H0.
      + injection H0 as <-. exact Hread.
      + apply (Hbefore j q'); [lia|exact H0]. }
  assert (Hlater : forall i q evs,
            (p :: rest) !! S i = Some q ->
            readable q = true -> read_events q = Some evs ->
            (exists ev, In ev evs
               /\ HotkeyListener.ev_type ev = HotkeyListener.EV_KEY
               /\ HotkeyListener.ev_value ev = 1) ->
            (forall j q', (j <= S i)%nat -> (p :: rest) !! j = Some q' ->
               elapsed_ms q' < timeout * 1000
               /\ (readable q' = true -> read_events q' <> None)) ->
            wait_loop timeout rest = true).
  { intros i q evs Hi Hr He Hp Hbefore. apply IH.
    exists i, q, evs. repeat split; try assumption;
      apply (Hbefore (S j) q0); solve [lia|assumption]. }
  destruct (readable p) eqn:Hreadable.
  - destruct (read_events p) as [evs|] eqn:Hread.
    + destruct (existsb is_press evs) eqn:Hex.
      * split; [intros _|reflexivity].
        exists 0%nat, p, evs. repeat split; try assumption.
        -- apply Hpress, Hex.
        -- destruct j; [|lia]. injection H0 as <-. exact Hearly.
        -- destruct j; [|lia]. injection H0 as <-. congruence.
      * split.
        -- intros Hrest. apply Hskip; [apply IH, Hrest|congruence].
        -- intros ([|i] & q & evs' & Hi & Hr & He & Hp & Hbefore).
           ++ injection Hi as <-. rewrite Hread in He. injection He as <-.
              apply Hpress in Hp. congruence.
           ++ eapply Hlater; eassumption.
    + split; [discriminate|].
      intros (i & q & evs' & Hi & Hr & He & Hp & Hbefore).
      destruct (Hbefore 0%nat p) as [_ Hnone]; [lia|reflexivity|].
      exfalso. apply Hnone; [exact Hreadable|exact Hread].
  - split.
    + intros Hrest. apply Hskip; [apply IH, Hrest|discriminate].
    + intros ([|i] & q & evs' & Hi & Hr & He & Hp & Hbefore).
      * injection Hi as <-. congruence.
      * eapply Hlater; eassumption.
Qed.

(** Joining two neighbours with a space before joining the list changes
    nothing. *)
Lemma concat_join_neighbours (xs ys : list string) (a b : string) :
  String.concat " " (xs ++ (a +:+ " " +:+ b) :: ys)
  = String.concat " " (xs ++ a :: b :: ys).
Proof.
  induction xs as [|x xs IH].
  - cbn [app String.concat]. destruct ys as [|y ys]; [reflexivity|].
    rewrite !string_app_assoc. reflexivity.
  - cbn [app]. cbn [String.concat]. rewrite IH.
    destruct xs; reflexivity.
Qed.

Lemma chunk_words_flushed (words : list string) :
  chunk_words words = flushed (fold_left chunk_step words ([], "")).
Proof.
  unfold chunk_words, flushed. destruct (fold_left _ _ _). reflexivity.
Qed.

Lemma chunk_step_joined (acc : list string * string) (word : string)
    (rest : list string) :
  word <> "" ->
  String.concat " " (flushed (chunk_step acc word) ++ rest)
  = String.concat " " (flushed acc ++ word :: rest).
Proof.
  intros Hword. destruct acc as [chunks cur]. unfold chunk_step, flushed.
  apply nonempty_true in Hword.
  destruct (Nat.leb _ _); destruct cur as [|c cur]; cbn [fst snd Text.nonempty];
    rewrite ?Hword.
  - rewrite <- app_assoc. reflexivity.
  - change (Text.nonempty (String c cur +:+ " " +:+ word)) with true.
    cbv iota. rewrite <- !app_assoc. cbn [app]. apply concat_join_neighbours.
  - rewrite <- app_assoc. reflexivity.
  - rewrite <- !app_assoc. reflexivity.
Qed.

Lemma fold_chunk_step_joined (words : list string) (acc : list string * string) :
  Forall (fun word => word <> "") words ->
  String.concat " " (flushed (fold_left chunk_step words acc))
  = String.concat " " (flushed acc ++ words).
Proof.
  intros Hwords. revert acc.
  induction Hwords as [|word words Hword _ IH]; intros acc; cbn [fold_left].
  - rewrite app_nil_r. reflexivity.
  - rewrite IH. apply chunk_step_joined, Hword.
Qed.

Lemma fold_chunk_step_ok (all words : list string) (acc : list string * string) :
  Forall (fun word => word <> "" /\ word ∈ all) words ->
  Forall (chunk_ok all) (flushed acc) ->
  Forall (chunk_ok all) (flushed (fold_left chunk_step words acc)).
Proof.
  intros Hwords. revert acc.
  induction Hwords as [|word words [Hword Hin] _ IH]; intros acc Hacc;
    cbn [fold_left]; [exact Hacc|].
  apply IH. destruct acc as [chunks cur]. unfold chunk_step, flushed in *.
  pose proof Hword as Hne. apply nonempty_true in Hne.
  destruct (Nat.leb_spec (PyStr.len cur + PyStr.len word + 1) 120)
    as [Hfit|Hover]; destruct cur as [|c cur];
    cbn [fst snd Text.nonempty] in *; rewrite ?Hne.
  - apply Forall_app. split; [exact Hacc|].
    constructor; [|constructor]. split; [exact Hword|right; exact Hin].
  - change (Text.nonempty (String c cur +:+ " " +:+ word)) with true.
    cbv iota. apply Forall_app in Hacc as [Hchunks _].
    apply Forall_app. split; [exact Hchunks|].
    constructor; [|constructor]. split; [discriminate|left].
    rewrite !len_app. cbn [PyStr.len] in *.
    change (PyStr.continuation " ") with false. cbv iota. lia.
  - apply Forall_app. split; [exact Hacc|].
    constructor; [|constructor]. split; [exact Hword|right; exact Hin].
  - apply Forall_app. split; [exact Hacc|].
    constructor; [|constructor]. split; [exact Hword|right; exact Hin].
Qed.

(** X6.  The OSD chunking of [_show_retroarch_pause] loses and reorders
    nothing: for words as [split()] yields them (none empty), the chunks
    joined by single spaces are the words joined by single spaces.  No chunk
    is empty, and a chunk is longer than 120 characters only when it is a
    single word that is itself longer.  The length is [len], the number of
    characters: a text in a script of several bytes per character is cut
    after 120 characters, not after 120 bytes. *)
Theorem chunk_words_repacks_text (words : list string) :
  Forall (fun word => word <> "") words ->
  String.concat " " (chunk_words words) = String.concat " " words
  /\ Forall (fun chunk =>
               chunk <> ""
               /\ ((PyStr.len chunk <= 120)%nat
                   \/ (chunk ∈ words /\ (120 < PyStr.len chunk)%nat)))
       (chunk_words words).
Proof.
  intros Hwords. rewrite chunk_words_flushed. split.
  - rewrite fold_chunk_step_joined by exact Hwords. reflexivity.
  - assert (Hok : Forall (chunk_ok words)
                    (flushed (fold_left chunk_step words ([], "")))).
    { apply fold_chunk_step_ok; [|constructor].
      apply Forall_forall. intros word Hin. split; [|exact Hin].
      rewrite Forall_forall in Hwords. apply Hwords, Hin. }
    eapply Forall_impl; [exact Hok|].
    intros chunk [Hne [Hlen|Hin]]; (split; [exact Hne|]); [left; exact Hlen|].
    destruct (Nat.le_gt_cases (PyStr.len chunk) 120); [left|right]; auto.
Qed.

(** X6 on data: a hint of three sentences is split at a word boundary into
    two chunks.  Thirty words of three Greek letters each make one chunk of
    119 characters, although they take 209 bytes. *)
Lemma chunk_words_repacks_text_witness :
  let words := PyStr.split
    "Look at the torches on the north wall of the room. Light all four of them with the lantern and the door opens. Then take the stairs down." in
  let greek := repeat (String.concat "" (repeat (PyStr.utf8 955) 3)) 30 in
  Forall (fun word => word <> "") words
  /\ String.concat " " (chunk_words words) = String.concat " " words
  /\ length (chunk_words words) = 2%nat
  /\ chunk_words greek = [String.concat " " greek]
  /\ PyStr.len (String.concat " " greek) = 119%nat
  /\ String.length (String.concat " " greek) = 209%nat.
Proof.
  intros words greek.
  assert (Hwords : Forall (fun word => word <> "") words)
    by (vm_compute; repeat constructor; discriminate).
  destruct (chunk_words_repacks_text words Hwords) as [Hjoin _].
  split; [exact Hwords|]. split; [exact Hjoin|].
  repeat split; vm_compute; reflexivity.
Defined.

End HintViewerMore.

(** ** HintSystem: the request workflow *)

Section HintSystemMore.
Import Py HintSystem.
Local Open Scope py_scope.

Variable cfg : Config.t.
Variable w : World.

(** The background task once the hint source has answered with a text that
    is not error-shaped. *)
Lemma process_hint_request_hint_run shot sys game past hs text :
  let hint := AIClient.get_hint cfg (hint_source w) shot sys game past tt in
  value_of (result hint) = Some text ->
  AIClient.is_error text = false ->
  let p1 := past ++ events hint in
  let charged :=
    RateLimiter.record_request (today w p1) (disk_ok w p1 0%nat)
      (disk_ok w p1 1%nat) (rate_limiter hs) in
  let failed := [UsageLog "PROCESSING_ERROR" false;
                 Udp ("SHOW_MSG " +:+ Config.notification_error cfg)] in
  _process_hint_request cfg w shot sys game past hs
  = match render_result w p1 with
    | inr e =>
        (Normal tt,
         State false (hint_ready hs) (current_hint_path hs) charged,
         events hint ++ Render text :: failed)
    | inl path =>
        match archive_result w (p1 ++ [Render text]) with
        | Some e =>
            (Normal tt,
             State false (hint_ready hs) (current_hint_path hs) charged,
             events hint ++ Render text :: Archive path :: failed)
        | None =>
            let done := [Render text; Archive path;
                         UsageLog "HINT_GENERATED" true;
                         Udp ("SHOW_MSG " +:+ Config.notification_ready cfg)] in
            let p2 := p1 ++ done in
            (Normal tt,
             State false true (Some path)
               (snd (RateLimiter.get_usage_stats (today w p2) (today w p2)
                       (disk_ok w p2 0%nat) charged)),
             events hint ++ done)
        end
    end.
Proof.
  intros hint Hval Herr p1 charged failed.
  unfold _process_hint_request, try_except. unfold bind at 1.
  rewrite process_hint_request_calls_source. fold hint.
  assert (Hcall : match result hint with
                  | Normal t | Returned t => (Normal (R:=unit) t, hs, events hint)
                  | Raised e => (Raised e, hs, events hint)
                  end = (Normal text, hs, events hint)).
  { destruct (result hint); cbn in Hval; inversion Hval; reflexivity. }
  rewrite Hcall, Herr. clear Hcall.
  unfold record_request, get_usage_stats, set_rate_limiter,
    set_current_hint_path, set_hint_ready, set_processing, show_message.
  unfold bind, ask, emit, get, put, ret, raise.
  cbn -[RateLimiter.record_request RateLimiter.get_usage_stats].
  rewrite ?app_nil_r. fold p1. fold charged.
  destruct (render_result w p1) as [path|e];
    cbn -[RateLimiter.record_request RateLimiter.get_usage_stats].
  2: { rewrite <- ?app_assoc. reflexivity. }
  rewrite ?app_nil_r.
  destruct (archive_result w (p1 ++ [Render text])) as [e|];
    cbn -[RateLimiter.record_request RateLimiter.get_usage_stats].
  { rewrite <- ?app_assoc. reflexivity. }
  subst charged p1. rewrite ?app_nil_r, <- ?app_assoc. cbn [app].
  match goal with
  | |- context [RateLimiter.get_usage_stats ?a ?b ?c ?d] =>
      destruct (RateLimiter.get_usage_stats a b c d) as [stats rl]
  end.
  cbn. rewrite ?app_nil_r, <- ?app_assoc. reflexivity.
Qed.



(** X9.  When the hint source answers with a usable text and rendering and
    archiving succeed, the background task stores the rendered path, marks
    the hint ready and clears [processing]; after the events of the hint
    source its events are exactly the rendering, the archiving, the usage
    record and the ready notice, in this order.  The counter is the charged
    one, after the rollover check of the final usage report. *)
Theorem process_hint_request_marks_hint_ready shot sys game past hs text path :
  let hint := AIClient.get_hint cfg (hint_source w) shot sys game past tt in
  let run := _process_hint_request cfg w shot sys game past hs in
  let p1 := past ++ events hint in
  let done := [Render text; Archive path; UsageLog "HINT_GENERATED" true;
               Udp ("SHOW_MSG " +:+ Config.notification_ready cfg)] in
  value_of (result hint) = Some text ->
  AIClient.is_error text = false ->
  render_result w p1 = inl path ->
  archive_result w (p1 ++ [Render text]) = None ->
  result run = Normal tt
  /\ hint_ready (frame run) = true
  /\ current_hint_path (frame run) = Some path
  /\ processing (frame run) = false
  /\ events run = events hint ++ done
  /\ rate_limiter (frame run)
     = RateLimiter._reset_if_new_day (today w (p1 ++ done))
         (disk_ok w (p1 ++ done) 0%nat)
         (RateLimiter.record_request (today w p1) (disk_ok w p1 0%nat)
            (disk_ok w p1 1%nat) (rate_limiter hs)).
Proof.
  intros hint run p1 done Hval Herr Hrender Harchive. subst run.
  rewrite (process_hint_request_hint_run shot sys game past hs text Hval Herr).
  cbv zeta. fold hint p1. rewrite Hrender, Harchive.
  repeat split; reflexivity.
Qed.

End HintSystemMore.

Section RequestMore.
Import Py HintSystem.
Local Open Scope py_scope.

Variable cfg : Config.t.
Variable w : World.

(** [on_request_hint] once it is past the [processing] check. *)
Lemma on_request_hint_run past hs :
  processing hs = false ->
  let quota := RateLimiter.can_make_request (today w past)
                (disk_ok w past 0%nat) (rate_limiter hs) in
  let '(allowed, used, limit) := fst quota in
  let rl := snd quota in
  let asked := [Udp "GET_STATUS"] in
  let status := status_reply w (past ++ asked) in
  let captured :=
    asked ++ [Udp ("SHOW_MSG " +:+ Config.notification_generating cfg);
              Udp "SCREENSHOT"; Sleep 500] in
  on_request_hint cfg w past hs
  = if negb allowed then
      match Config.format_limit_reached cfg used limit with
      | inl msg =>
          (Returned tt, State false (hint_ready hs) (current_hint_path hs) rl,
           [Udp ("SHOW_MSG " +:+ msg); UsageLog "RATE_LIMITED" false])
      | inr e =>
          (Raised e, State false (hint_ready hs) (current_hint_path hs) rl, [])
      end
    else if negb (playing status) && negb (paused status) then
      (Returned tt, State false false (current_hint_path hs) rl,
       asked ++ [Udp "SHOW_MSG No game running!"])
    else
      match find_latest w (past ++ captured) with
      | inr e =>
          (Raised e, State true false (current_hint_path hs) rl, captured)
      | inl None =>
          (Returned tt, State false false (current_hint_path hs) rl,
           captured ++ [Udp ("SHOW_MSG " +:+ Config.notification_error cfg)])
      | inl (Some screenshot) =>
          match thread_start w (past ++ captured) with
          | Some e =>
              (Raised e, State true false (current_hint_path hs) rl, captured)
          | None =>
              (Normal tt, State true false (current_hint_path hs) rl,
               captured
               ++ [StartThread
                     (ProcessHintRequest screenshot
                        (fst (parse_game_info w status))
                        (snd (parse_game_info w status)))])
          end
      end.
Proof.
  intros Hidle quota.
  unfold on_request_hint, can_make_request, set_rate_limiter, set_processing,
    set_hint_ready, show_message, bind, get, put, ask, emit, ret, return_,
    raise.
  cbn -[RateLimiter.can_make_request]. rewrite Hidle, !app_nil_r.
  fold quota. destruct quota as [[[allowed used] limit] rl].
  cbn -[RateLimiter.can_make_request].
  destruct allowed; cbn;
    [|destruct (Config.format_limit_reached cfg used limit); cbn;
      rewrite ?Hidle; reflexivity].
  rewrite ?app_nil_r, <- ?app_assoc. cbn [app].
  destruct (negb _ && negb _); cbn; [reflexivity|].
  rewrite ?app_nil_r, <- ?app_assoc. cbn [app].
  destruct (find_latest w _) as [[screenshot|]|e]; cbn; [|reflexivity..].
  destruct (parse_game_info w _); cbn.
  rewrite ?app_nil_r, <- ?app_assoc. cbn [app].
  destruct (thread_start w _); reflexivity.
Qed.


End RequestMore.

Section HintSystemMoreScenarios.
Import Py HintSystem Scenario Failing.


(** X9 on data: the full run on a working console. *)
Lemma process_hint_request_marks_hint_ready_witness :
  let run := _process_hint_request (config "anthropic") answering
               "shot.png" "SNES" "Zelda" [] idle in
  hint_ready (frame run) = true
  /\ current_hint_path (frame run) = Some hint_png
  /\ processing (frame run) = false
  /\ events run
     = [HttpPost AIClient.anthropic_url; Render "Try the left door.";
        Archive hint_png; UsageLog "HINT_GENERATED" true;
        Udp "SHOW_MSG Hint Ready! Press Select+R1 to view."].
Proof.
  destruct (process_hint_request_marks_hint_ready
              (config "anthropic") answering
              "shot.png" "SNES" "Zelda" [] idle "Try the left door." hint_png
              eq_refl eq_refl eq_refl eq_refl)
    as (_ & Hready & Hpath & Hproc & Hev & _).
  cbv zeta. split; [exact Hready|]. split; [exact Hpath|].
  split; [exact Hproc|]. rewrite Hev. reflexivity.
Defined.


End HintSystemMoreScenarios.

(** ** RateLimiter: the counter across a restart *)

Section RateLimiterRestart.
Import RateLimiter.

(** X11.  A recorded request survives a restart: after [record_request]
    whose final write succeeded, a new object built from the file with the
    same limit is the very object left in memory, so the restarted daemon
    answers every later quota check and usage report as the running one
    would have. *)
Theorem record_request_survives_restart st today ok :
  let recorded := record_request today ok Written st in
  let restarted := init (daily_limit st) (usage_file recorded) in
  restarted = recorded
  /\ usage_file recorded = Some (usage_data recorded)
  /\ (forall day disk, can_make_request day disk restarted
                       = can_make_request day disk recorded)
  /\ (forall day disk, get_usage_stats day day disk restarted
                       = get_usage_stats day day disk recorded).
Proof.
  intros recorded restarted.
  assert (Hsame : restarted = recorded).
  { subst restarted recorded. unfold record_request, _save, init, _load. cbn.
    rewrite reset_daily_limit. reflexivity. }
  split; [exact Hsame|]. split; [reflexivity|].
  split; intros day disk; rewrite Hsame; reflexivity.
Qed.

End RateLimiterRestart.

(** ** ArchiveManager._safe_name *)

Section ArchiveManagerFacts.
Import ArchiveManager.

Lemma replaced_all (name : string) :
  fold_left (fun result char => replace_char char result) unsafe name
  = map_chars sanitize name.
Proof.
  induction name as [|a name IH]; [reflexivity|].
  cbn [map_chars]. rewrite <- IH. unfold unsafe. cbn [fold_left replace_char].
  f_equal. destruct a as [[] [] [] [] [] [] [] []]; reflexivity.
Qed.

Lemma sanitize_continuation (a : ascii) :
  PyStr.continuation (sanitize a) = PyStr.continuation a.
Proof. destruct a as [[] [] [] [] [] [] [] []]; reflexivity. Qed.

Lemma take_map_chars (n : nat) (s : string) :
  PyStr.take n (map_chars sanitize s) = map_chars sanitize (PyStr.take n s).
Proof.
  revert n. induction s as [|a s IH]; intros n; cbn [map_chars PyStr.take];
    [reflexivity|].
  rewrite sanitize_continuation. destruct (PyStr.continuation a).
  - cbn [map_chars]. rewrite IH. reflexivity.
  - destruct n as [|n]; [reflexivity|]. cbn [map_chars]. rewrite IH. reflexivity.
Qed.

Lemma map_chars_len (s : string) : PyStr.len (map_chars sanitize s) = PyStr.len s.
Proof.
  induction s as [|a s IH]; cbn [map_chars PyStr.len]; [reflexivity|].
  rewrite sanitize_continuation, IH. reflexivity.
Qed.

Lemma sanitize_safe (a : ascii) : existsb (Ascii.eqb (sanitize a)) unsafe = false.
Proof. destruct a as [[] [] [] [] [] [] [] []]; reflexivity. Qed.

Lemma map_chars_sanitize_id (s : string) :
  Forall (fun a => existsb (Ascii.eqb a) unsafe = false) (chars s) ->
  map_chars sanitize s = s.
Proof.
  induction s as [|a s IH]; intros Hs; [reflexivity|].
  change (chars (String a s)) with (a :: chars s) in Hs.
  inversion Hs as [|? ? Ha Hs']; subst.
  cbn [map_chars]. rewrite IH by exact Hs'. unfold sanitize. rewrite Ha.
  reflexivity.
Qed.

Lemma chars_map_chars f (s : string) : chars (map_chars f s) = map f (chars s).
Proof. induction s as [|a s IH]; cbn; [reflexivity|]. f_equal. exact IH. Qed.

Lemma safe_name_mapped (name : string) :
  _safe_name name = map_chars sanitize (PyStr.take 50 name).
Proof. unfold _safe_name. rewrite replaced_all. apply take_map_chars. Qed.

(** X12.  [_safe_name] gives a name of [min(50, len(name))] characters in
    which none of the nine unsafe characters occurs: each character of the
    first 50 is kept, or is an underscore in the place of an unsafe one.
    The length and the slice count characters, not bytes: a title in a
    script that takes several bytes per character keeps its first 50
    characters whole.  A name of at most 50 characters without unsafe
    characters is returned as it is, and applying [_safe_name] twice is the
    same as applying it once. *)
Theorem safe_name_is_safe (name : string) :
  PyStr.len (_safe_name name) = Nat.min 50 (PyStr.len name)
  /\ Forall (fun a => a ∉ unsafe) (chars (_safe_name name))
  /\ Forall2 (fun a b => b = a \/ (a ∈ unsafe /\ b = "_"%char))
       (chars (PyStr.take 50 name)) (chars (_safe_name name))
  /\ _safe_name (_safe_name name) = _safe_name name
  /\ ((PyStr.len name <= 50)%nat ->
      Forall (fun a => a ∉ unsafe) (chars name) ->
      _safe_name name = name).
Proof.
  assert (Hin : forall a, a ∈ unsafe <-> existsb (Ascii.eqb a) unsafe = true).
  { intros a. rewrite existsb_exists. split.
    - intros Ha. exists a. split; [apply list_elem_of_In, Ha|apply Ascii.eqb_refl].
    - intros (b & Hb & Heq). apply Ascii.eqb_eq in Heq as ->.
      apply list_elem_of_In, Hb. }
  assert (Hnotin : forall a, a ∉ unsafe <-> existsb (Ascii.eqb a) unsafe = false).
  { intros a. rewrite Hin. destruct (existsb _ _); split; congruence. }
  assert (Hsafe : Forall (fun a => existsb (Ascii.eqb a) unsafe = false)
                    (chars (_safe_name name))).
  { rewrite safe_name_mapped, chars_map_chars. apply Forall_map.
    apply Forall_forall. intros a _. apply sanitize_safe. }
  split; [|split; [|split; [|split]]].
  - rewrite safe_name_mapped, map_chars_len. apply len_take.
  - eapply Forall_impl; [exact Hsafe|]. intros a Ha. apply Hnotin, Ha.
  - rewrite safe_name_mapped, chars_map_chars.
    induction (chars (PyStr.take 50 name)) as [|a l IH]; constructor;
      [|exact IH].
    unfold sanitize. destruct (existsb _ _) eqn:Ha; [right|left; reflexivity].
    split; [apply Hin, Ha|reflexivity].
  - rewrite (safe_name_mapped (_safe_name name)).
    rewrite take_all.
    + apply map_chars_sanitize_id, Hsafe.
    + rewrite safe_name_mapped, map_chars_len, len_take. lia.
  - intros Hlen Hname. rewrite safe_name_mapped, take_all by exact Hlen.
    apply map_chars_sanitize_id.
    eapply Forall_impl; [exact Hname|]. intros a Ha. apply Hnotin, Ha.
Qed.

(** X12 on data: a title with a colon and a slash; and a title of 60
    ideographic characters, three bytes each, of which the first 50 are
    kept whole. *)
Lemma safe_name_is_safe_witness :
  let kanji := PyStr.utf8 20253 in
  let title := String.concat "" (repeat kanji 60) in
  _safe_name "Zelda: A Link/Past" = "Zelda_ A Link_Past"
  /\ _safe_name "Zelda_ A Link_Past" = "Zelda_ A Link_Past"
  /\ _safe_name title = String.concat "" (repeat kanji 50)
  /\ String.length (_safe_name title) = 150%nat.
Proof.
  intros kanji title. split; [reflexivity|]. split.
  - destruct (safe_name_is_safe "Zelda_ A Link_Past") as (_ & _ & _ & _ & Hid).
    apply Hid; [vm_compute; lia|].
    repeat constructor; intros Hin; repeat (apply elem_of_cons in Hin as [Hin|Hin];
      [discriminate Hin|]); inversion Hin.
  - split; vm_compute; reflexivity.
Defined.

End ArchiveManagerFacts.

(** ** ScreenshotManager.find_latest *)

Section ScreenshotManagerFacts.
Import ScreenshotManager.

Lemma scan_scanned (pngs : list (string * Z)) (after_time : Z) :
  scanned pngs after_time (fold_left scan pngs (None, after_time)).
Proof.
  induction pngs as [|[path mtime] pngs IH] using rev_ind.
  { cbn. split; [reflexivity|constructor]. }
  rewrite fold_left_app. cbn [fold_left].
  destruct (fold_left scan pngs (None, after_time)) as [newest newest_time].
  unfold scanned in *. cbn [fst snd scan] in *.
  destruct (Z.ltb_spec newest_time mtime) as [Hnewer|Hold]; cbn [fst snd].
  - assert (Hafter : after_time < mtime).
    { destruct newest; [lia|]. destruct IH as [-> _]. exact Hnewer. }
    split; [exact Hafter|]. exists (length pngs). split.
    + rewrite lookup_app_r, Nat.sub_diag by lia. reflexivity.
    + intros j png Hj.
      destruct (Nat.lt_ge_cases j (length pngs)) as [Hlt|Hge].
      * rewrite lookup_app_l in Hj by exact Hlt.
        assert (snd png <= newest_time).
        { destruct newest as [p|].
          - destruct IH as (_ & i & _ & Hall). apply (Hall j png Hj).
          - destruct IH as [-> Hall]. rewrite Forall_forall in Hall.
            apply Hall. eapply list_elem_of_lookup_2, Hj. }
        lia.
      * rewrite lookup_app_r in Hj by exact Hge.
        destruct (j - length pngs)%nat as [|k] eqn:Hk; cbn in Hj;
          [|first [discriminate|rewrite lookup_nil in Hj; discriminate]].
        injection Hj as <-. cbn. lia.
  - destruct newest as [p|].
    + destruct IH as (Hafter & i & Hi & Hall). split; [exact Hafter|].
      exists i. split.
      * rewrite lookup_app_l; [exact Hi|]. eapply lookup_lt_Some, Hi.
      * intros j png Hj.
        destruct (Nat.lt_ge_cases j (length pngs)) as [Hlt|Hge].
        -- rewrite lookup_app_l in Hj by exact Hlt. apply (Hall j png Hj).
        -- rewrite lookup_app_r in Hj by exact Hge.
           destruct (j - length pngs)%nat as [|k] eqn:Hk; cbn in Hj;
             [|first [discriminate|rewrite lookup_nil in Hj; discriminate]].
           injection Hj as <-. cbn. split; [lia|].
           intros Hji. apply lookup_lt_Some in Hi. lia.
    + destruct IH as [-> Hall]. split; [reflexivity|].
      apply Forall_app. split; [exact Hall|]. constructor; [cbn; lia|constructor].
Qed.

(** X13.  [find_latest] returns a file of the directory that is strictly
    newer than [after_time] and at least as new as every other file; among
    equally new files it returns the first in listing order.  It returns
    [None] exactly when the directory is missing or holds no file newer than
    [after_time] (a file modified exactly at [after_time] does not count). *)
Theorem find_latest_is_newest (dir : option (list (string * Z))) (after_time : Z) :
  (forall path,
     find_latest dir after_time = Some path ->
     exists pngs i mtime,
       dir = Some pngs /\ pngs !! i = Some (path, mtime)
       /\ after_time < mtime
       /\ forall j png, pngs !! j = Some png ->
            snd png <= mtime /\ ((j < i)%nat -> snd png < mtime))
  /\ (find_latest dir after_time = None
      <-> dir = None
          \/ exists pngs, dir = Some pngs
               /\ Forall (fun png => snd png <= after_time) pngs).
Proof.
  destruct dir as [pngs|]; cbn [find_latest].
  2: { split; [discriminate|]. split; [left; reflexivity|reflexivity]. }
  pose proof (scan_scanned pngs after_time) as Hscan. unfold scanned in Hscan.
  destruct (fold_left scan pngs (None, after_time)) as [newest newest_time].
  cbn [fst snd] in *. split.
  - intros path ->. destruct Hscan as (Hafter & i & Hi & Hall).
    exists pngs, i, newest_time. auto.
  - destruct newest as [p|].
    + split; [discriminate|]. intros [Hdir|(pngs' & [= <-] & Hold)];
        [discriminate|].
      destruct Hscan as (Hafter & i & Hi & _). rewrite Forall_forall in Hold.
      apply list_elem_of_lookup_2, Hold in Hi. cbn in Hi. lia.
    + split; [|reflexivity]. intros _. right. exists pngs.
      split; [reflexivity|apply Hscan].
Qed.

(** X13 on data: two files share the newest time; the first is returned,
    and a threshold at that time finds nothing. *)
Lemma find_latest_is_newest_witness :
  let dir := Some [("old.png", 100); ("a.png", 205); ("b.png", 205)] in
  find_latest dir 199 = Some "a.png"
  /\ find_latest dir 205 = None.
Proof.
  intros dir. split; [reflexivity|].
  destruct (find_latest_is_newest dir 205) as [_ Hnone].
  apply Hnone. right. eexists. split; [reflexivity|].
  repeat constructor; cbn; lia.
Defined.

End ScreenshotManagerFacts.

(** ** GameInfoParser.parse *)

Section GameInfoParserFacts.
Import GameInfoParser.

Lemma prefix_app (p rest : string) : String.prefix p (p +:+ rest) = true.
Proof.
  induction p as [|a p IH]; [destruct rest; reflexivity|].
  change (String a p +:+ rest) with (String a (p +:+ rest)). cbn.
  destruct (ascii_dec a a); [exact IH|contradiction].
Qed.

Lemma prefix_split (p s : string) :
  String.prefix p s = true -> exists rest, s = p +:+ rest.
Proof.
  revert s. induction p as [|a p IH]; intros s Hp.
  { exists s. reflexivity. }
  destruct s as [|b s]; [discriminate|]. cbn in Hp.
  destruct (ascii_dec a b) as [->|]; [|discriminate].
  destruct (IH s Hp) as [rest ->]. exists rest. reflexivity.
Qed.

(** [contains] is the substring test. *)
Lemma contains_spec (needle haystack : string) :
  contains needle haystack = true
  <-> exists before after, haystack = before +:+ needle +:+ after.
Proof.
  induction haystack as [|a h IH]; cbn [contains].
  - rewrite orb_false_r. split.
    + intros Hp. apply prefix_split in Hp as [rest Hrest].
      exists "", rest. exact Hrest.
    + intros (before & after & Heq). destruct before as [|b before].
      * change ("" = needle +:+ after) in Heq.
        destruct needle; [reflexivity|discriminate Heq].
      * change ("" = String b (before +:+ needle +:+ after)) in Heq.
        discriminate Heq.
  - rewrite orb_true_iff, IH. split.
    + intros [Hp|(before & after & ->)].
      * apply prefix_split in Hp as [rest Hrest]. exists "", rest. exact Hrest.
      * exists (String a before), after. reflexivity.
    + intros (before & after & Heq). destruct before as [|b before].
      * left. change (String a h = needle +:+ after) in Heq.
        rewrite Heq. apply prefix_app.
      * right. change (String a h = String b (before +:+ needle +:+ after)) in Heq.
        injection Heq as _ ->. eauto.
Qed.

Lemma lower_char_idempotent (a : ascii) : lower_char (lower_char a) = lower_char a.
Proof. destruct a as [[] [] [] [] [] [] [] []]; reflexivity. Qed.

Lemma lower_idempotent (s : string) : lower (lower s) = lower s.
Proof.
  induction s as [|a s IH]; cbn; [reflexivity|].
  rewrite lower_char_idempotent, IH. reflexivity.
Qed.

(** X14.  The system lookup of [GameInfoParser.parse].  Every core name of
    the table, reported as the core, gives its own system: no entry is
    shadowed by an earlier one.  The lookup ignores the case of ASCII
    letters, and a core name decorated with any text before or after a table
    entry is still recognised.  The answer is "Unknown System" exactly when
    no table entry occurs in the lower-cased core name; otherwise it is a
    system of the table.  An empty content gives the game "Unknown Game". *)
Theorem parse_system_lookup (stem : string -> string)
    (status : HintSystem.game_status) :
  let core := HintSystem.core status in
  let system := fst (parse stem status) in
  Forall (fun entry => system_of (fst entry) = snd entry) CORE_TO_SYSTEM
  /\ fst (parse stem
            (HintSystem.GameStatus (HintSystem.playing status)
               (HintSystem.paused status) (HintSystem.content status)
               (lower core)))
     = system
  /\ (system = "Unknown System"
      <-> forall entry before after,
            In entry CORE_TO_SYSTEM ->
            lower core <> before +:+ fst entry +:+ after)
  /\ (system <> "Unknown System" ->
      exists entry, In entry CORE_TO_SYSTEM /\ system = snd entry)
  /\ (HintSystem.content status = "" -> snd (parse stem status) = "Unknown Game").
Proof.
  intros core system. subst system. unfold parse. cbn [fst snd HintSystem.core
    HintSystem.content].
  split; [vm_compute; repeat constructor|].
  split; [rewrite lower_idempotent; reflexivity|].
  fold core. unfold system_of.
  destruct (find _ CORE_TO_SYSTEM) as [entry|] eqn:Hfind.
  - apply find_some in Hfind as [Hin Hcontains].
    split; [|split].
    + split.
      * intros Hunknown. exfalso.
        assert (Hknown : Forall (fun e => snd e <> "Unknown System")
                           CORE_TO_SYSTEM)
          by (repeat constructor; discriminate).
        rewrite Forall_forall in Hknown.
        apply (Hknown entry); [apply list_elem_of_In, Hin|exact Hunknown].
      * intros Hnone. exfalso.
        apply contains_spec in Hcontains as (before & after & Heq).
        exact (Hnone entry before after Hin Heq).
    + intros _. exists entry. split; [exact Hin|reflexivity].
    + intros ->. reflexivity.
  - split; [|split].
    + split; [|reflexivity]. intros _ entry before after Hin Heq.
      pose proof (find_none _ _ Hfind entry Hin) as Hno. cbn in Hno.
      assert (contains (fst entry) (lower core) = true)
        by (apply contains_spec; eauto).
      congruence.
    + intros Hne. contradiction.
    + intros ->. reflexivity.
Qed.

(** Decorated and upper-case core names. *)
Example system_of_examples :
  system_of (lower "Snes9x - Current") = "SNES"
  /\ system_of (lower "Mesen-S") = "SNES"
  /\ system_of (lower "Mesen") = "NES"
  /\ system_of (lower "Dolphin") = "Unknown System".
Proof. repeat split; reflexivity. Qed.

End GameInfoParserFacts.

(** ** HintRenderer._wrap_text *)

Section HintRendererFacts.
Import HintRenderer.

Variable width : string -> Z.
Variable max_width : Z.

Lemma concat_snoc (words : list string) (word : string) :
  words <> [] ->
  String.concat " " (words ++ [word])
  = String.concat " " words +:+ " " +:+ word.
Proof.
  induction words as [|w words IH]; [contradiction|]. intros _.
  destruct words as [|w' words]; [reflexivity|].
  change (String.concat " " ((w :: w' :: words) ++ [word]))
    with (w +:+ " " +:+ String.concat " " ((w' :: words) ++ [word])).
  rewrite IH by discriminate.
  change (String.concat " " (w :: w' :: words))
    with (w +:+ " " +:+ String.concat " " (w' :: words)).
  rewrite !string_app_assoc. reflexivity.
Qed.

Lemma wrap_step_joined (acc : list string * list string) (word : string)
    (rest : list string) :
  String.concat " " (wrapped (wrap_step width max_width acc word) ++ rest)
  = String.concat " " (wrapped acc ++ word :: rest).
Proof.
  destruct acc as [lines cur]. unfold wrap_step, wrapped.
  destruct (Z.leb _ _); cbn [fst snd].
  - destruct cur as [|w cur]; cbn [app].
    + rewrite <- app_assoc. reflexivity.
    + change (w :: cur ++ [word]) with ((w :: cur) ++ [word]).
      rewrite concat_snoc by discriminate.
      rewrite <- !app_assoc. cbn [app]. apply concat_join_neighbours.
  - destruct cur as [|w cur]; rewrite <- !app_assoc; reflexivity.
Qed.

Lemma fold_wrap_step_joined (words : list string)
    (acc : list string * list string) :
  String.concat " " (wrapped (fold_left (wrap_step width max_width) words acc))
  = String.concat " " (wrapped acc ++ words).
Proof.
  revert acc. induction words as [|word words IH]; intros acc; cbn [fold_left].
  - rewrite app_nil_r. reflexivity.
  - rewrite IH. apply wrap_step_joined.
Qed.

Lemma wrap_step_ok (all : list string) (acc : list string * list string)
    (word : string) :
  word ∈ all ->
  Forall (line_ok width max_width all) (wrapped acc) ->
  Forall (line_ok width max_width all)
    (wrapped (wrap_step width max_width acc word)).
Proof.
  intros Hin Hacc. destruct acc as [lines cur]. unfold wrap_step, wrapped in *.
  destruct (Z.leb_spec (width (String.concat " " (cur ++ [word]))) max_width)
    as [Hfit|Hover]; cbn [fst snd] in *.
  - assert (Hlines : Forall (line_ok width max_width all) lines).
    { destruct cur; [exact Hacc|]. apply Forall_app in Hacc as [H _]. exact H. }
    destruct (cur ++ [word]) as [|w l] eqn:Hcur.
    { destruct cur; discriminate. }
    apply Forall_app. split; [exact Hlines|].
    constructor; [left; exact Hfit|constructor].
  - assert (Hflushed : Forall (line_ok width max_width all)
                         match cur with
                         | [] => lines
                         | _ => lines ++ [String.concat " " cur]
                         end)
      by (destruct cur; exact Hacc).
    apply Forall_app. split; [exact Hflushed|].
    constructor; [right; exact Hin|constructor].
Qed.

Lemma fold_wrap_step_ok (all words : list string)
    (acc : list string * list string) :
  Forall (fun word => word ∈ all) words ->
  Forall (line_ok width max_width all) (wrapped acc) ->
  Forall (line_ok width max_width all)
    (wrapped (fold_left (wrap_step width max_width) words acc)).
Proof.
  intros Hwords. revert acc.
  induction Hwords as [|word words Hin _ IH]; intros acc Hacc;
    cbn [fold_left]; [exact Hacc|].
  apply IH, wrap_step_ok; assumption.
Qed.

(** The words of a line that is not empty give a line that is not empty. *)
Lemma concat_nonempty (words : list string) :
  words <> [] -> Forall (fun word => word <> "") words ->
  String.concat " " words <> "".
Proof.
  destruct words as [|w words]; [contradiction|]. intros _ Hwords.
  inversion Hwords as [|? ? Hw _]; subst.
  destruct words; [exact Hw|].
  destruct w; [contradiction|]. discriminate.
Qed.

Lemma fold_wrap_step_nonempty (words : list string)
    (acc : list string * list string) :
  Forall (fun word => word <> "") words ->
  Forall (fun word => word <> "") (snd acc) ->
  Forall (fun line => line <> "") (fst acc) ->
  Forall (fun line => line <> "")
    (wrapped (fold_left (wrap_step width max_width) words acc)).
Proof.
  intros Hwords. revert acc.
  induction Hwords as [|word words Hword _ IH]; intros [lines cur] Hcur Hlines;
    cbn [fold_left fst snd] in *.
  - unfold wrapped. cbn [fst snd]. destruct cur as [|w cur]; [exact Hlines|].
    apply Forall_app. split; [exact Hlines|].
    constructor; [apply concat_nonempty; [discriminate|exact Hcur]|constructor].
  - apply IH; unfold wrap_step; destruct (Z.leb _ _); cbn [fst snd].
    + apply Forall_app. split; [exact Hcur|]. constructor; [exact Hword|constructor].
    + constructor; [exact Hword|constructor].
    + exact Hlines.
    + destruct cur as [|w cur]; [exact Hlines|].
      apply Forall_app. split; [exact Hlines|].
      constructor; [apply concat_nonempty; [discriminate|exact Hcur]|constructor].
Qed.

End HintRendererFacts.

Section HintRendererWrap.
Import HintRenderer.

(** X15.  [_wrap_text] loses and reorders nothing: the lines joined by
    single spaces are the words of the text joined by single spaces.  No line
    is empty, and every line fits [max_width] as measured, unless it is a
    single word of the text that does not fit by itself. *)
Theorem wrap_text_keeps_words (width : string -> Z) (max_width : Z)
    (text : string) :
  let lines := _wrap_text width max_width text in
  String.concat " " lines = String.concat " " (PyStr.split text)
  /\ Forall (fun line =>
               line <> ""
               /\ (width line <= max_width
                   \/ (line ∈ PyStr.split text /\ max_width < width line)))
       lines.
Proof.
  intros lines. subst lines. unfold _wrap_text. split.
  - rewrite fold_wrap_step_joined. reflexivity.
  - pose proof (fold_wrap_step_ok width max_width (PyStr.split text)
                  (PyStr.split text) ([], [])) as Hok.
    pose proof (fold_wrap_step_nonempty width max_width (PyStr.split text)
                  ([], []) (split_nonempty text)) as Hne.
    apply Forall_forall. intros line Hline.
    assert (Hok' : line_ok width max_width (PyStr.split text) line).
    { assert (H : Forall (line_ok width max_width (PyStr.split text))
                    (wrapped (fold_left (wrap_step width max_width)
                                (PyStr.split text) ([], [])))).
      { apply Hok; [|constructor]. apply Forall_forall. auto. }
      rewrite Forall_forall in H. apply H, Hline. }
    assert (Hne' : line <> "").
    { assert (H : Forall (fun line => line <> "")
                    (wrapped (fold_left (wrap_step width max_width)
                                (PyStr.split text) ([], [])))).
      { apply Hne; constructor. }
      rewrite Forall_forall in H. apply H, Hline. }
    split; [exact Hne'|].
    destruct Hok' as [Hfit|Hin]; [left; exact Hfit|].
    destruct (Z.le_gt_cases (width line) max_width); [left|right]; auto with zarith.
Qed.

End HintRendererWrap.

(** ** Config._load_api_key *)

Section ConfigKeyFacts.
Import PyStr ConfigKey.

Lemma read_secrets_app (before after : list string) :
  read_secrets (before ++ after)
  = match read_secrets before with
    | Some value => Some value
    | None => read_secrets after
    end.
Proof.
  induction before as [|line before IH]; [reflexivity|].
  cbn [app read_secrets]. destruct (api_key_of_line line); [reflexivity|exact IH].
Qed.

Lemma skipped_no_key (line : string) : skipped line -> api_key_of_line line = None.
Proof.
  unfold skipped, api_key_of_line. intros [Hblank|[Hcomment|Hcut]].
  - rewrite Hblank. reflexivity.
  - rewrite Hcomment, andb_false_r. reflexivity.
  - rewrite Hcut. destruct (_ && _); reflexivity.
Qed.

Lemma read_secrets_skipped (lines : list string) :
  Forall skipped lines -> read_secrets lines = None.
Proof.
  induction 1 as [|line lines Hline _ IH]; [reflexivity|].
  cbn [read_secrets]. rewrite (skipped_no_key line Hline). exact IH.
Qed.



End ConfigKeyFacts.

Section ConfigKeyScenarios.
Import PyStr ConfigKey KeyScenario.


(** X17.  Lines the loop passes over do not matter: inserting or removing
    a blank line, a comment line or a line without an equals sign anywhere in
    the secrets file changes nothing.  An assignment with an empty value is
    not passed over: when no environment variable is set and the first
    assignment of the secrets file is the line API_KEY= with nothing after
    the equals sign, the key becomes empty even if config.json holds one, and
    [get_hint] then answers the missing-key error without reading the
    screenshot or contacting the service. *)
Theorem secrets_lines_skipped_or_binding (environ : string -> option string)
    (before after : list string) (cfg : Config.t) :
  (forall line,
     skipped line ->
     _load_api_key environ (Some (before ++ line :: after)) cfg
     = _load_api_key environ (Some (before ++ after)) cfg)
  /\ (environ (env_var (Config.api_provider cfg)) = None ->
      Forall skipped before ->
      let loaded :=
        _load_api_key environ
          (Some (before ++ ("API_KEY=" +:+ String "010" "") :: after)) cfg in
      Config.api_key loaded = ""
      /\ forall (w : AIClient.World) shot system game past,
           AIClient.get_hint loaded w shot system game past tt
           = (Py.Returned AIClient.no_api_key, tt, [])).
Proof.
  split.
  - intros line Hline. unfold _load_api_key.
    rewrite !read_secrets_app. cbn [read_secrets].
    rewrite (skipped_no_key line Hline). reflexivity.
  - intros Henv Hbefore loaded.
    assert (Hkey : Config.api_key loaded = "").
    { subst loaded. unfold _load_api_key. rewrite Henv.
      rewrite read_secrets_app, (read_secrets_skipped before Hbefore).
      reflexivity. }
    split; [exact Hkey|].
    intros w shot system game past. unfold AIClient.get_hint.
    rewrite Hkey. reflexivity.
Qed.

(** X17 on data: an empty assignment in the secrets file switches the
    configured key off. *)
Lemma secrets_lines_skipped_or_binding_witness :
  Config.api_key configured = "sk-test"
  /\ Config.api_key
       (_load_api_key no_environ
          (Some ["# no key yet" +:+ String "010" ""; "API_KEY=" +:+ String "010" ""])
          configured)
     = "".
Proof.
  split; [reflexivity|].
  destruct (secrets_lines_skipped_or_binding no_environ
              ["# no key yet" +:+ String "010" ""] [] configured) as [_ Hempty].
  apply Hempty; [reflexivity|].
  constructor; [right; left; vm_compute; reflexivity|constructor].
Defined.

End ConfigKeyScenarios.

(** ** HintViewer._detect_display_method *)

Section DetectFacts.
Import HintViewer Detect.

(** The techniques before position [i] of [preference] have been ruled
    out. *)
Ltac earlier j Hm :=
  repeat (destruct j as [|j];
          [cbn in Hm; injection Hm as <-; cbn [usable]; assumption|]);
  lia.

(** X18.  [_detect_display_method] picks the first usable technique in the
    order direct framebuffer, mpv, fbv, fbi, feh, and the paused overlay when
    none of them is usable.  A probe that raises counts as a miss, and
    without PIL the framebuffer is never written directly, whatever sysfs
    reports. *)
Theorem detect_display_method_first_usable (p : Probe) :
  (exists i,
     preference !! i = Some (_detect_display_method p)
     /\ usable p (_detect_display_method p) = true
     /\ forall j m, (j < i)%nat -> preference !! j = Some m -> usable p m = false)
  /\ (PIL_AVAILABLE p = false -> _detect_display_method p <> direct_fb)
  /\ (forall prog e,
        In prog ["mpv"; "fbv"; "fbi"; "feh"] ->
        which p prog = ProcRaises e -> which_found p prog = false)
  /\ (_detect_display_method p = retroarch_pause
      <-> forall m, m <> retroarch_pause -> usable p m = false).
Proof.
  unfold _detect_display_method.
  split; [|split; [|split]].
  - destruct (PIL_AVAILABLE p && fb_found p) eqn:Hfb.
    { exists 0%nat. cbn. rewrite Hfb. repeat split. intros j m Hj. lia. }
    destruct (which_found p "mpv") eqn:Hmpv.
    { exists 1%nat. cbn [lookup list_lookup preference usable]. rewrite Hmpv.
      repeat split. intros j m Hj Hm. earlier j Hm. }
    destruct (which_found p "fbv") eqn:Hfbv.
    { exists 2%nat. cbn [lookup list_lookup preference usable]. rewrite Hfbv.
      repeat split. intros j m Hj Hm. earlier j Hm. }
    destruct (which_found p "fbi") eqn:Hfbi.
    { exists 3%nat. cbn [lookup list_lookup preference usable]. rewrite Hfbi.
      repeat split. intros j m Hj Hm. earlier j Hm. }
    destruct (which_found p "feh") eqn:Hfeh.
    { exists 4%nat. cbn [lookup list_lookup preference usable]. rewrite Hfeh.
      repeat split. intros j m Hj Hm. earlier j Hm. }
    exists 5%nat. cbn [lookup list_lookup preference usable].
    repeat split. intros j m Hj Hm. earlier j Hm.
  - intros ->. cbn [andb].
    repeat (destruct (which_found p _)); discriminate.
  - intros prog e _ Hraise. unfold which_found. rewrite Hraise. reflexivity.
  - split.
    + intros Hpause m Hm.
      destruct (PIL_AVAILABLE p && fb_found p) eqn:Hfb; [discriminate|].
      destruct (which_found p "mpv") eqn:Hmpv; [discriminate|].
      destruct (which_found p "fbv") eqn:Hfbv; [discriminate|].
      destruct (which_found p "fbi") eqn:Hfbi; [discriminate|].
      destruct (which_found p "feh") eqn:Hfeh; [discriminate|].
      destruct m; cbn; try assumption. contradiction.
    + intros Hnone.
      pose proof (Hnone direct_fb ltac:(discriminate)) as Hfb.
      pose proof (Hnone mpv ltac:(discriminate)) as Hmpv.
      pose proof (Hnone fbv ltac:(discriminate)) as Hfbv.
      pose proof (Hnone fbi ltac:(discriminate)) as Hfbi.
      pose proof (Hnone feh ltac:(discriminate)) as Hfeh.
      cbn in Hfb, Hmpv, Hfbv, Hfbi, Hfeh.
      rewrite Hfb, Hmpv, Hfbv, Hfbi, Hfeh. reflexivity.
Qed.

End DetectFacts.

(** ** RetroArchCommander.get_status *)

Section GetStatusFacts.
Import PyStr RetroArchCommander.

Lemma cut_none (sep : ascii) (s : string) :
  Forall (fun a => a <> sep) (list_ascii_of_string s) -> cut sep s = None.
Proof.
  induction s as [|a s IH]; intros Hs; [reflexivity|].
  change (list_ascii_of_string (String a s))
    with (a :: list_ascii_of_string s) in Hs.
  inversion Hs as [|? ? Ha Hrest]; subst.
  cbn [cut]. apply Ascii.eqb_neq in Ha. rewrite Ha, (IH Hrest). reflexivity.
Qed.

Lemma contains_comma_false (s : string) :
  field s -> GameInfoParser.contains "," s = false.
Proof.
  unfold field. induction s as [|a s IH]; intros Hs; [reflexivity|].
  change (list_ascii_of_string (String a s))
    with (a :: list_ascii_of_string s) in Hs.
  inversion Hs as [|? ? Ha Hrest]; subst.
  cbn [GameInfoParser.contains String.prefix].
  destruct (ascii_dec "," a) as [<-|_]; [contradiction|].
  apply IH, Hrest.
Qed.

(** The two flags exclude each other. *)
Lemma playing_paused_exclusive (state : string) :
  String.eqb state "PLAYING" && String.eqb state "PAUSED" = false.
Proof.
  destruct (String.eqb_spec state "PLAYING") as [->|]; reflexivity.
Qed.

(** The parts of a reply made of a command word, a state and content
    words. *)
Lemma reply_parts (state : string) (info_words : list string) :
  token state -> Forall token info_words -> info_words <> [] ->
  split ("GET_STATUS " +:+ state +:+ " " +:+ String.concat " " info_words)
  = "GET_STATUS" :: state :: info_words.
Proof.
  intros Hstate Hwords Hne.
  rewrite <- (split_join ("GET_STATUS" :: state :: info_words)).
  - f_equal. destruct info_words as [|w ws]; [contradiction|]. reflexivity.
  - constructor; [|constructor; assumption].
    split; [discriminate|repeat constructor].
Qed.

(** X19.  [get_status] reads a well-formed reply back.  For a reply made
    of the command word, a state word and content information whose words
    hold no whitespace character - none of those [str.split] splits at,
    U+00A0 and U+3000 among them - and are separated by single spaces: the
    state decides [playing] and [paused]; information of the form
    core,content,crc or core,content gives the core and the content (up to
    the second comma); information without a comma is the content, with an
    empty core. *)
Theorem get_status_reads_reply (state : string) (info_words : list string) :
  token state -> Forall token info_words -> info_words <> [] ->
  let info := String.concat " " info_words in
  let st := get_status ("GET_STATUS " +:+ state +:+ " " +:+ info) in
  playing st = String.eqb state "PLAYING"
  /\ paused st = String.eqb state "PAUSED"
  /\ (forall core content crc,
        field core -> field content ->
        info = core +:+ String "," (content +:+ String "," crc) ->
        RetroArchCommander.core st = core
        /\ RetroArchCommander.content st = content)
  /\ (forall core content,
        field core -> field content ->
        info = core +:+ String "," content ->
        RetroArchCommander.core st = core
        /\ RetroArchCommander.content st = content)
  /\ (field info ->
      RetroArchCommander.core st = ""
      /\ RetroArchCommander.content st = info).
Proof.
  intros Hstate Hwords Hne info st. subst st. unfold get_status.
  change (negb (Text.nonempty ("GET_STATUS " +:+ state +:+ " " +:+ info)))
    with false. cbv iota.
  subst info. rewrite (reply_parts state info_words Hstate Hwords Hne).
  set (info := String.concat " " info_words).
  change (drop 2 ("GET_STATUS" :: state :: info_words)) with info_words.
  fold info.
  assert (Hlen2 : (2 <=? length ("GET_STATUS" :: state :: info_words))%nat = true)
    by reflexivity.
  assert (Hlen3 : (3 <=? length ("GET_STATUS" :: state :: info_words))%nat = true).
  { destruct info_words; [contradiction|reflexivity]. }
  cbv zeta. rewrite Hlen2, Hlen3.
  change (nth 1 ("GET_STATUS" :: state :: info_words) "") with state.
  destruct (GameInfoParser.contains "," info) eqn:Hcomma; cbn [playing paused];
    (split; [reflexivity|]); (split; [reflexivity|]).
  - split; [|split].
    + intros core content crc Hcore Hcontent Hinfo.
      unfold split_comma_2. rewrite Hinfo.
      rewrite (cut_first "," core _ Hcore), (cut_first "," content _ Hcontent).
      split; reflexivity.
    + intros core content Hcore Hcontent Hinfo.
      unfold split_comma_2. rewrite Hinfo.
      rewrite (cut_first "," core _ Hcore), (cut_none "," content Hcontent).
      split; reflexivity.
    + intros Hfield. rewrite (contains_comma_false info Hfield) in Hcomma.
      discriminate.
  - assert (Hno : forall before after, info <> before +:+ String "," after).
    { intros before after Heq.
      assert (GameInfoParser.contains "," info = true)
        by (apply contains_spec; exists before, after; exact Heq).
      congruence. }
    split; [|split].
    + intros core content crc _ _ Hinfo. exfalso. exact (Hno _ _ Hinfo).
    + intros core content _ _ Hinfo. exfalso. exact (Hno _ _ Hinfo).
    + intros _. split; reflexivity.
Qed.

(** X19 on data: a reply for a game whose name has spaces; the system is
    then looked up from the core.  A name written with an ideographic space
    (U+3000) is not read back as sent: it is split there and joined again
    with a plain space. *)
Lemma get_status_reads_reply_witness :
  let st := get_status "GET_STATUS PLAYING snes9x,Super Mario World,crc32=b19ed489" in
  let wide :=
    get_status ("GET_STATUS PLAYING snes9x,Super" +:+ utf8 12288 +:+ "Mario") in
  playing st = true /\ paused st = false
  /\ RetroArchCommander.core st = "snes9x"
  /\ RetroArchCommander.content st = "Super Mario World"
  /\ fst (GameInfoParser.parse (fun name => name) (game_status st)) = "SNES"
  /\ RetroArchCommander.content wide = "Super Mario".
Proof.
  assert (Hfield : forall s,
            forallb (fun a => negb (Ascii.eqb a ",")) (list_ascii_of_string s) = true ->
            field s).
  { intros s Hall. apply Forall_forall. intros a Ha. rewrite forallb_forall in Hall.
    apply list_elem_of_In, Hall in Ha. intros ->. discriminate Ha. }
  destruct (get_status_reads_reply "PLAYING"
              ["snes9x,Super"; "Mario"; "World,crc32=b19ed489"])
    as (Hplaying & Hpaused & Hthree & _).
  - split; [discriminate|reflexivity].
  - repeat (constructor; [split; [discriminate|reflexivity]|]).
    constructor.
  - discriminate.
  - destruct (Hthree "snes9x" "Super Mario World" "crc32=b19ed489")
      as [Hcore Hcontent];
      [apply Hfield; reflexivity|apply Hfield; reflexivity|reflexivity|].
    cbv zeta. split; [exact Hplaying|]. split; [exact Hpaused|].
    split; [exact Hcore|]. split; [exact Hcontent|].
    split; [|vm_compute; reflexivity].
    unfold GameInfoParser.parse, game_status. cbn [fst HintSystem.core].
    change (String.concat " " ["snes9x,Super"; "Mario"; "World,crc32=b19ed489"])
      with "snes9x,Super Mario World,crc32=b19ed489" in Hcore.
    change ("GET_STATUS " +:+ "PLAYING" +:+ " "
            +:+ "snes9x,Super Mario World,crc32=b19ed489")
      with "GET_STATUS PLAYING snes9x,Super Mario World,crc32=b19ed489" in Hcore.
    rewrite Hcore. reflexivity.
Defined.

End GetStatusFacts.

Section NoStatusReply.
Import Py HintSystem.

Variable cfg : Config.t.
Variable w : World.

(** X20.  The two flags of [get_status] never hold together, and a reply
    of fewer than two words - in particular the empty response [send] returns
    after a timeout or a socket error - or one whose state word is neither
    PLAYING nor PAUSED reports no game.  A hint request that gets such a
    reply is dropped: after the status query it only shows the no-game
    notice, [processing] is released, no screenshot is requested and no
    background task is started. *)
Theorem request_without_status_reply_is_dropped past hs response :
  let st := RetroArchCommander.get_status response in
  let quota := RateLimiter.can_make_request (today w past)
                (disk_ok w past 0%nat) (rate_limiter hs) in
  RetroArchCommander.playing st && RetroArchCommander.paused st = false
  /\ ((length (PyStr.split response) < 2)%nat
      \/ (nth 1 (PyStr.split response) "" <> "PLAYING"
          /\ nth 1 (PyStr.split response) "" <> "PAUSED") ->
      RetroArchCommander.playing st = false
      /\ RetroArchCommander.paused st = false
      /\ (processing hs = false ->
          fst (fst (fst quota)) = true ->
          status_reply w (past ++ [Udp "GET_STATUS"])
          = RetroArchCommander.game_status st ->
          on_request_hint cfg w past hs
          = (Returned tt,
             State false false (current_hint_path hs) (snd quota),
             [Udp "GET_STATUS"; Udp "SHOW_MSG No game running!"]))).
Proof.
  intros st quota.
  assert (Hflags : RetroArchCommander.playing st
                   = (negb (String.eqb response "")
                      && (2 <=? length (PyStr.split response))%nat
                      && String.eqb (nth 1 (PyStr.split response) "") "PLAYING")
                   /\ RetroArchCommander.paused st
                      = (negb (String.eqb response "")
                         && (2 <=? length (PyStr.split response))%nat
                         && String.eqb (nth 1 (PyStr.split response) "") "PAUSED")).
  { subst st. unfold RetroArchCommander.get_status.
    destruct response as [|a response]; [split; reflexivity|].
    cbn [Text.nonempty negb]. cbv zeta.
    change (negb (String.eqb (String a response) "")) with true.
    destruct (2 <=? length _)%nat; [|split; reflexivity].
    destruct (3 <=? length _)%nat; [|split; reflexivity].
    destruct (GameInfoParser.contains _ _); split; reflexivity. }
  destruct Hflags as [Hplaying Hpaused]. split.
  - rewrite Hplaying, Hpaused.
    destruct (negb _); [|reflexivity]. destruct (2 <=? _)%nat; [|reflexivity].
    cbn [andb]. apply playing_paused_exclusive.
  - intros Hnone.
    assert (Hoff : RetroArchCommander.playing st = false
                   /\ RetroArchCommander.paused st = false).
    { rewrite Hplaying, Hpaused. destruct Hnone as [Hshort|[Hp Hq]].
      - destruct (Nat.leb_spec 2 (length (PyStr.split response))); [lia|].
        rewrite !andb_false_r. split; reflexivity.
      - apply String.eqb_neq in Hp, Hq. rewrite Hp, Hq, !andb_false_r.
        split; reflexivity. }
    destruct Hoff as [Hoff1 Hoff2]. split; [exact Hoff1|]. split; [exact Hoff2|].
    intros Hidle Hallowed Hreply.
    pose proof (on_request_hint_run cfg w past hs Hidle) as Hrun.
    cbv zeta in Hrun. fold quota in Hrun.
    destruct quota as [[[allowed used] limit] rl]. cbn [fst snd] in *.
    subst allowed. cbn [negb] in Hrun.
    rewrite Hreply in Hrun. cbn [RetroArchCommander.game_status playing paused] in Hrun.
    rewrite Hoff1, Hoff2 in Hrun. exact Hrun.
Qed.

End NoStatusReply.

Section NoStatusReplyScenario.
Import Py HintSystem Scenario Failing.

(** X20 on data: RetroArch answers that no content is loaded. *)
Lemma request_without_status_reply_is_dropped_witness :
  events (on_request_hint (config "anthropic") (no_game answering) [] idle)
  = [Udp "GET_STATUS"; Udp "SHOW_MSG No game running!"].
Proof.
  destruct (request_without_status_reply_is_dropped
              (config "anthropic") (no_game answering) [] idle
              "GET_STATUS CONTENTLESS") as [_ Hdrop].
  destruct Hdrop as (_ & _ & Hrun).
  - right. split; discriminate.
  - rewrite (Hrun eq_refl eq_refl eq_refl). reflexivity.
Defined.

End NoStatusReplyScenario.

(** ** HintViewer: the viewers release the emulator *)



Section ViewersResume.
Import Py HintViewer.
Local Open Scope py_scope.

Variable w : World.



End ViewersResume.

Section ViewersResumeScenario.
Import Py HintViewer Scenario.


End ViewersResumeScenario.

(** ** HintSystem: a request from the hotkey to the viewer *)

Section RequestCycle.
Import Py HintSystem.
Local Open Scope py_scope.

Variable cfg : Config.t.
Variable w : World.



End RequestCycle.

Section RequestCycleScenario.
Import Py HintSystem Scenario Failing.


End RequestCycleScenario.

(** ** HintViewer._show_direct_fb: the frame it writes *)

Section FrameFacts.
Import Py HintViewer Frame.
Local Open Scope py_scope.

Lemma sat_ask_oracle {L R Y} (f : list event -> Y) (N : Y -> Prop) Rt X Ev :
  (forall past, N (f past)) -> sat (L:=L) (R:=R) (ask f) N Rt X Ev.
Proof. intros Hn past l. split; [constructor|apply Hn]. Qed.

Lemma bgra_bytes_frame (canvas : list Rgb565.pixel) :
  Forall Rgb565.rgb8 canvas ->
  Z.of_nat (length (bgra_bytes canvas)) = Z.of_nat (length canvas) * 4
  /\ Forall (fun byte => 0 <= byte <= 255) (bgra_bytes canvas).
Proof.
  unfold bgra_bytes.
  induction 1 as [|[[r g] b] canvas (Hr & Hg & Hb) _ [IHlen IHbytes]];
    [split; [reflexivity|constructor]|].
  cbn [flat_map app length]. unfold Rgb565.channel in *. cbn [fst snd] in *.
  split; [lia|]. repeat (constructor; [lia|]). exact IHbytes.
Qed.

Lemma bgr_bytes_frame (canvas : list Rgb565.pixel) :
  Forall Rgb565.rgb8 canvas ->
  Z.of_nat (length (bgr_bytes canvas)) = Z.of_nat (length canvas) * 3
  /\ Forall (fun byte => 0 <= byte <= 255) (bgr_bytes canvas).
Proof.
  unfold bgr_bytes.
  induction 1 as [|[[r g] b] canvas (Hr & Hg & Hb) _ [IHlen IHbytes]];
    [split; [reflexivity|constructor]|].
  cbn [flat_map app length]. unfold Rgb565.channel in *. cbn [fst snd] in *.
  split; [lia|]. repeat (constructor; [lia|]). exact IHbytes.
Qed.

Lemma rgb565_frame (canvas : list Rgb565.pixel) (data : list Z) :
  Forall Rgb565.rgb8 canvas ->
  Rgb565._convert_to_rgb565 canvas = Some data ->
  Z.of_nat (length data) = Z.of_nat (length canvas) * 2
  /\ Forall (fun byte => 0 <= byte <= 255) data.
Proof.
  unfold Rgb565._convert_to_rgb565. intros Hcanvas. revert data.
  induction Hcanvas as [|p canvas Hp _ IH]; intros data Hdata.
  { injection Hdata as <-. split; [reflexivity|constructor]. }
  cbn [mapM] in Hdata. pose proof (rgb565_range p Hp) as Hrange.
  unfold Rgb565.pack_H in Hdata.
  destruct (Z.leb_spec 0 (Rgb565.rgb565 p)); [|lia].
  destruct (Z.leb_spec (Rgb565.rgb565 p) 65535); [|lia].
  cbn [andb mbind option_bind] in Hdata.
  destruct (mapM _ canvas) as [chunks|]; [|discriminate].
  cbn in Hdata. injection Hdata as <-.
  destruct (IH (concat chunks) eq_refl) as [IHlen IHbytes].
  cbn [length]. split; [lia|].
  pose proof (Z.mod_pos_bound (Rgb565.rgb565 p) 256 ltac:(lia)) as Hlow.
  assert (Hhigh : 0 <= Rgb565.rgb565 p / 256 < 256)
    by (split; [apply Z.div_pos; lia|apply Z.div_lt_upper_bound; lia]).
  constructor; [lia|]. constructor; [lia|exact IHbytes].
Qed.

(** X23.  Whatever [_show_direct_fb] writes to the framebuffer has the
    size of the framebuffer: for a canvas of the requested size with 8-bit
    channels, every frame written holds width x height x 4, 3 or 2 bytes for
    the reported depth of 32, 24 or 16 bits per pixel, each a byte value;
    with any other depth nothing is written at all. *)
Theorem show_direct_fb_frame_fits (w : World) hint_path past :
  canvas_ok w ->
  Forall (frame_fits w) (events (_show_direct_fb w hint_path past vt_init)).
Proof.
  intros Hcanvas.
  assert (Hsat : sat (_show_direct_fb w hint_path)
                   (fun _ => True) (fun _ => True) (fun _ => True)
                   (frame_fits w)).
  2: { apply Hsat. }
  unfold _show_direct_fb.
  eapply sat_try_except with (X1 := fun _ => True).
  2: { intros e _. unfold fallback, _show_retroarch_pause, subprocess_run.
       sat_go. }
  eapply sat_bind with
    (N1 := fun props => exists p, fb_properties w p = Some props).
  { eapply sat_try_except with (X1 := fun _ => True).
    - eapply sat_bind with (N1 := fun r => exists p, fb_properties w p = r).
      + apply sat_ask_oracle. eauto.
      + intros [props|] [p Hp]; [apply sat_ret; eauto|apply sat_raise; exact I].
    - intros e _. unfold fallback, _show_retroarch_pause. sat_go. }
  intros [[fb_width fb_height] fb_bpp] [p0 Hprops].
  eapply sat_bind with (N1 := fun _ => True).
  { unfold read_current_vt, subprocess_run, set_current_vt. sat_go. }
  intros _ _.
  eapply sat_bind with (N1 := fun _ => True).
  { unfold suspend_retroarch, subprocess_run, set_retroarch_suspended. sat_go. }
  intros _ _.
  eapply sat_bind with (N1 := fun _ => True).
  { unfold subprocess_run, set_display_vt. sat_go. }
  intros _ _.
  eapply sat_bind with (N1 := fun data => frame_fits w (FbWrite data)).
  { eapply sat_try_except with (X1 := fun _ => True).
    - eapply sat_bind with
        (N1 := fun c => forall canvas, c = Some canvas ->
                 Forall Rgb565.rgb8 canvas
                 /\ Z.of_nat (length canvas) = fb_width * fb_height).
      + apply sat_ask_oracle. intros past0 canvas Hc.
        exact (Hcanvas _ _ _ _ _ Hc).
      + intros [canvas|] Hc; [|apply sat_raise; exact I].
        destruct (Hc canvas eq_refl) as [Hpx Hsize].
        destruct (Z.eqb_spec fb_bpp 32) as [->|H32].
        { apply sat_ret. exists p0, fb_width, fb_height, 32.
          destruct (bgra_bytes_frame canvas Hpx) as [Hlen Hbytes].
          repeat split; try assumption.
          rewrite Hlen, Hsize. reflexivity. }
        destruct (Z.eqb_spec fb_bpp 24) as [->|H24].
        { apply sat_ret. exists p0, fb_width, fb_height, 24.
          destruct (bgr_bytes_frame canvas Hpx) as [Hlen Hbytes].
          repeat split; try assumption.
          rewrite Hlen, Hsize. reflexivity. }
        destruct (Z.eqb_spec fb_bpp 16) as [->|H16].
        { destruct (Rgb565._convert_to_rgb565 canvas) as [data|] eqn:Hdata;
            [|apply sat_raise; exact I].
          apply sat_ret. exists p0, fb_width, fb_height, 16.
          destruct (rgb565_frame canvas data Hpx Hdata) as [Hlen Hbytes].
          repeat split; try assumption.
          rewrite Hlen, Hsize. reflexivity. }
        unfold fallback, _show_retroarch_pause. sat_go.
    - intros e _. unfold fallback, _show_retroarch_pause. sat_go. }
  intros raw_data Hfits.
  eapply sat_bind with (N1 := fun _ => True).
  { eapply sat_try_except with (X1 := fun _ => True).
    - eapply sat_bind with (N1 := fun _ => True);
        [apply sat_ask; intros; exact I|].
      intros r _.
      eapply sat_bind with (N1 := fun _ => True);
        [apply sat_emit; [exact Hfits|exact I]|].
      intros _ _. destruct r; [apply sat_raise|apply sat_ret]; exact I.
    - intros e _. unfold fallback, _show_retroarch_pause.
      destruct e; sat_go. }
  intros _ _.
  unfold _wait_for_button_press, switch_back, resume_retroarch, subprocess_run.
  sat_go.
Qed.

End FrameFacts.

Section FrameScenario.
Import Py HintViewer Frame Scenario.

(** X23 on data: on a 2 x 1 console at 32 bits per pixel the frame has
    eight bytes. *)
Lemma show_direct_fb_frame_fits_witness :
  canvas_ok (black_console 32)
  /\ Forall (frame_fits (black_console 32))
       (events (_show_direct_fb (black_console 32) hint_png [] vt_init))
  /\ In (FbWrite [0; 0; 0; 255; 0; 0; 0; 255])
       (events (_show_direct_fb (black_console 32) hint_png [] vt_init)).
Proof.
  assert (Hok : canvas_ok (black_console 32)).
  { intros past path width height canvas Hc. cbn in Hc.
    destruct (Z.leb_spec 0 (width * height)); [|discriminate].
    injection Hc as <-. split.
    - apply Forall_forall. intros px Hpx.
      apply list_elem_of_In, repeat_spec in Hpx. subst px.
      repeat split; cbn; lia.
    - rewrite repeat_length. lia. }
  split; [exact Hok|]. split.
  - apply (show_direct_fb_frame_fits (black_console 32) hint_png [] Hok).
  - vm_compute. auto 10.
Defined.

End FrameScenario.

(** ** HotkeyListener: pressing the request combo *)

Section PressingCombo.
Import HotkeyListener ListenerInvariant Presses.

Lemma find_button_known ecodes st name code :
  distinct_codes ecodes st ->
  name ∈ request_combo st ∪ view_combo st ->
  ecodes name = Some code ->
  find_button (btn_codes ecodes st) code = Some name.
Proof.
  intros Hdistinct Hname Hcode. unfold find_button.
  assert (Hin : (name, code) ∈ btn_codes ecodes st).
  { unfold btn_codes. apply list_elem_of_omap. exists name. split.
    - apply elem_of_app. apply elem_of_union in Hname as [H|H];
        [left|right]; apply elem_of_elements, H.
    - rewrite Hcode. reflexivity. }
  destruct (find _ _) as [[m c]|] eqn:Hfind.
  - apply find_some in Hfind as [Hm Hc]. cbn in Hc.
    apply Z.eqb_eq in Hc. subst c. cbn. f_equal.
    unfold btn_codes in Hm.
    apply list_elem_of_In, list_elem_of_omap in Hm as (x & Hx & Hxc).
    destruct (ecodes x) as [c'|] eqn:Hx'; [|discriminate].
    cbn in Hxc. injection Hxc as -> ->.
    apply (Hdistinct m name code); [|exact Hname|exact Hx'|exact Hcode].
    apply elem_of_app in Hx as [Hx|Hx]; apply elem_of_elements in Hx;
      set_solver.
  - exfalso. apply list_elem_of_In in Hin.
    pose proof (find_none _ _ Hfind _ Hin) as Hno. cbn in Hno.
    rewrite Z.eqb_refl in Hno. discriminate.
Qed.

(** The listener while the buttons of the request combo go down one after
    another. *)
Lemma listen_presses ecodes st (held todo : list string) :
  running st = true ->
  distinct_codes ecodes st ->
  (forall n, n ∈ request_combo st -> is_Some (ecodes n)) ->
  ¬ view_combo st ⊆ request_combo st ->
  NoDup (held ++ todo) ->
  (forall n, n ∈ held ++ todo <-> n ∈ request_combo st) ->
  pressed_keys st = list_to_set held ->
  todo <> [] ->
  listen ecodes st (map (press_of ecodes) todo)
  = State true (request_combo st) (view_combo st) ∅
      (effects st ++ [ClearPressed; StartThread OnRequest]).
Proof.
  intros Hrun Hdistinct Hknown Hview. revert st held Hrun Hdistinct Hknown Hview.
  induction todo as [|name todo IH];
    intros st held Hrun Hdistinct Hknown Hview Hnodup Hall Hheld Hne;
    [contradiction|].
  clear Hne. cbn [map listen fold_left].
  assert (Hname : name ∈ request_combo st) by (apply Hall; set_solver).
  destruct (Hknown name Hname) as [code Hcode].
  assert (Hstep : on_event ecodes st (press_of ecodes name)
                  = _check_combos (set_pressed st (pressed_keys st ∪ {[name]}))).
  { unfold on_event, press_of. rewrite Hrun, Hcode. cbn.
    rewrite (find_button_known ecodes st name code Hdistinct); [reflexivity| |exact Hcode].
    set_solver. }
  rewrite Hstep. unfold _check_combos.
  cbn [set_pressed request_combo view_combo pressed_keys running effects].
  destruct todo as [|next todo].
  - rewrite bool_decide_eq_true_2.
    + rewrite Hrun. reflexivity.
    + intros n Hn. apply Hall in Hn. rewrite Hheld. set_solver.
  - rewrite bool_decide_eq_false_2.
    2: { intros Hsub.
         assert (Hnext : next ∈ request_combo st) by (apply Hall; set_solver).
         apply Hsub in Hnext. rewrite Hheld in Hnext.
         apply NoDup_app in Hnodup as (_ & Hdisj & Htodo).
         apply NoDup_cons in Htodo as [Hfresh _].
         apply elem_of_union in Hnext as [Hnext|Hnext].
         - apply elem_of_list_to_set in Hnext.
           apply (Hdisj next Hnext). set_solver.
         - apply elem_of_singleton in Hnext. subst next. set_solver. }
    rewrite bool_decide_eq_false_2.
    2: { intros Hsub. apply Hview. intros n Hn. apply Hsub in Hn.
         apply Hall. rewrite Hheld in Hn. set_solver. }
    unfold listen in IH.
    rewrite (IH (set_pressed st (pressed_keys st ∪ {[name]})) (held ++ [name]));
      cbn; try assumption; try discriminate.
    + reflexivity.
    + rewrite <- app_assoc. exact Hnodup.
    + intros n. rewrite <- app_assoc. apply Hall.
    + rewrite Hheld, list_to_set_app_L. cbn. set_solver.
Qed.

(** X24.  Pressing the request combo dispatches the request.  With the
    listener running, no button held, every button of the request combo known
    to evdev, distinct codes for distinct configured buttons, and a view combo
    that is not contained in the request combo: when the buttons of the
    request combo are pressed one after another, in any order, the last press
    starts the request callback - exactly once - and empties the pressed
    set; no view callback is started on the way. *)
Theorem pressing_request_combo_dispatches ecodes st (order : list string) :
  running st = true ->
  pressed_keys st = ∅ ->
  distinct_codes ecodes st ->
  (forall n, n ∈ request_combo st -> is_Some (ecodes n)) ->
  ¬ view_combo st ⊆ request_combo st ->
  NoDup order -> order <> [] ->
  (forall n, n ∈ order <-> n ∈ request_combo st) ->
  let st' := listen ecodes st (map (press_of ecodes) order) in
  effects st' = effects st ++ [ClearPressed; StartThread OnRequest]
  /\ pressed_keys st' = ∅
  /\ quiescent st'.
Proof.
  intros Hrun Hnone Hdistinct Hknown Hview Hnodup Hne Hall st'. subst st'.
  rewrite (listen_presses ecodes st [] order); cbn [app]; try assumption.
  cbn. split; [reflexivity|]. split; [reflexivity|].
  assert (Hreq : request_combo st ≠ ∅).
  { destruct order as [|n order]; [contradiction|].
    assert (n ∈ request_combo st) by (apply Hall; set_solver). set_solver. }
  split; cbn; [set_solver|].
  intros Hsub. apply Hview. set_solver.
Qed.

(** X24 on data: the default combos; L1 is pressed first, then Select. *)
Lemma pressing_request_combo_dispatches_witness :
  let codes := fun name : string =>
    if String.eqb name "BTN_SELECT" then Some 314
    else if String.eqb name "BTN_TL" then Some 310
    else if String.eqb name "BTN_TR" then Some 311 else None in
  let st := started default_request default_view in
  effects (listen codes st
             [InputEvent EV_KEY 310 1; InputEvent EV_KEY 314 1])
  = [ClearPressed; StartThread OnRequest].
Proof.
  intros codes st.
  assert (Hcodes : forall n, n ∈ default_request ∪ default_view ->
            n = "BTN_SELECT" \/ n = "BTN_TL" \/ n = "BTN_TR").
  { intros n Hn. unfold default_request, default_view in Hn. set_solver. }
  destruct (pressing_request_combo_dispatches codes st ["BTN_TL"; "BTN_SELECT"])
    as (Heffects & _).
  - reflexivity.
  - reflexivity.
  - intros n m c Hn Hm Hnc Hmc. cbn in Hn, Hm.
    apply Hcodes in Hn, Hm.
    destruct Hn as [-> | [-> | ->]]; destruct Hm as [-> | [-> | ->]];
      cbn in Hnc, Hmc; congruence.
  - intros n Hn. cbn in Hn. unfold default_request in Hn.
    assert (n = "BTN_SELECT" \/ n = "BTN_TL") as [-> | ->] by set_solver;
      cbn; eauto.
  - cbn. unfold default_request, default_view. intros Hsub.
    assert (H : "BTN_TR" ∈ ({["BTN_SELECT"; "BTN_TL"]} : gset string))
      by (apply Hsub; set_solver).
    set_solver.
  - repeat constructor; set_solver.
  - discriminate.
  - intros n. cbn. unfold default_request. set_solver.
  - exact Heffects.
Defined.

End PressingCombo.

(** ** A reply without text is taken for a hint *)

Section EmptyReplyFacts.
Import Py HintSystem.
Local Open Scope py_scope.

Variable cfg : Config.t.
Variable w : World.

(** X25.  A reply of the service that carries no text is not a failure.
    With a key configured and the screenshot read, when the answer of the
    Anthropic service has no content block or a first block without text, or
    the answer of the OpenAI service has no choice, [get_hint] returns the
    text "No hint generated.", which is not error-shaped: the background task
    counts the request against the quota and renders that text as the hint,
    and logs no API error. *)
Theorem reply_without_text_is_rendered shot system game past hs data url rep :
  let src := hint_source w in
  let hint := AIClient.get_hint cfg src shot system game past tt in
  let run := _process_hint_request cfg w shot system game past hs in
  let p1 := past ++ events hint in
  Config.api_key cfg <> "" ->
  AIClient.read_screenshot src past shot = inl data ->
  AIClient.urlopen src past url = AIClient.HttpResponse rep ->
  (Config.api_provider cfg = "anthropic" /\ url = AIClient.anthropic_url
   /\ (AIClient.reply_content rep = None
       \/ AIClient.reply_content rep = Some []
       \/ exists blocks, AIClient.reply_content rep = Some (None :: blocks)))
  \/ (Config.api_provider cfg = "openai" /\ url = AIClient.openai_url
      /\ (AIClient.reply_choices rep = None \/ AIClient.reply_choices rep = Some [])) ->
  result hint = Returned AIClient.no_hint
  /\ AIClient.is_error AIClient.no_hint = false
  /\ In (Render AIClient.no_hint) (events run)
  /\ ~ In (UsageLog "API_ERROR" false) (events run)
  /\ RateLimiter.get_count
       (RateLimiter.usage_data
          (RateLimiter.record_request (today w p1) (disk_ok w p1 0%nat)
             (disk_ok w p1 1%nat) (rate_limiter hs)))
     = RateLimiter.get_count
         (RateLimiter.usage_data
            (RateLimiter._reset_if_new_day (today w p1) (disk_ok w p1 0%nat)
               (rate_limiter hs))) + 1
  /\ (rate_limiter (frame run)
      = RateLimiter.record_request (today w p1) (disk_ok w p1 0%nat)
          (disk_ok w p1 1%nat) (rate_limiter hs)
      \/ exists day disk,
           rate_limiter (frame run)
           = RateLimiter._reset_if_new_day day disk
               (RateLimiter.record_request (today w p1) (disk_ok w p1 0%nat)
                  (disk_ok w p1 1%nat) (rate_limiter hs))).
Proof.
  intros src hint run p1 Hkey Hshot Hreply Hempty.
  assert (Hres : result hint = Returned AIClient.no_hint).
  { subst hint. rewrite get_hint_result.
    destruct (Config.api_key cfg) as [|a k] eqn:Hk; [contradiction|].
    cbn [Text.nonempty negb]. fold src. rewrite Hshot. cbv zeta.
    destruct Hempty as [(Hp & -> & Hc)|(Hp & -> & Hc)]; rewrite Hp.
    - change (String.eqb "anthropic" "anthropic") with true. cbv iota.
      pose proof (call_anthropic_result src data
                    (Config.format_prompt cfg system game) past) as Hcall.
      cbv zeta in Hcall. rewrite Hreply in Hcall.
      destruct Hc as [Hc|[Hc|[blocks Hc]]]; rewrite Hc in Hcall;
        rewrite Hcall; reflexivity.
    - change (String.eqb "openai" "anthropic") with false.
      change (String.eqb "openai" "openai") with true. cbv iota.
      pose proof (call_openai_result src data
                    (Config.format_prompt cfg system game) past) as Hcall.
      cbv zeta in Hcall. rewrite Hreply in Hcall.
      destruct Hc as [Hc|Hc]; rewrite Hc in Hcall; rewrite Hcall; reflexivity. }
  assert (Hval : value_of (result hint) = Some AIClient.no_hint)
    by (rewrite Hres; reflexivity).
  assert (Herr : AIClient.is_error AIClient.no_hint = false) by reflexivity.
  split; [exact Hres|]. split; [exact Herr|].
  destruct (process_hint_request_hint cfg w shot system game past hs
              AIClient.no_hint Hval Herr) as (rest & Hev & Hrest).
  assert (Hposts : ~ In (UsageLog "API_ERROR" false) (events hint)).
  { intros Hin.
    pose proof (get_hint_events cfg src shot system game past tt) as [Hp _].
    rewrite Forall_forall in Hp.
    apply list_elem_of_In, Hp in Hin as [u Hu]. discriminate Hu. }
  split; [|split; [|split]].
  - subst run. rewrite Hev. apply in_or_app. right. left. reflexivity.
  - subst run. rewrite Hev. intros Hin.
    apply in_app_or in Hin as [Hin|[Hin|Hin]];
      [exact (Hposts Hin)|discriminate Hin|exact (Hrest Hin)].
  - apply record_request_count.
  - subst run.
    rewrite (process_hint_request_hint_run cfg w shot system game past hs
               AIClient.no_hint Hval Herr).
    cbv zeta. fold src hint p1.
    destruct (render_result w p1) as [path|e];
      [destruct (archive_result w _) as [e|]|];
      cbn [frame fst snd rate_limiter]; [left; reflexivity| |left; reflexivity].
    right. eexists _, _. reflexivity.
Qed.

End EmptyReplyFacts.

Section EmptyReplyScenario.
Import Py HintSystem Scenario EmptyReply.

(** X25 on data: the service answers with an empty content list; the
    request is counted and "No hint generated." becomes the hint. *)
Lemma reply_without_text_is_rendered_witness :
  let run := _process_hint_request (config "anthropic") silent
               "shot.png" "SNES" "Zelda" [] idle in
  In (Render "No hint generated.") (events run)
  /\ hint_ready (frame run) = true
  /\ RateLimiter.get_count (RateLimiter.usage_data (rate_limiter (frame run))) = 1.
Proof.
  destruct (reply_without_text_is_rendered (config "anthropic") silent
              "shot.png" "SNES" "Zelda" [] idle "aW1hZ2U="
              AIClient.anthropic_url (AIClient.Reply (Some []) None))
    as (_ & _ & Hrender & _).
  - discriminate.
  - reflexivity.
  - reflexivity.
  - left. split; [reflexivity|]. split; [reflexivity|]. right. left. reflexivity.
  - cbv zeta. split; [exact Hrender|]. split; vm_compute; reflexivity.
Defined.

End EmptyReplyScenario.

(** ** HotkeyListener._listen_fallback *)

Section ListenFallbackFacts.
Import HotkeyListener ListenFallback.


End ListenFallbackFacts.

(** ** detect-buttons.py and the daemon *)

Section DetectButtonsFacts.
Import HotkeyListener Presses DetectButtons.

Lemma name_of_found ecodes code name :
  name_of ecodes code = Some name ->
  In (name, code) ecodes /\ button_name name = true.
Proof.
  unfold name_of. destruct (find _ _) as [[n c]|] eqn:Hfind; [|discriminate].
  intros [= <-]. apply find_some in Hfind as [Hin Hok]. cbn in Hok.
  apply andb_true_iff in Hok as [Hc Hname]. apply Z.eqb_eq in Hc. subst c.
  split; assumption.
Qed.

(** X27.  The detection script and the daemon agree.  The script prints
    one line per key press and nothing for releases, repeats and other
    events.  A name it prints for a press is a BTN_ or KEY_ name of the
    event's code; and when that name is configured in a combo of the running
    daemon (with evdev's attributes agreeing with its table, and distinct
    codes for distinct configured buttons), the daemon takes the same press
    for that button: it records it as held and checks the combos. *)
Theorem printed_name_is_recognised
    (table : list (string * Z)) (ecodes : string -> option Z)
    (st : state) (ev : input_event) (name : string) :
  (forall n c, In (n, c) table -> ecodes n = Some c) ->
  distinct_codes ecodes st ->
  running st = true ->
  name ∈ request_combo st ∪ view_combo st ->
  printed table ev = Some ("  " +:+ name) ->
  name_of table (ev_code ev) = Some name ->
  ev_type ev = EV_KEY /\ ev_value ev = 1
  /\ button_name name = true
  /\ ecodes name = Some (ev_code ev)
  /\ on_event ecodes st ev
     = _check_combos (set_pressed st (pressed_keys st ∪ {[name]})).
Proof.
  intros Htable Hdistinct Hrun Hconfigured Hprinted Hname.
  unfold printed in Hprinted.
  destruct (Z.eqb_spec (ev_type ev) EV_KEY) as [Hkey|]; [|discriminate].
  destruct (Z.eqb_spec (ev_value ev) 1) as [Hpress|]; [|discriminate].
  destruct (name_of_found table (ev_code ev) name Hname) as [Hin Hbutton].
  pose proof (Htable _ _ Hin) as Hcode.
  repeat (split; [assumption|]).
  unfold on_event. rewrite Hrun, Hkey, Hpress. cbn [negb].
  change (EV_KEY =? EV_KEY) with true. cbv iota.
  rewrite (find_button_known ecodes st name (ev_code ev) Hdistinct Hconfigured Hcode).
  reflexivity.
Qed.

(** The script prints for presses only. *)
Lemma printed_only_for_presses table ev :
  printed table ev <> None <-> ev_type ev = EV_KEY /\ ev_value ev = 1.
Proof.
  unfold printed.
  destruct (Z.eqb_spec (ev_type ev) EV_KEY), (Z.eqb_spec (ev_value ev) 1);
    cbn; split; intros H; try discriminate; try tauto; destruct H; contradiction.
Qed.

(** X27 on data: Select is detected as BTN_SELECT, and the daemon with the
    default combos records it. *)
Lemma printed_name_is_recognised_witness :
  let table := [("KEY_ENTER", 28); ("BTN_SELECT", 314); ("BTN_TL", 310);
                ("BTN_TR", 311)] in
  let codes := fun name : string =>
    if String.eqb name "BTN_SELECT" then Some 314
    else if String.eqb name "BTN_TL" then Some 310
    else if String.eqb name "BTN_TR" then Some 311
    else if String.eqb name "KEY_ENTER" then Some 28 else None in
  let st := ListenerInvariant.started default_request default_view in
  output table [InputEvent 1 314 1; InputEvent 1 314 0; InputEvent 3 0 128]
  = ["  BTN_SELECT"]
  /\ pressed_keys (on_event codes st (InputEvent 1 314 1)) = {["BTN_SELECT"]}.
Proof.
  intros table codes st. split; [reflexivity|].
  assert (Hcodes : forall n, n ∈ default_request ∪ default_view ->
            n = "BTN_SELECT" \/ n = "BTN_TL" \/ n = "BTN_TR").
  { intros n Hn. unfold default_request, default_view in Hn. set_solver. }
  destruct (printed_name_is_recognised table codes st (InputEvent 1 314 1)
              "BTN_SELECT") as (_ & _ & _ & _ & Hstep).
  - intros n c Hin. cbn in Hin.
    decompose [or] Hin; try contradiction;
      match goal with H : (_, _) = (_, _) |- _ => injection H as <- <- end;
      reflexivity.
  - intros n m c Hn Hm Hnc Hmc. cbn in Hn, Hm.
    apply Hcodes in Hn, Hm.
    destruct Hn as [-> | [-> | ->]]; destruct Hm as [-> | [-> | ->]];
      cbn in Hnc, Hmc; congruence.
  - reflexivity.
  - cbn. unfold default_request. set_solver.
  - reflexivity.
  - reflexivity.
  - rewrite Hstep. vm_compute. reflexivity.
Defined.

End DetectButtonsFacts.

(** ** HintSystem: one request at a time *)

Section OneRequestAtATime.
Import Py HintSystem.
Local Open Scope py_scope.

Variable cfg : Config.t.
Variable w : World.




End OneRequestAtATime.

Section OneRequestScenario.
Import Py HintSystem Scenario Failing.


End OneRequestScenario.

(** ** HintViewer._show_retroarch_pause: what is shown, and for how long *)

Section OverlayRun.
Import Py HintViewer.
Local Open Scope py_scope.

Variable w : World.




End OverlayRun.
